(** * The submission engine of the JavaScript client

    A shallow embedding of [client/js/src/utils/submit.ts] (function [submit]
    and the closures it returns or installs) and of the parts of
    [client/js/src/client.ts] it depends on.

    The repository holds two copies of [submit]: the one of [submit.ts]
    (bound to [this: any]) and a second one bound to [this: Client].  They
    differ in a handful of places; the embedding is written once and the
    constructor of [Source] says which copy is meant wherever they differ.

    Conventions.
    - Time stamps ([time: new Date()]) are left out of events and statuses.
    - A listener is an identity (a number); calling it is recorded in the
      trace as [Deliver].  Listeners are taken to return normally and not to
      call back into the handle while an event is being dispatched.
    - Helpers imported from files outside this development
      ([handle_message], [apply_diff_stream], [skip_queue], [semiver]) are
      the fields of the class [Imports].
    - What the engine does to the outside (calling a listener, a request, a
      call of [open_stream] or [close_stream]) is recorded, in order, as a
      list of [Effect]s. *)

From Stdlib Require Import QArith.QArith_base.
From stdpp Require Import base strings pretty gmap list.

Set Default Proof Using "Type".
Local Set Warnings "-register-all".

(** ** JavaScript values *)

Inductive Json :=
| JUndefined
| JNull
| JBool (b : bool)
| JNum (q : Q)
| JStr (s : string)
| JArr (l : list Json)
| JObj (fields : list (string * Json)).

(** Property read on an object literal: the last binding of a key wins, as
    in [{...a, k: v}]. *)
Fixpoint obj_get (k : string) (fields : list (string * Json)) : Json :=
  match fields with
  | [] => JUndefined
  | (k', v) :: rest =>
      match obj_get k rest with
      | JUndefined => if decide (k' = k) then v else JUndefined
      | found => found
      end
  end.

Definition prop (k : string) (o : Json) : Json :=
  match o with JObj fields => obj_get k fields | _ => JUndefined end.

(** Truthiness of a value. *)
Definition truthy (j : Json) : bool :=
  match j with
  | JUndefined | JNull => false
  | JBool b => b
  | JNum q => negb (Qeq_bool q 0)
  | JStr s => if decide (s = "") then false else true
  | JArr _ | JObj _ => true
  end.

(** The properties every object literal inherits from [Object.prototype]. *)
Definition object_prototype_keys : list string :=
  ["constructor"; "__defineGetter__"; "__defineSetter__"; "hasOwnProperty";
   "__lookupGetter__"; "__lookupSetter__"; "isPrototypeOf";
   "propertyIsEnumerable"; "toString"; "valueOf"; "__proto__";
   "toLocaleString"].

(** [key in obj] for an object literal used as a map: the key is one of
    its own or an inherited one. *)
Definition has_property {A} (key : string) (obj : gmap string A) : bool :=
  bool_decide (is_Some (obj !! key)) || bool_decide (key ∈ object_prototype_keys).

(** The key is in the object by inheritance alone: [obj[key]] is then a
    member of [Object.prototype], not a value of the map. *)
Definition inherited {A} (key : string) (obj : gmap string A) : bool :=
  bool_decide (key ∈ object_prototype_keys) && bool_decide (obj !! key = None).

(** [obj[key] = value] on an object literal used as a map: the value
    becomes a property of the object's own, except under the key
    [__proto__], where the assignment goes to the setter of
    [Object.prototype] and the object gets no property. *)
Definition assign {A} (key : string) (value : A) (obj : gmap string A)
    : gmap string A :=
  if decide (key = "__proto__") then obj else <[key := value]> obj.

Definition of_opt_str (o : option string) : Json :=
  match o with Some s => JStr s | None => JNull end.

(** Truthiness of an optional string ([undefined], [null] and the empty
    string are falsy). *)
Definition truthy_str (o : option string) : bool :=
  match o with
  | Some s => if decide (s = "") then false else true
  | None => false
  end.

(** Key under which a value of type [string | undefined] indexes an object. *)
Definition key_of (o : option string) : string := default "undefined" o.

Inductive Exn :=
| TypeError (what : string)
| ReferenceError (what : string)
| SyntaxError (what : string)
| Error (msg : string).

Inductive Res (A : Type) :=
| Ok (a : A)
| Throw (e : Exn).
Arguments Ok {A} a.
Arguments Throw {A} e.

(** ** Statuses and events *)

Inductive Stage := Pending | Generating | Complete | Failed.

Record Status := {
  stage : Stage;
  queue : bool;
  message : option string;
  eta : option Q;
  broken : option bool;
  others : list (string * Json)   (* code, size, position, progress_data, success *)
}.

Inductive EventType := status_t | data_t | log_t.

#[export] Instance EventType_eq_dec : EqDecision EventType.
Proof. solve_decision. Defined.

Definition type_key (t : EventType) : string :=
  match t with status_t => "status" | data_t => "data" | log_t => "log" end.

Record StatusEvent := {
  ev_stage : option Stage;
  ev_queue : bool;
  ev_message : option string;
  ev_eta : option Q;
  ev_broken : option bool;
  ev_others : list (string * Json);
  ev_endpoint : string;
  ev_fn_index : Z
}.

Record DataEvent := {
  de_data : Json;
  de_endpoint : string;
  de_fn_index : Z;
  de_event_data : Json;
  de_trigger_id : Json
}.

Record LogEvent := {
  le_log : Json;
  le_level : Json;
  le_endpoint : string;
  le_fn_index : Z
}.

Inductive Event :=
| EStatus (e : StatusEvent)
| EData (e : DataEvent)
| ELog (e : LogEvent).

Definition event_type (e : Event) : EventType :=
  match e with EStatus _ => status_t | EData _ => data_t | ELog _ => log_t end.

(** A status event is terminal when its stage is complete or error. *)
Definition terminal_stage (s : option Stage) : bool :=
  match s with Some Complete | Some Failed => true | _ => false end.

Definition is_terminal (e : Event) : bool :=
  match e with EStatus s => terminal_stage (ev_stage s) | _ => false end.

Definition is_data (e : Event) : bool :=
  match e with EData _ => true | _ => false end.

(** ** What the engine does to the outside *)

(** What a variable meant for an event stream may hold. *)
Inductive Handle :=
| EventSourceObj          (* new EventSource(url) *)
| NoopFn.                 (* () => {} *)

Definition Listener := nat.

Inductive Effect :=
| Fired (e : Event)                          (* fire_event(e) was called *)
| Deliver (l : Listener) (e : Event)         (* l(e) *)
| PostData (url : string) (body : Json)      (* post_data(url, body, ...) *)
| PostDataWith (url : string) (body headers : Json)
                                             (* post_data(url, body, ..., headers) *)
| Fetch (url : string) (body : Json)         (* fetch(url, {method: "POST", body}) *)
| NewWebSocket (url : string)
| WsSend (body : Json)
| WsClose
| WsCloseOnOpen                              (* websocket.addEventListener("open", close) *)
| WindowOnOpenSend (body : Json)             (* addEventListener("open", send) *)
| NewEventSource (url : string)
| EsClose
| OpenStream (session_hash : string)         (* open_stream(...) *)
| CloseStream (stream_open : bool) (event_stream : option Handle)
                                             (* close_stream(stream_open, event_stream) *)
| PostMessage (what origin : string)         (* post_message(...) *)
| ConsoleError (what : string)
| ConsoleWarn (what : string)
| Uncaught (e : Exn).                        (* an exception nobody handles *)

Definition fired (tr : list Effect) : list Event :=
  omap (λ x, match x with Fired e => Some e | _ => None end) tr.

Definition received (l : Listener) (tr : list Effect) : list Event :=
  omap (λ x, match x with
             | Deliver l' e => if decide (l' = l) then Some e else None
             | _ => None
             end) tr.

(** ** Configuration and the constants of one [submit] call *)

Inductive Source :=
| submit_ts    (* client/js/src/utils/submit.ts, [this: any] *)
| part_003.    (* the copy bound to [this: Client] *)

Record Dependency := { zerogpu : bool }.

Record Config := {
  root : string;
  path : string;
  config_protocol : option string;
  version : option string;
  space_id : option string;
  dependencies : list Dependency
}.

(** The host environment the library runs in. *)
Record Host := {
  has_window : bool;                           (* typeof window !== "undefined" *)
  has_EventSource : bool;                      (* typeof EventSource !== "undefined" *)
  url_params : string;                         (* window.location.search, or "" *)
  origin : string;                             (* computed from window.location.hostname *)
  in_foreign_frame : bool                      (* window.parent != window *)
}.

Record Consts := {
  sub_id : nat;                                (* identity of this call's closures *)
  source : Source;
  config : Config;
  hf_token : option string;
  session_hash : string;
  fn_index : Z;
  _endpoint : string;
  dependency : option Dependency;
  event_data : Json;
  trigger_id : Json;
  host : Host
}.

(** [config.protocol ?? "ws"] *)
Definition protocol (c : Consts) : string :=
  default "ws" (config_protocol (config c)).

#[export] Instance Stage_eq_dec : EqDecision Stage.
Proof. solve_decision. Defined.

(** ** The variables of one [submit] call and the multiplex registries *)

(** [string | undefined], as [response.event_id] and [_data.event_id]. *)
Definition EventId := option string.

Inductive MsgType :=
| t_hash | t_data | t_update | t_complete | t_generating | t_log
| t_none | t_heartbeat | t_unexpected_error.

#[export] Instance MsgType_eq_dec : EqDecision MsgType.
Proof. solve_decision. Defined.

(** The [data] of an interpreted frame: the frame's [output], or the frame
    itself for a log frame. *)
Record Output := {
  o_data : Json;
  o_log : Json;
  o_level : Json
}.

(** What [handle_message] returns: [{ type, status, data }]. *)
Record Message := {
  mtype : MsgType;
  mstatus : option Status;
  mdata : option Output
}.

Record WebSocket := {
  readyState : nat;
  close_on_open : nat          (* listeners of "open" that close the socket *)
}.

Record Vars := {
  payload : option (list (string * Json));
  event_id : option EventId;                   (* None is [null] *)
  complete : option Status;                    (* None is [false] or [undefined] *)
  listener_map : gmap string (list Listener);
  websocket : option WebSocket;
  event_stream : option Handle;                (* [event_stream] / [event_source] of submit *)
  sse_event_stream : option Handle;            (* the [let event_stream] of the sse branch *)
  stream_open : bool;
  jwt : option string
}.

Definition set_payload v (x : Vars) : Vars :=
  {| payload := v; event_id := event_id x; complete := complete x;
     listener_map := listener_map x; websocket := websocket x;
     event_stream := event_stream x; sse_event_stream := sse_event_stream x;
     stream_open := stream_open x; jwt := jwt x |}.
Definition set_event_id v (x : Vars) : Vars :=
  {| payload := payload x; event_id := v; complete := complete x;
     listener_map := listener_map x; websocket := websocket x;
     event_stream := event_stream x; sse_event_stream := sse_event_stream x;
     stream_open := stream_open x; jwt := jwt x |}.
Definition set_complete v (x : Vars) : Vars :=
  {| payload := payload x; event_id := event_id x; complete := v;
     listener_map := listener_map x; websocket := websocket x;
     event_stream := event_stream x; sse_event_stream := sse_event_stream x;
     stream_open := stream_open x; jwt := jwt x |}.
Definition set_listener_map v (x : Vars) : Vars :=
  {| payload := payload x; event_id := event_id x; complete := complete x;
     listener_map := v; websocket := websocket x;
     event_stream := event_stream x; sse_event_stream := sse_event_stream x;
     stream_open := stream_open x; jwt := jwt x |}.
Definition set_websocket v (x : Vars) : Vars :=
  {| payload := payload x; event_id := event_id x; complete := complete x;
     listener_map := listener_map x; websocket := v;
     event_stream := event_stream x; sse_event_stream := sse_event_stream x;
     stream_open := stream_open x; jwt := jwt x |}.
Definition set_event_stream v (x : Vars) : Vars :=
  {| payload := payload x; event_id := event_id x; complete := complete x;
     listener_map := listener_map x; websocket := websocket x;
     event_stream := v; sse_event_stream := sse_event_stream x;
     stream_open := stream_open x; jwt := jwt x |}.
Definition set_sse_event_stream v (x : Vars) : Vars :=
  {| payload := payload x; event_id := event_id x; complete := complete x;
     listener_map := listener_map x; websocket := websocket x;
     event_stream := event_stream x; sse_event_stream := v;
     stream_open := stream_open x; jwt := jwt x |}.
Definition set_stream_open v (x : Vars) : Vars :=
  {| payload := payload x; event_id := event_id x; complete := complete x;
     listener_map := listener_map x; websocket := websocket x;
     event_stream := event_stream x; sse_event_stream := sse_event_stream x;
     stream_open := v; jwt := jwt x |}.
Definition set_jwt v (x : Vars) : Vars :=
  {| payload := payload x; event_id := event_id x; complete := complete x;
     listener_map := listener_map x; websocket := websocket x;
     event_stream := event_stream x; sse_event_stream := sse_event_stream x;
     stream_open := stream_open x; jwt := v |}.

(** Key under which the variable [event_id] indexes an object. *)
Definition id_key (e : option EventId) : string :=
  match e with None => "null" | Some e => key_of e end.

Definition id_json (e : option EventId) : Json :=
  match e with
  | None => JNull
  | Some None => JUndefined
  | Some (Some s) => JStr s
  end.

(** ** [Client.eventSource_factory] *)

(** [typeof name] for a global that may be unbound. *)
Definition typeof_global (bound : bool) (kind : string) : Json :=
  JStr (if bound then kind else "undefined").

(** [a !== b] where [a] is a string. *)
Definition str_strict_ne (a : Json) (b : Json) : bool :=
  match a, b with
  | JStr x, JStr y => negb (bool_decide (x = y))
  | _, _ => true
  end.

(** [new EventSource(url)]: the result and what it does to the outside. *)
Definition new_EventSource (h : Host) (url : string) : Res Handle * list Effect :=
  if has_EventSource h then (Ok EventSourceObj, [NewEventSource url])
  else (Throw (ReferenceError "EventSource is not defined"), []).

Definition eventSource_factory (h : Host) (url : string)
    : Res Handle * list Effect :=
  if str_strict_ne (typeof_global (has_window h) "object") JUndefined
     && str_strict_ne (typeof_global (has_EventSource h) "function")
                      (JStr "undefined")
  then new_EventSource h url
  else (Ok NoopFn, []).

(** ** What the engine imports

    [handle_message], [skip_queue] (helpers), [apply_diff_stream] (stream),
    the two messages (constants) and [semiver] belong to files that are not
    part of this development; the engine is written against their
    signatures. *)
Class Imports := {
  (** A frame as parsed from the transport ([JSON.parse(event.data)]). *)
  Frame : Type;
  (** [_data.event_id] *)
  frame_event_id : Frame → EventId;
  handle_message : Frame → option Stage → Res Message;
  (** It updates the store and the data in place; both are returned. *)
  apply_diff_stream :
    gmap string Json → string → Output → Res (gmap string Json * Output);
  skip_queue : Z → Config → bool;
  (** [semiver] is called but not imported: [None] when the name is unbound
      where the code runs. *)
  semiver : option (string → string → Z);
  (** [String.prototype.trim] *)
  trim : string → string;
  BROKEN_CONNECTION_MSG : string;
  QUEUE_FULL_MSG : string
}.

Section Engine.
Context `{Imports}.

(** The multiplex registries; objects, shared by reference between the
    closures that hold them. *)
Record Registries := {
  pending_stream_messages : gmap string (list Frame);
  pending_diff_streams : gmap string Json;
  event_callbacks : gmap string nat;         (* event id ↦ whose callback *)
  unclosed_events : gset EventId
}.

Definition set_pending_stream_messages v (r : Registries) : Registries :=
  {| pending_stream_messages := v; pending_diff_streams := pending_diff_streams r;
     event_callbacks := event_callbacks r; unclosed_events := unclosed_events r |}.
Definition set_pending_diff_streams v (r : Registries) : Registries :=
  {| pending_stream_messages := pending_stream_messages r; pending_diff_streams := v;
     event_callbacks := event_callbacks r; unclosed_events := unclosed_events r |}.
Definition set_event_callbacks v (r : Registries) : Registries :=
  {| pending_stream_messages := pending_stream_messages r;
     pending_diff_streams := pending_diff_streams r;
     event_callbacks := v; unclosed_events := unclosed_events r |}.
Definition set_unclosed_events v (r : Registries) : Registries :=
  {| pending_stream_messages := pending_stream_messages r;
     pending_diff_streams := pending_diff_streams r;
     event_callbacks := event_callbacks r; unclosed_events := v |}.

(** What a closure of one [submit] call works on: its own variables and
    the registries. *)
Record View := {
  vars : Vars;
  regs : Registries
}.

(** *** A monad for the bodies of the closures

    A body runs on a view, ends normally or by an exception, leaves a view
    behind and has done some things to the outside, in order. *)

Definition M (A : Type) : Type := View → Res A * View * list Effect.

Definition outcome {A} (r : Res A * View * list Effect) : Res A := r.1.1.
Definition after {A} (r : Res A * View * list Effect) : View := r.1.2.
Definition effects {A} (r : Res A * View * list Effect) : list Effect := r.2.

Definition ret {A} (a : A) : M A := λ v, (Ok a, v, []).
Definition bind {A B} (m : M A) (k : A → M B) : M B :=
  λ v, match m v with
       | (Ok a, v', es) =>
           match k a v' with (r, v'', es') => (r, v'', es ++ es') end
       | (Throw e, v', es) => (Throw e, v', es)
       end.
Definition throw {A} (e : Exn) : M A := λ v, (Throw e, v, []).
Definition try_catch {A} (m : M A) (h : Exn → M A) : M A :=
  λ v, match m v with
       | (Ok a, v', es) => (Ok a, v', es)
       | (Throw e, v', es) =>
           match h e v' with (r, v'', es') => (r, v'', es ++ es') end
       end.
Definition lift {A} (r : Res A) : M A := λ v, (r, v, []).

#[local] Instance M_ret : MRet M := @ret.
#[local] Instance M_bind : MBind M := λ A B k m, bind m k.

Definition get_vars : M Vars := λ v, (Ok (vars v), v, []).
Definition get_regs : M Registries := λ v, (Ok (regs v), v, []).
Definition modify_vars (f : Vars → Vars) : M unit :=
  λ v, (Ok tt, {| vars := f (vars v); regs := regs v |}, []).
Definition modify_regs (f : Registries → Registries) : M unit :=
  λ v, (Ok tt, {| vars := vars v; regs := f (regs v) |}, []).
Definition emit (e : Effect) : M unit := λ v, (Ok tt, v, [e]).
Definition io {A} (r : Res A * list Effect) : M A := λ v, (r.1, v, r.2).
Definition when (b : bool) (m : M unit) : M unit := if b then m else mret tt.

(** [xs.forEach(f)] *)
Fixpoint for_each {A} (f : A → M unit) (xs : list A) : M unit :=
  match xs with
  | [] => mret tt
  | x :: rest => f x ;; for_each f rest
  end.

(** *** Event subscription *)

Definition fire_event (e : Event) : M unit :=
  x ← get_vars;
  let listeners := default [] (listener_map x !! type_key (event_type e)) in
  emit (Fired e) ;;
  for_each (λ l, emit (Deliver l e)) listeners.

Definition on (eventType : EventType) (listener : Listener) : M unit :=
  x ← get_vars;
  let listeners := default [] (listener_map x !! type_key eventType) in
  modify_vars (set_listener_map
    (<[type_key eventType := listeners ++ [listener]]> (listener_map x))).

Definition off_key (eventType : string) (listener : Listener) : M unit :=
  x ← get_vars;
  let listeners := default [] (listener_map x !! eventType) in
  let listeners := filter (λ l, l ≠ listener) listeners in
  modify_vars (set_listener_map (<[eventType := listeners]> (listener_map x))).

Definition off (eventType : EventType) (listener : Listener) : M unit :=
  off_key (type_key eventType) listener.

Definition destroy : M unit :=
  x ← get_vars;
  for_each (λ kv, for_each (λ fn, off_key kv.1 fn) kv.2)
           (map_to_list (listener_map x)).

(** *** cancel *)

Definition status_of (s : Status) (c : Consts) : StatusEvent :=
  {| ev_stage := Some (stage s); ev_queue := queue s; ev_message := message s;
     ev_eta := eta s; ev_broken := broken s; ev_others := others s;
     ev_endpoint := _endpoint c; ev_fn_index := fn_index c |}.

Definition num (z : Z) : Json := JNum (inject_Z z).

(** The [if (protocol === "ws")] of [cancel]: close the transport and
    build the request for [/reset]. *)
Definition teardown (c : Consts) : M Json :=
  x ← get_vars;
  if decide (protocol c = "ws") then
    match websocket x with
    | Some ws =>
        if decide (readyState ws = 0) then
          emit WsCloseOnOpen ;;
          modify_vars (set_websocket (Some
            {| readyState := 0; close_on_open := S (close_on_open ws) |}))
        else emit WsClose
    | None => throw (TypeError "websocket is undefined")
    end ;;
    mret (JObj [("fn_index", num (fn_index c));
                ("session_hash", JStr (session_hash c))])
  else
    match event_stream x with
    | Some EventSourceObj => emit EsClose
    | Some NoopFn => throw (TypeError "close is not a function")
    | None => throw (TypeError "event stream is undefined")
    end ;;
    mret (JObj [("event_id", id_json (event_id x))]).

(** The [try]/[catch] around the [fetch] of [/reset]; [reset_ok] tells
    whether the [fetch] resolves. *)
Definition post_reset (c : Consts) (cancel_request : Json) (reset_ok : bool)
    : M unit :=
  emit (Fetch (root (config c) +:+ "/reset") cancel_request) ;;
  when (negb reset_ok)
    (emit (ConsoleWarn "The `/reset` endpoint could not be called. Subsequent endpoint results may be unreliable.")).

Definition ok_cancel_status : Status :=
  {| stage := Complete; queue := false; message := None;
     eta := None; broken := None; others := [] |}.

Definition cancel (c : Consts) (reset_ok : bool) : M unit :=
  let _status := ok_cancel_status in
  modify_vars (set_complete (Some _status)) ;;
  fire_event (EStatus (status_of _status c)) ;;
  cancel_request ← teardown c;
  post_reset c cancel_request reset_ok.

(** *** The events the engine builds *)

Definition mk_status (c : Consts) (st : Stage) (q : bool)
    (msg : option string) : StatusEvent :=
  {| ev_stage := Some st; ev_queue := q; ev_message := msg; ev_eta := None;
     ev_broken := None; ev_others := [];
     ev_endpoint := _endpoint c; ev_fn_index := fn_index c |}.

(** [{...base, stage: stg, queue: true, endpoint, fn_index}] *)
Definition spread_status (c : Consts) (base : option Status)
    (stg : option Stage) : StatusEvent :=
  {| ev_stage := stg; ev_queue := true;
     ev_message := base ≫= message; ev_eta := base ≫= eta;
     ev_broken := base ≫= broken; ev_others := default [] (others <$> base);
     ev_endpoint := _endpoint c; ev_fn_index := fn_index c |}.

(** The second copy adds [event_data] and [trigger_id] to data events. *)
Definition data_event (c : Consts) (d : Json) : Event :=
  EData {| de_data := d; de_endpoint := _endpoint c; de_fn_index := fn_index c;
           de_event_data := match source c with
                            | part_003 => event_data c
                            | submit_ts => JUndefined
                            end;
           de_trigger_id := match source c with
                            | part_003 => trigger_id c
                            | submit_ts => JUndefined
                            end |}.

Definition log_event (c : Consts) (d : Output) : Event :=
  ELog {| le_log := o_log d; le_level := o_level d;
          le_endpoint := _endpoint c; le_fn_index := fn_index c |}.

Definition unexpected : string := "An Unexpected Error Occurred!".

(** [a || b] on an optional string *)
Definition or_else (a : option string) (b : string) : string :=
  if truthy_str a then default b a else b.

(** [{...payload, session_hash}] and [{...payload, session_hash, event_id}] *)
Definition with_hash (c : Consts) (x : Vars) : list (string * Json) :=
  default [] (payload x) ++ [("session_hash", JStr (session_hash c))].

Definition starts_with_slash (s : string) : bool :=
  match s with
  | String a _ => bool_decide (String a EmptyString = "/")
  | EmptyString => false
  end.

Definition truthy_string (s : string) : bool :=
  if decide (s = "") then false else true.

Definition query (c : Consts) : string :=
  if truthy_string (url_params (host c)) then "?" +:+ url_params (host c) else "".

(** *** The direct transport *)

Record RunOutput := {
  out_data : Json;
  average_duration : option Q;
  out_error : option string
}.

(** How the promise of [post_data] settles. *)
Inductive Settled :=
| Resolved (output : RunOutput) (status_code : Z)
| Rejected (message : string).

Definition start_direct (c : Consts) : M unit :=
  fire_event (EStatus (mk_status c Pending false None)) ;;
  x ← get_vars;
  emit (PostData
    (root (config c) +:+ "/run" +:+
     (if starts_with_slash (_endpoint c) then _endpoint c
      else "/" +:+ _endpoint c) +:+ query c)
    (JObj (with_hash c x))).

Definition direct_reply (c : Consts) (r : Settled) : M unit :=
  match r with
  | Resolved output status_code =>
      let data := out_data output in
      if decide (status_code = 200%Z) then
        fire_event (data_event c data) ;;
        fire_event (EStatus
          {| ev_stage := Some Complete; ev_queue := false; ev_message := None;
             ev_eta := average_duration output; ev_broken := None;
             ev_others := []; ev_endpoint := _endpoint c;
             ev_fn_index := fn_index c |})
      else
        fire_event (EStatus (mk_status c Failed false (out_error output)))
  | Rejected message =>
      fire_event (EStatus (mk_status c Failed false (Some message)))
  end.

(** *** The WebSocket transport *)

Definition update_event (c : Consts) (status : Status) : Event :=
  EStatus (status_of status c).

(** The tail shared by the three frame handlers: [if (data) { ... }];
    [close] is what the handler closes once the stashed status is out. *)
Definition data_tail (c : Consts) (m : Message) (data : option Output)
    (close : M unit) : M unit :=
  match data with
  | Some d =>
      fire_event (data_event c (o_data d)) ;;
      x ← get_vars;
      match complete x with
      | Some _ =>
          fire_event (EStatus (spread_status c (complete x) (stage <$> mstatus m))) ;;
          close
      | None => mret tt
      end
  | None => mret tt
  end.

Definition read_log (c : Consts) (m : Message) : M unit :=
  match mdata m with
  | Some d => fire_event (log_event c d)
  | None => throw (TypeError "data is undefined")
  end.

Definition ws_onclose (c : Consts) (wasClean : bool) : M unit :=
  when (negb wasClean)
    (fire_event (EStatus
       {| ev_stage := Some Failed; ev_queue := true;
          ev_message := Some BROKEN_CONNECTION_MSG; ev_eta := None;
          ev_broken := Some true; ev_others := [];
          ev_endpoint := _endpoint c; ev_fn_index := fn_index c |})).

Definition ws_onmessage (c : Consts) (_data : Frame) : M unit :=
  m ← lift (handle_message _data None);
  x ← get_vars;
  go_on ←
    match mtype m with
    | t_update =>
        match mstatus m, complete x with
        | Some status, None =>
            fire_event (update_event c status) ;;
            when (bool_decide (stage status = Failed)) (emit WsClose) ;;
            mret true
        | _, _ => mret true
        end
    | t_hash =>
        emit (WsSend (JObj [("fn_index", num (fn_index c));
                            ("session_hash", JStr (session_hash c))])) ;;
        mret false
    | t_data => emit (WsSend (JObj (with_hash c x))) ;; mret true
    | t_complete => modify_vars (set_complete (mstatus m)) ;; mret true
    | t_log => read_log c m ;; mret true
    | t_generating =>
        fire_event (EStatus (spread_status c (mstatus m) (stage <$> mstatus m))) ;;
        mret true
    | _ => mret true
    end;
  when go_on (data_tail c m (mdata m) (emit WsClose)).

(** [event.data] as the socket hands it over: a text that [JSON.parse]
    turns into a frame, or one it rejects. *)
Inductive EventData :=
| Parses (f : Frame)
| Malformed (text : string).

Definition JSON_parse (d : EventData) : Res Frame :=
  match d with
  | Parses f => Ok f
  | Malformed _ => Throw (SyntaxError "Unexpected token in JSON")
  end.

(** [websocket.onmessage], from the event on. *)
Definition websocket_onmessage (c : Consts) (event_data : EventData) : M unit :=
  _data ← lift (JSON_parse event_data);
  ws_onmessage c _data.

(** [process_endpoint] and [get_jwt] are awaited; what they resolve to is
    given: the base of the socket URL, the space id, and the token. *)
Definition start_ws (c : Consts) (ws_root : string) (space : option string)
    (got_jwt : option string) : M unit :=
  fire_event (EStatus (mk_status c Pending true None)) ;;
  let url := ws_root +:+ "/queue/join" +:+ query c in
  when (truthy_str (hf_token c) && truthy_str space)
    (modify_vars (set_jwt got_jwt)) ;;
  x ← get_vars;
  let url := if truthy_str (jwt x)
             then url +:+ (if truthy_string (url_params (host c)) then "&" else "?")
                      +:+ "__sign=" +:+ default "" (jwt x)
             else url in
  emit (NewWebSocket url) ;;
  modify_vars (set_websocket (Some {| readyState := 0; close_on_open := 0 |})) ;;
  match semiver with
  | Some cmp =>
      when (bool_decide (cmp (or_else (version (config c)) "2.0.0") "3.6" < 0)%Z)
        (emit (WindowOnOpenSend (JObj [("hash", JStr (session_hash c))])))
  | None => throw (ReferenceError "semiver is not defined")
  end.

(** *** The dedicated event stream (protocol [sse]) *)

Definition close_handle (h : option Handle) : M unit :=
  match h with
  | Some EventSourceObj => emit EsClose
  | Some NoopFn => throw (TypeError "close is not a function")
  | None => throw (TypeError "event stream is undefined")
  end.

(** The stream the sse handler talks to: its own [let event_stream] in
    [submit.ts], the outer [event_source] in the second copy. *)
Definition sse_handle (c : Consts) (x : Vars) : option Handle :=
  match source c with
  | submit_ts => sse_event_stream x
  | part_003 => event_stream x
  end.

Definition close_sse (c : Consts) : M unit :=
  x ← get_vars; close_handle (sse_handle c x).

Definition start_sse (c : Consts) : M unit :=
  fire_event (EStatus (mk_status c Pending true None)) ;;
  let params := "fn_index=" +:+ pretty (fn_index c)
                +:+ "&session_hash=" +:+ session_hash c in
  let url := root (config c) +:+ "/queue/join?" +:+
             (if truthy_string (url_params (host c)) then url_params (host c) +:+ "&" else "")
             +:+ params in
  match source c with
  | submit_ts =>
      h ← io (new_EventSource (host c) url);
      modify_vars (set_sse_event_stream (Some h))
  | part_003 =>
      h ← io (eventSource_factory (host c) url);
      modify_vars (set_event_stream (Some h))
  end.

(** [post_status] is the status [post_data] resolves with when the frame
    asks for the data. *)
Definition sse_onmessage (c : Consts) (_data : Frame) (post_status : Z) : M unit :=
  m ← lift (handle_message _data None);
  x ← get_vars;
  match mtype m with
  | t_update =>
      match mstatus m, complete x with
      | Some status, None =>
          fire_event (update_event c status) ;;
          when (bool_decide (stage status = Failed)) (close_sse c)
      | _, _ => mret tt
      end
  | t_data =>
      modify_vars (set_event_id (Some (frame_event_id _data))) ;;
      x ← get_vars;
      emit (PostData (root (config c) +:+ "/queue/data")
              (JObj (with_hash c x ++ [("event_id", id_json (event_id x))]))) ;;
      when (negb (bool_decide (post_status = 200%Z)))
        (fire_event (EStatus (mk_status c Failed true (Some BROKEN_CONNECTION_MSG))) ;;
         close_sse c)
  | t_complete => modify_vars (set_complete (mstatus m))
  | t_log => read_log c m
  | t_generating =>
      fire_event (EStatus (spread_status c (mstatus m) (stage <$> mstatus m)))
  | _ => mret tt
  end ;;
  data_tail c m (mdata m) (close_sse c).

(** *** The multiplexed protocols *)

Definition diff_protocols : list string := ["sse_v2"; "sse_v2.1"; "sse_v3"].
Definition closing_protocols : list string := ["sse_v2"; "sse_v2.1"].
Definition mux_protocols : list string := ["sse_v1"; "sse_v2"; "sse_v2.1"; "sse_v3"].

(** The [if]/[else if] chain of the frame callback.  It yields whether the
    callback goes on after the chain (the log branch returns) and the
    [data] as [apply_diff_stream] left it. *)
Definition callback_chain (c : Consts) (m : Message)
    : M (bool * option Output) :=
  let status := mstatus m in
  x ← get_vars;
  match mtype m with
  | t_update =>
      match status, complete x with
      | Some st, None => fire_event (update_event c st) ;; mret (true, mdata m)
      | _, _ => mret (true, mdata m)
      end
  | t_complete => modify_vars (set_complete status) ;; mret (true, mdata m)
  | t_unexpected_error =>
      emit (ConsoleError "Unexpected error") ;;
      fire_event (EStatus (mk_status c Failed true
        (Some (or_else (status ≫= message) unexpected)))) ;;
      mret (true, mdata m)
  | t_log => read_log c m ;; mret (false, mdata m)
  | t_generating =>
      fire_event (EStatus (spread_status c status (stage <$> status))) ;;
      match mdata m with
      | Some d =>
          if bool_decide (protocol c ∈ diff_protocols) then
            r ← get_regs;
            sd ← lift (apply_diff_stream (pending_diff_streams r)
                         (id_key (event_id x)) d);
            modify_regs (set_pending_diff_streams sd.1) ;;
            mret (true, Some sd.2)
          else mret (true, Some d)
      | None => mret (true, None)
      end
  | _ => mret (true, mdata m)
  end.

(** [if (status?.stage === "complete" || status?.stage === "error")] *)
Definition forget_event (m : Message) : M unit :=
  when (terminal_stage (stage <$> mstatus m))
    (x ← get_vars;
     modify_regs (λ r, set_event_callbacks
                         (delete (id_key (event_id x)) (event_callbacks r)) r) ;;
     modify_regs (λ r, set_pending_diff_streams
                         (delete (id_key (event_id x)) (pending_diff_streams r)) r)).

(** The body of the [try] of the frame callback. *)
Definition callback_body (c : Consts) (_data : Frame) : M unit :=
  m ← lift (handle_message _data None);
  if decide (mtype m = t_heartbeat) then mret tt else
  '(go_on, data) ← callback_chain c m;
  if (go_on : bool) then
    data_tail c m data (mret tt) ;;
    forget_event m
  else mret tt.

Definition callback (c : Consts) (_data : Frame) : M unit :=
  try_catch (callback_body c _data)
    (λ e,
      emit (ConsoleError "Unexpected client exception") ;;
      fire_event (EStatus (mk_status c Failed true (Some unexpected))) ;;
      when (bool_decide (protocol c ∈ closing_protocols))
        (x ← get_vars;
         emit (CloseStream (stream_open x) (event_stream x)) ;;
         match source c with
         | part_003 => modify_vars (set_stream_open false)
         | submit_ts => mret tt
         end)).

(** The POST of [/queue/join] without further headers. *)
Definition post_join (c : Consts) : M unit :=
  x ← get_vars;
  emit (PostData (root (config c) +:+ "/queue/join?" +:+ url_params (host c))
          (JObj (with_hash c x))).

(** In the second copy the POST is made in the [then] of
    [zerogpu_auth_promise]: at once when that promise is
    [Promise.resolve(null)], and otherwise only when the parent has
    answered [post_message] (see [zerogpu_reply]). *)
Definition start_mux (c : Consts) : M unit :=
  fire_event (EStatus (mk_status c Pending true None)) ;;
  match source c with
  | submit_ts => post_join c
  | part_003 =>
      if has_window (host c) then
        match dependency c with
        | Some d =>
            if zerogpu d && in_foreign_frame (host c)
               && truthy_str (space_id (config c))
            then emit (PostMessage "zerogpu-headers" (origin (host c)))
            else post_join c
        | None => throw (TypeError "dependency is undefined")
        end
      else throw (ReferenceError "window is not defined")
  end.

(** Whether a call asks the parent frame for the ZeroGPU headers. *)
Definition asks_parent (c : Consts) : bool :=
  match source c, dependency c with
  | part_003, Some d =>
      has_window (host c) && zerogpu d && in_foreign_frame (host c)
      && truthy_str (space_id (config c))
  | _, _ => false
  end.

(** The [then] of the ZeroGPU handshake: the parent has answered with
    [headers], and the join is POSTed with them. *)
Definition zerogpu_reply (c : Consts) (headers : Json) : M unit :=
  x ← get_vars;
  emit (PostDataWith (root (config c) +:+ "/queue/join?" +:+ url_params (host c))
          (JObj (with_hash c x)) headers).

(** [if (event_id in pending_stream_messages) { ... }]: hand the frames
    that arrived early to the callback, then drop the buffer.  An id that
    names a member of [Object.prototype] is [in] the object although
    nothing was buffered under it; what is read is then no array. *)
Definition drain (c : Consts) (key : string) : M unit :=
  r ← get_regs;
  if has_property key (pending_stream_messages r) then
    match pending_stream_messages r !! key with
    | Some msgs =>
        for_each (callback c) msgs ;;
        modify_regs (λ r, set_pending_stream_messages
                            (delete key (pending_stream_messages r)) r)
    | None =>
        throw (TypeError "pending_stream_messages[event_id].forEach is not a function")
    end
  else mret tt.

(** Register the callback, note the event as unclosed, open the stream.
    [submit.ts] registers the callback only [if (event_id)]. *)
Definition register (c : Consts) (eid : EventId) : M unit :=
  when (match source c with
        | submit_ts => truthy_str eid
        | part_003 => true
        end)
    (modify_regs (λ r, set_event_callbacks
                         (assign (key_of eid) (sub_id c) (event_callbacks r)) r)) ;;
  modify_regs (λ r, set_unclosed_events ({[eid]} ∪ unclosed_events r) r) ;;
  x ← get_vars;
  when (negb (stream_open x)) (emit (OpenStream (session_hash c))).

(** The reply to the POST of [/queue/join]: [[response, status]]. *)
Definition mux_reply (c : Consts) (response_event_id : EventId) (status : Z)
    : M unit :=
  if decide (status = 503%Z) then
    fire_event (EStatus (mk_status c Failed true (Some QUEUE_FULL_MSG)))
  else if negb (bool_decide (status = 200%Z)) then
    fire_event (EStatus (mk_status c Failed true (Some BROKEN_CONNECTION_MSG)))
  else
    modify_vars (set_event_id (Some response_event_id)) ;;
    drain c (key_of response_event_id) ;;
    register c response_event_id.

(** *** The continuation of [handle_blob]: choosing the transport *)

Record WsEnv := {
  ws_root : string;
  ws_space_id : option string;
  ws_jwt : option string
}.

Definition start (c : Consts) (_payload : option (list Json)) (w : WsEnv) : M unit :=
  modify_vars (set_payload (Some
    [("data", JArr (default [] _payload)); ("event_data", event_data c);
     ("fn_index", num (fn_index c)); ("trigger_id", trigger_id c)])) ;;
  if skip_queue (fn_index c) (config c) then start_direct c
  else if decide (protocol c = "ws") then
    start_ws c (ws_root w) (ws_space_id w) (ws_jwt w)
  else if decide (protocol c = "sse") then start_sse c
  else if bool_decide (protocol c ∈ mux_protocols) then start_mux c
  else mret tt.

(** *** The session: [Client] *)

Record Api := {
  named_endpoints : gmap string Json;
  unnamed_endpoints : gmap Z Json
}.

Record Client := {
  c_session_hash : string;       (* fixed by the field initialiser *)
  c_config : Config;
  c_hf_token : option string;
  c_api : option Api;
  c_api_map : gmap string Z;
  c_host : Host
}.

(** [!obj[key]]: the entry is missing or falsy.  Where the object has no
    entry of its own, a name that [Object.prototype] has a member for
    yields that member, a function or an object. *)
Definition falsy_at (key : string) (obj : gmap string Json) : bool :=
  match obj !! key with
  | Some j => negb (truthy j)
  | None => negb (bool_decide (key ∈ object_prototype_keys))
  end.

(** [endpoint.replace(/^\//, "")] *)
Definition strip_slash (s : string) : string :=
  match s with
  | String a rest => if bool_decide (String a EmptyString = "/") then rest else s
  | EmptyString => s
  end.

Definition resolve_fn_index (cl : Client) (endpoint : Z + string) : option Z :=
  match endpoint with
  | inl n => Some n
  | inr name => c_api_map cl !! strip_slash name
  end.

Definition get_endpoint_info (src : Source) (cl : Client) (api : Api)
    (endpoint : Z + string) : Res Z :=
  let fn_index := resolve_fn_index cl endpoint in
  match src with
  | submit_ts =>
      let no_api_info :=
        match endpoint with
        | inl n => negb (from_option truthy false (unnamed_endpoints api !! n))
        | inr name => falsy_at (trim name) (named_endpoints api)
        end in
      match fn_index with
      | Some i => if no_api_info then Throw (Error "Invalid endpoint") else Ok i
      | None => Throw (Error "Invalid endpoint")
      end
  | part_003 =>
      match fn_index with
      | Some i => Ok i
      | None => Throw (Error
          "There is no endpoint matching that name of fn_index matching that number.")
      end
  end.

Definition initial_vars : Vars :=
  {| payload := None; event_id := None; complete := None; listener_map := ∅;
     websocket := None; event_stream := None; sse_event_stream := None;
     stream_open := false; jwt := None |}.

(** The synchronous part of [submit]: the constants of the call.  [rnd] is
    what [Math.random().toString(36).substring(2)] yields, [id] names the
    closures the call creates. *)
Definition submit (src : Source) (cl : Client) (id : nat) (rnd : string)
    (endpoint : Z + string) (event_data trigger_id : Json) : Res Consts :=
  match c_api cl with
  | None => Throw (Error "No API found")
  | Some api =>
      match get_endpoint_info src cl api endpoint with
      | Throw e => Throw e
      | Ok _ =>
          match resolve_fn_index cl endpoint with
          | None => Throw (Error
              "There is no endpoint matching that name of fn_index matching that number.")
          | Some fn =>
              Ok {| sub_id := id; source := src; config := c_config cl;
                    hf_token := c_hf_token cl;
                    session_hash := match src with
                                    | submit_ts => rnd
                                    | part_003 => c_session_hash cl
                                    end;
                    fn_index := fn;
                    _endpoint := match endpoint with
                                 | inl _ => "/predict"
                                 | inr name => name
                                 end;
                    dependency :=
                      if bool_decide (0 ≤ fn)%Z
                      then dependencies (c_config cl) !! Z.to_nat fn
                      else None;
                    event_data := event_data; trigger_id := trigger_id;
                    host := c_host cl |}
          end
      end
  end.

(** [init]: connect to the heartbeat endpoint. *)
Definition heartbeat (cl : Client) : Res Handle * list Effect :=
  eventSource_factory (c_host cl)
    (root (c_config cl) +:+ "/heartbeat/" +:+ c_session_hash cl).

(** [component_server]: the body it POSTs. *)
Definition component_server (cl : Client) (component_id : Z) (fn_name : string)
    (data : Json) : Effect :=
  Fetch (root (c_config cl) +:+ "/component_server/")
    (JObj [("data", data); ("component_id", num component_id);
           ("fn_name", JStr fn_name); ("session_hash", JStr (c_session_hash cl))]).

(** *** Many calls on one set of registries *)

(** A world is the scope of one set of registries: those of the [Client]
    for the second copy, those of the call itself for [submit.ts]. *)
Record World := {
  subs : gmap nat (Consts * Vars);
  registries : Registries;
  wtrace : list Effect
}.

Definition empty_registries : Registries :=
  {| pending_stream_messages := ∅; pending_diff_streams := ∅;
     event_callbacks := ∅; unclosed_events := ∅ |}.

Definition empty_world : World :=
  {| subs := ∅; registries := empty_registries; wtrace := [] |}.

Definition log_uncaught {A} (r : Res A) : list Effect :=
  match r with Ok _ => [] | Throw e => [Uncaught e] end.

(** Run a closure of call [i]. *)
Definition run_in {A} (i : nat) (m : Consts → M A) (w : World) : World :=
  match subs w !! i with
  | Some (c, x) =>
      let r := m c {| vars := x; regs := registries w |} in
      {| subs := <[i := (c, vars (after r))]> (subs w);
         registries := regs (after r);
         wtrace := wtrace w ++ effects r ++ log_uncaught (outcome r) |}
  | None => w
  end.

(** Modelled from the spec: the frame handler that [open_stream] installs
    on the multiplex stream ([utils/stream.ts] is not part of the sources
    at hand).  "On each frame: parse; if frame has event_id and a callback
    is registered, invoke it; else append the frame to
    pendingStreamMessages[event_id]." *)
Definition stream_message (f : Frame) (w : World) : World :=
  let r := registries w in
  let buffer :=
    let key := key_of (frame_event_id f) in
    {| subs := subs w;
       registries := set_pending_stream_messages
         (<[key := default [] (pending_stream_messages r !! key) ++ [f]]>
            (pending_stream_messages r)) r;
       wtrace := wtrace w |} in
  match frame_event_id f with
  | Some e =>
      match event_callbacks r !! e with
      | Some i => run_in i (λ c, callback c f) w
      | None => buffer
      end
  | None => buffer
  end.

Inductive Action :=
| ASubmit (endpoint : Z + string) (event_data trigger_id : Json) (rnd : string)
| AHeartbeat
| AComponentServer (component_id : Z) (fn_name : string) (data : Json)
| AOn (i : nat) (t : EventType) (l : Listener)
| AOff (i : nat) (t : EventType) (l : Listener)
| ADestroy (i : nat)
| ACancel (i : nat) (reset_ok : bool)
| AStart (i : nat) (_payload : option (list Json)) (env : WsEnv)
| ADirectReply (i : nat) (r : Settled)
| AWsOpen (i : nat)
| AWsMessage (i : nat) (f : Frame)
| AWsClose (i : nat) (wasClean : bool)
| ASseMessage (i : nat) (f : Frame) (post_status : Z)
| AMuxReply (i : nat) (response_event_id : EventId) (status : Z)
| AStreamMessage (f : Frame)
| AZeroGpuReply (i : nat) (headers : Json).

(** The next free closure identity. *)
Definition fresh (w : World) : nat :=
  S (map_fold (λ k _ acc, k `max` acc) 0 (subs w)).

(** The socket opens: its readyState becomes 1 and the listeners of
    "open" run. *)
Definition ws_opened : M unit :=
  x ← get_vars;
  match websocket x with
  | Some ws =>
      modify_vars (set_websocket (Some {| readyState := 1; close_on_open := 0 |})) ;;
      for_each (λ _, emit WsClose) (replicate (close_on_open ws) tt)
  | None => mret tt
  end.

(** The handlers of a transport run only where there is a transport: a
    socket that was created, a real [EventSource]. *)
Definition on_socket (m : M unit) : M unit :=
  x ← get_vars;
  match websocket x with
  | Some _ => m
  | None => mret tt
  end.

Definition on_event_source (c : Consts) (m : M unit) : M unit :=
  x ← get_vars;
  match sse_handle c x with
  | Some EventSourceObj => m
  | _ => mret tt
  end.

(** In [submit.ts] the registries are local to the call: a second call has
    registries of its own and belongs to another world. *)
Definition other_scope (src : Source) (w : World) : bool :=
  match src with
  | submit_ts => negb (bool_decide (size (subs w) = 0))
  | part_003 => false
  end.

Definition act (src : Source) (cl : Client) (a : Action) (w : World) : World :=
  match a with
  | ASubmit endpoint event_data trigger_id rnd =>
      if other_scope src w then w else
      match submit src cl (fresh w) rnd endpoint event_data trigger_id with
      | Ok c =>
          {| subs := <[fresh w := (c, initial_vars)]> (subs w);
             registries := registries w; wtrace := wtrace w |}
      | Throw e =>
          {| subs := subs w; registries := registries w;
             wtrace := wtrace w ++ [ConsoleError "Submit function encountered an error:";
                                    Uncaught e] |}
      end
  | AHeartbeat =>
      let r := heartbeat cl in
      {| subs := subs w; registries := registries w;
         wtrace := wtrace w ++ r.2 ++ log_uncaught r.1 |}
  | AComponentServer component_id fn_name data =>
      {| subs := subs w; registries := registries w;
         wtrace := wtrace w ++ [component_server cl component_id fn_name data] |}
  | AOn i t l => run_in i (λ _, on t l) w
  | AOff i t l => run_in i (λ _, off t l) w
  | ADestroy i => run_in i (λ _, destroy) w
  | ACancel i reset_ok => run_in i (λ c, cancel c reset_ok) w
  | AStart i _payload env => run_in i (λ c, start c _payload env) w
  | ADirectReply i r => run_in i (λ c, direct_reply c r) w
  | AWsOpen i => run_in i (λ _, ws_opened) w
  | AWsMessage i f => run_in i (λ c, on_socket (ws_onmessage c f)) w
  | AWsClose i wasClean => run_in i (λ c, on_socket (ws_onclose c wasClean)) w
  | ASseMessage i f post_status =>
      run_in i (λ c, on_event_source c (sse_onmessage c f post_status)) w
  | AMuxReply i response_event_id status =>
      run_in i (λ c, mux_reply c response_event_id status) w
  | AStreamMessage f => stream_message f w
  | AZeroGpuReply i headers =>
      run_in i (λ c, when (asks_parent c) (zerogpu_reply c headers)) w
  end.

Definition run (src : Source) (cl : Client) (acts : list Action) (w : World) : World :=
  foldl (λ w a, act src cl a w) w acts.

(** *** Vocabulary for the statements *)

Definition listeners_of (t : EventType) (v : View) : list Listener :=
  default [] (listener_map (vars v) !! type_key t).

(** What one call of [fire_event] does: the event, then each listener of
    its type in registration order. *)
Definition dispatch (e : Event) (v : View) : list Effect :=
  Fired e :: ((λ l, Deliver l e) <$> listeners_of (event_type e) v).

Definition is_close_stream (e : Effect) : bool :=
  match e with CloseStream _ _ => true | _ => false end.

Definition is_fetch (e : Effect) : bool :=
  match e with Fetch _ _ => true | _ => false end.

(** A message to the server that carries the session hash [h]: in its
    body ([session_hash], or [hash] for the old WebSocket contract), or in
    its URL for the requests made through an [EventSource].  Effects that
    send nothing to the server carry it trivially. *)
Definition has_session_hash (h : string) (e : Effect) : Prop :=
  match e with
  | PostData _ body | PostDataWith _ body _ | Fetch _ body | WsSend body =>
      prop "session_hash" body = JStr h
  | WindowOnOpenSend body => prop "hash" body = JStr h
  | NewEventSource url =>
      ∃ pre, url = pre +:+ "session_hash=" +:+ h
             ∨ url = pre +:+ "/heartbeat/" +:+ h
  | OpenStream h' => h' = h
  | _ => True
  end.

(** The request [cancel] sends to [/reset] for a protocol other than ws:
    [{event_id}], and nothing else. *)
Definition is_event_reset (e : Effect) : Prop :=
  ∃ url id, e = Fetch (url +:+ "/reset") (JObj [("event_id", id)]).

Definition hash_or_event_reset (h : string) (e : Effect) : Prop :=
  has_session_hash h e ∨ is_event_reset e.

(** Running the frame callback over frames, one after the other: the
    view it leaves and what it did. *)
Fixpoint replay (c : Consts) (fs : list Frame) (v : View) : View * list Effect :=
  match fs with
  | [] => (v, [])
  | f :: rest =>
      let r := callback c f v in
      let r' := replay c rest (after r) in
      (r'.1, effects r ++ r'.2)
  end.

(** The frames of a run that arrive on the multiplex stream for the
    key [e], in order of arrival. *)
Definition arrivals (e : string) (acts : list Action) : list Frame :=
  omap (λ a, match a with
             | AStreamMessage f =>
                 if decide (key_of (frame_event_id f) = e) then Some f else None
             | _ => None
             end) acts.

(** Whether an action is a reply of [/queue/join] that assigns [e]. *)
Definition assigns (e : string) (a : Action) : bool :=
  match a with
  | AMuxReply _ eid st => bool_decide (key_of eid = e) && bool_decide (st = 200%Z)
  | _ => false
  end.

Definition buffer_of (e : string) (w : World) : list Frame :=
  default [] (pending_stream_messages (registries w) !! e).

(** A view after the callback has forgotten its event. *)
Definition forgotten (v : View) : View :=
  {| vars := vars v;
     regs := set_pending_diff_streams
               (delete (id_key (event_id (vars v)))
                  (pending_diff_streams (regs v)))
               (set_event_callbacks
                  (delete (id_key (event_id (vars v)))
                     (event_callbacks (regs v)))
                  (regs v)) |}.

(** [keeps I E m]: from a view that satisfies [I], the body [m] leaves a
    view that satisfies [I], and everything it does satisfies [E]. *)

Definition keeps (I : View → Prop) (E : Effect → Prop) {A} (m : M A) : Prop :=
  ∀ v, I v → I (after (m v)) ∧ Forall E (effects (m v)).

(** The invariant of a session of the copy bound to [Client]: every call
    reads the hash of the client, and everything sent so far carries it
    or is the [{event_id}] request to [/reset]. *)
Definition hash_inv (h : string) (w : World) : Prop :=
  Forall (hash_or_event_reset h) (wtrace w)
  ∧ ∀ i c x, subs w !! i = Some (c, x) → session_hash c = h.

(** Nothing is registered under [e], and the buffer of [e] is [P]. *)
Definition quiet (e : string) (P : option (list Frame)) (r : Registries) : Prop :=
  pending_stream_messages r !! e = P ∧ event_callbacks r !! e = None.

(** The variable [event_stream] of [submit] holds nothing. *)
Definition unassigned (v : View) : Prop := event_stream (vars v) = None.

(** Every call of a world is a call of [submit.ts] whose variable
    [event_stream] holds nothing. *)
Definition no_event_stream (w : World) : Prop :=
  ∀ i c x, subs w !! i = Some (c, x) →
           source c = submit_ts ∧ event_stream x = None.

(** The variables [stream_open] and [event_stream] of a call as [submit]
    declares them: false, and holding nothing. *)
Definition as_declared (v : View) : Prop :=
  stream_open (vars v) = false ∧ event_stream (vars v) = None.

(** Every call of a world that is not on the protocol sse has the two
    variables as they were declared. *)
Definition streams_as_declared (w : World) : Prop :=
  ∀ i c x, subs w !! i = Some (c, x) → protocol c ≠ "sse" →
           stream_open x = false ∧ event_stream x = None.

(** Two views that differ at most in the state of the WebSocket. *)
Definition same_but_socket (v0 v : View) : Prop :=
  complete (vars v) = complete (vars v0)
  ∧ event_id (vars v) = event_id (vars v0)
  ∧ payload (vars v) = payload (vars v0)
  ∧ listener_map (vars v) = listener_map (vars v0)
  ∧ event_stream (vars v) = event_stream (vars v0)
  ∧ sse_event_stream (vars v) = sse_event_stream (vars v0)
  ∧ stream_open (vars v) = stream_open (vars v0)
  ∧ jwt (vars v) = jwt (vars v0)
  ∧ regs v = regs v0.

Definition is_fired (e : Effect) : bool :=
  match e with Fired _ => true | _ => false end.

(** The synthetic status of [cancel]. *)
Definition cancelled (c : Consts) : Event :=
  EStatus (mk_status c Complete false None).

(** "Remove first matching listener by identity", in the words of the
    description of [off]. *)
Fixpoint remove_first (l : Listener) (ls : list Listener) : list Listener :=
  match ls with
  | [] => []
  | x :: rest => if decide (x = l) then rest else x :: remove_first l rest
  end.

(** "Once a submission has emitted a terminal status, no more events are
    emitted": in the events of a submission nothing follows a terminal
    status. *)
Definition nothing_after_terminal (evs : list Event) : Prop :=
  ∀ before t later,
    evs = before ++ t :: later → is_terminal t = true → later = [].

End Engine.

#[export] Existing Instance M_ret.
#[export] Existing Instance M_bind.

(** ** A concrete stand-in for the imports, used by the examples

    A frame is given by its event id and by what [handle_message] makes of
    it; [apply_diff_stream] keeps the full value; function 0 skips the
    queue. *)
Record SampleFrame := {
  sf_event_id : EventId;
  sf_message : Res Message
}.

Definition sample : Imports :=
  {| Frame := SampleFrame;
     frame_event_id := sf_event_id;
     handle_message := λ f _, sf_message f;
     apply_diff_stream := λ store key d, Ok (<[key := o_data d]> store, d);
     skip_queue := λ fn _, bool_decide (fn = 0%Z);
     semiver := None;
     trim := λ s, s;
     BROKEN_CONNECTION_MSG := "Connection errored out.";
     QUEUE_FULL_MSG := "This application is too busy. Keep trying!" |}.

Definition sample_host : Host :=
  {| has_window := true; has_EventSource := true; url_params := "";
     origin := "https://huggingface.co"; in_foreign_frame := false |}.

Definition sample_config (proto : string) : Config :=
  {| root := "http://localhost:7860"; path := ""; config_protocol := Some proto;
     version := Some "4.0.0"; space_id := None;
     dependencies := [{| zerogpu := false |}; {| zerogpu := false |}] |}.

Definition sample_client (proto : string) : Client :=
  {| c_session_hash := "s3ss10n"; c_config := sample_config proto;
     c_hf_token := None;
     c_api := Some {| named_endpoints := {["/predict" := JObj []; "/gen" := JObj []]};
                      unnamed_endpoints := {[0%Z := JObj []; 1%Z := JObj []]} |};
     c_api_map := {["predict" := 0%Z; "gen" := 1%Z]};
     c_host := sample_host |}.

Definition sample_ws_env : WsEnv :=
  {| ws_root := "ws://localhost:7860"; ws_space_id := None; ws_jwt := None |}.

Definition ok_status (s : Stage) : Status :=
  {| stage := s; queue := true; message := None; eta := None; broken := None;
     others := [] |}.

Definition output_of (d : Json) : Output :=
  {| o_data := d; o_log := JUndefined; o_level := JUndefined |}.

(** Frames of event [e], as [handle_message] classifies them. *)
Definition generating_frame (e : string) (d : Json) : SampleFrame :=
  {| sf_event_id := Some e;
     sf_message := Ok {| mtype := t_generating; mstatus := Some (ok_status Generating);
                         mdata := Some (output_of d) |} |}.

Definition completed_message (d : Json) : Message :=
  {| mtype := t_complete; mstatus := Some (ok_status Complete);
     mdata := Some (output_of d) |}.

Definition completed_frame (e : string) (d : Json) : SampleFrame :=
  {| sf_event_id := Some e; sf_message := Ok (completed_message d) |}.

Definition log_frame (e : string) (text : string) : SampleFrame :=
  {| sf_event_id := Some e;
     sf_message := Ok {| mtype := t_log; mstatus := None;
                         mdata := Some {| o_data := JUndefined; o_log := JStr text;
                                          o_level := JStr "info" |} |} |}.

Definition fresh_view : @View sample :=
  {| vars := initial_vars; regs := @empty_registries sample |}.

(** Listener 7 subscribed twice to [status], then listener 8 once. *)
Definition subscribed : @View sample :=
  after (on status_t 8 (after (on status_t 7 (after (on status_t 7 fresh_view))))).

(** A page without [EventSource] (Node without a polyfill). *)
Definition node_host : Host :=
  {| has_window := false; has_EventSource := false; url_params := "";
     origin := ""; in_foreign_frame := false |}.

(** A frame the interpreter chokes on. *)
Definition malformed_frame (e : string) : SampleFrame :=
  {| sf_event_id := Some e;
     sf_message := Throw (TypeError "Cannot use 'in' operator") |}.

(** The constants of a call of [/gen] (function 1) under a protocol. *)
Definition sample_consts (src : Source) (proto : string) : Consts :=
  {| sub_id := 1; source := src; config := sample_config proto; hf_token := None;
     session_hash := match src with submit_ts => "r4nd" | part_003 => "s3ss10n" end;
     fn_index := 1; _endpoint := "/gen";
     dependency := Some {| zerogpu := false |};
     event_data := JUndefined; trigger_id := JUndefined; host := sample_host |}.

(** A call of [/gen] with listener 7 on [status] and on [data], up to the
    reply of [/queue/join] that assigns the event id [e]. *)
Definition mux_session (e : EventId) : list (@Action sample) :=
  [ASubmit (inr "/gen") JUndefined JUndefined "r4nd";
   AOn 1 status_t 7;
   AOn 1 data_t 7;
   AStart 1 (Some [JStr "hi"]) sample_ws_env;
   AMuxReply 1 e 200].

(** The same call over a WebSocket, up to the opening of the socket. *)
Definition ws_session : list (@Action sample) :=
  [ASubmit (inr "/gen") JUndefined JUndefined "r4nd";
   AOn 1 status_t 7;
   AStart 1 (Some [JStr "hi"]) sample_ws_env;
   AWsOpen 1].

Definition play (src : Source) (proto : string) (acts : list (@Action sample))
    : @World sample :=
  run src (sample_client proto) acts empty_world.

(** The scenario of a cancellation in mid-stream: a generating frame, then
    [cancel], then another generating frame for the same event. *)
Definition cancelled_in_mid_stream : list (@Action sample) :=
  mux_session (Some "E1")
  ++ [@AStreamMessage sample (generating_frame "E1" (JArr [JStr "h"]));
      ACancel 1 true;
      @AStreamMessage sample (generating_frame "E1" (JArr [JStr "hi"]))].

(** On sse_v3: a frame the interpreter chokes on, then a generating frame
    for the same event. *)
Definition frame_after_exception : list (@Action sample) :=
  mux_session (Some "E1")
  ++ [@AStreamMessage sample (malformed_frame "E1");
      @AStreamMessage sample (generating_frame "E1" (JArr [JStr "hi"]))].

(** The scenario of the race: a frame for E2 arrives on the stream while
    the join of the call is still unanswered. *)
Definition frame_before_reply : list (@Action sample) :=
  [ASubmit (inr "/gen") JUndefined JUndefined "r4nd";
   AOn 1 data_t 7;
   AStart 1 (Some [JStr "hi"]) sample_ws_env;
   @AStreamMessage sample (generating_frame "E2" (JArr [num 1]))].

(** The race with a last frame: the frame that completes E2 arrives on
    the stream while the join of the call is still unanswered, and then
    the join is answered. *)
Definition last_frame_before_reply : list (@Action sample) :=
  [ASubmit (inr "/gen") JUndefined JUndefined "r4nd";
   AOn 1 status_t 7;
   AStart 1 (Some [JStr "hi"]) sample_ws_env;
   @AStreamMessage sample (completed_frame "E2" (JArr [JStr "hi!"]));
   AMuxReply 1 (Some "E2") 200].

(** The constants of a call of [/predict] (function 0, which skips the
    queue). *)
Definition predict_consts : Consts :=
  {| sub_id := 1; source := submit_ts; config := sample_config "sse_v1";
     hf_token := None; session_hash := "r4nd"; fn_index := 0;
     _endpoint := "/predict"; dependency := Some {| zerogpu := false |};
     event_data := JUndefined; trigger_id := JUndefined; host := sample_host |}.

(** ** More sample data *)

(** A client whose API lists the endpoints with [null] for an entry. *)
Definition null_entry_client : Client :=
  {| c_session_hash := "s3ss10n"; c_config := sample_config "sse_v1";
     c_hf_token := None;
     c_api := Some {| named_endpoints := {["/predict" := JNull; "/gen" := JNull]};
                      unnamed_endpoints := {[0%Z := JNull; 1%Z := JNull]} |};
     c_api_map := {["predict" := 0%Z; "gen" := 1%Z]};
     c_host := sample_host |}.

(** The frames of the opening exchange, and a frame classified [update]
    with a given stage. *)
Definition hash_frame : SampleFrame :=
  {| sf_event_id := None;
     sf_message := Ok {| mtype := t_hash; mstatus := None; mdata := None |} |}.

Definition send_data_frame (e : string) : SampleFrame :=
  {| sf_event_id := Some e;
     sf_message := Ok {| mtype := t_data; mstatus := None; mdata := None |} |}.

Definition update_message (s : Stage) : Message :=
  {| mtype := t_update; mstatus := Some (ok_status s); mdata := None |}.

Definition update_frame (e : string) (s : Stage) : SampleFrame :=
  {| sf_event_id := Some e; sf_message := Ok (update_message s) |}.

(** A call whose status was stashed by [cancel]. *)
Definition cancelled_view : @View sample :=
  {| vars := set_complete (Some ok_cancel_status) initial_vars;
     regs := @empty_registries sample |}.

(** A call whose WebSocket is still connecting. *)
Definition connecting : WebSocket := {| readyState := 0; close_on_open := 0 |}.

Definition connecting_view : @View sample :=
  {| vars := set_websocket (Some connecting) initial_vars;
     regs := @empty_registries sample |}.

(** A worker: no window, but [EventSource] is defined. *)
Definition worker_host : Host :=
  {| has_window := false; has_EventSource := true; url_params := "";
     origin := ""; in_foreign_frame := false |}.

(** The constants of a call of [/gen] made where there is neither a
    window nor [EventSource]. *)
Definition node_consts (src : Source) (proto : string) : Consts :=
  {| sub_id := 1; source := src; config := sample_config proto; hf_token := None;
     session_hash := match src with submit_ts => "r4nd" | part_003 => "s3ss10n" end;
     fn_index := 1; _endpoint := "/gen";
     dependency := Some {| zerogpu := false |};
     event_data := JUndefined; trigger_id := JUndefined; host := node_host |}.

(** A call of a ZeroGPU function of a space, from an embedded page. *)
Definition zerogpu_consts : Consts :=
  {| sub_id := 1; source := part_003;
     config := {| root := "http://localhost:7860"; path := "";
                  config_protocol := Some "sse_v3"; version := Some "4.0.0";
                  space_id := Some "user/space";
                  dependencies := [{| zerogpu := true |}; {| zerogpu := true |}] |};
     hf_token := None; session_hash := "s3ss10n"; fn_index := 1; _endpoint := "/gen";
     dependency := Some {| zerogpu := true |};
     event_data := JUndefined; trigger_id := JUndefined;
     host := {| has_window := true; has_EventSource := true; url_params := "";
                origin := "https://huggingface.co"; in_foreign_frame := true |} |}.

(** A call on the dedicated event stream, once the stream is open. *)
Definition sse_view : @View sample :=
  {| vars := set_sse_event_stream (Some EventSourceObj) initial_vars;
     regs := @empty_registries sample |}.

(** ** More of [Client]: [config_success] and [component_server] *)

(** [s.substring(n)] *)
Fixpoint string_drop (n : nat) (s : string) : string :=
  match n, s with
  | S n', String _ rest => string_drop n' rest
  | _, _ => s
  end.

(** [s.replace(pattern, replacement)] with a string for a pattern: the
    first occurrence of the pattern, if there is one, is replaced. *)
Fixpoint replace_first (pattern replacement s : string) : string :=
  if String.prefix pattern s
  then replacement +:+ string_drop (String.length pattern) s
  else match s with
       | EmptyString => EmptyString
       | String a rest => String a (replace_first pattern replacement rest)
       end.

(** What [config_success] stores in [this.config]: the configuration it
    is given, with the root rewritten when the page was loaded over
    https.  [location_protocol] is [window.location.protocol]. *)
Definition config_success (has_window : bool) (location_protocol : string)
    (_config : Config) : Config :=
  if has_window && bool_decide (location_protocol = "https:")
  then {| root := replace_first "http://" "https://" (root _config);
          path := path _config; config_protocol := config_protocol _config;
          version := version _config; space_id := space_id _config;
          dependencies := dependencies _config |}
  else _config.

(** An entry of [config.components]: its id and [props?.root_url]. *)
Record Component := {
  comp_id : Z;
  props_root_url : option string
}.

(** What the [fetch] of [component_server] resolves to. *)
Record FetchResponse := {
  resp_ok : bool;
  resp_statusText : string;
  resp_json : Json
}.

(** [component_server], in full: the headers of the request, the request
    itself, and what the call returns for a given response. *)
Definition component_server_fetch (cl : Client) (components : list Component)
    (component_id : Z) (fn_name : string) (data : Json)
    (response : FetchResponse)
    : Res Json * list (string * string) * list Effect :=
  let headers :=
    ("Content-Type", "application/json")
    :: (if truthy_str (c_hf_token cl)
        then [("Authorization", "Bearer " +:+ default "" (c_hf_token cl))]
        else []) in
  let component :=
    List.find (λ comp, bool_decide (comp_id comp = component_id)) components in
  let root_url :=
    if truthy_str (component ≫= props_root_url)
    then default "" (component ≫= props_root_url)
    else root (c_config cl) in
  let request :=
    Fetch (root_url +:+ "/component_server/")
      (JObj [("data", data); ("component_id", num component_id);
             ("fn_name", JStr fn_name);
             ("session_hash", JStr (c_session_hash cl))]) in
  (if resp_ok response then Ok (resp_json response)
   else Throw (Error ("Could not connect to component server: "
                      +:+ resp_statusText response)),
   headers, [request]).

(** ** More vocabulary *)

(** The listener map as [off(k, l)] leaves it. *)
Definition without (k : string) (l : Listener)
    (lm : gmap string (list Listener)) : gmap string (list Listener) :=
  <[k := filter (λ x, x ≠ l) (default [] (lm !! k))]> lm.

(** The listener map after [off(k, fn)] for each [fn] of [fns], in order. *)
Definition without_all (k : string) (fns : list Listener)
    (lm : gmap string (list Listener)) : gmap string (list Listener) :=
  foldl (λ lm fn, without k fn lm) lm fns.

(** The protocols [submit] has a transport for. *)
Definition known_protocols : list string := "ws" :: "sse" :: mux_protocols.

(** The [endpoint] and the [fn_index] an event carries. *)
Definition event_endpoint (e : Event) : string :=
  match e with
  | EStatus s => ev_endpoint s
  | EData d => de_endpoint d
  | ELog l => le_endpoint l
  end.

Definition event_fn_index (e : Event) : Z :=
  match e with
  | EStatus s => ev_fn_index s
  | EData d => de_fn_index d
  | ELog l => le_fn_index l
  end.

(** An event, fired or handed to a listener, that names the endpoint and
    the function of the call. *)
Definition names_the_call (c : Consts) (x : Effect) : Prop :=
  match x with
  | Fired e | Deliver _ e =>
      event_endpoint e = _endpoint c ∧ event_fn_index e = fn_index c
  | _ => True
  end.

Section Vocabulary.
Context `{Imports}.

(** The entry [get_endpoint_info] reads for an endpoint:
    [api.unnamed_endpoints[fn_index]] or
    [api.named_endpoints[endpoint.trim()]]. *)
Definition api_info_of (api : Api) (endpoint : Z + string) : option Json :=
  match endpoint with
  | inl n => unnamed_endpoints api !! n
  | inr name => named_endpoints api !! trim name
  end.

(** Names that yield a member of [Object.prototype] where the object has
    no entry of its own. *)
Definition names_a_prototype_member (endpoint : Z + string) : bool :=
  match endpoint with
  | inl _ => false
  | inr name => bool_decide (trim name ∈ object_prototype_keys)
  end.

(** The functions one call of [submit] creates: those of the handle it
    returns, and those it installs as handlers and continuations. *)
Inductive Closure :=
| c_on (t : EventType) (l : Listener)
| c_off (t : EventType) (l : Listener)
| c_destroy
| c_cancel (reset_ok : bool)
| c_start (_payload : option (list Json)) (env : WsEnv)
| c_direct_reply (r : Settled)
| c_ws_onmessage (f : Frame)
| c_ws_onclose (wasClean : bool)
| c_sse_onmessage (f : Frame) (post_status : Z)
| c_callback (f : Frame)
| c_mux_reply (response_event_id : EventId) (status : Z)
| c_zerogpu_reply (headers : Json).

Definition body (c : Consts) (k : Closure) : M unit :=
  match k with
  | c_on t l => on t l
  | c_off t l => off t l
  | c_destroy => destroy
  | c_cancel reset_ok => cancel c reset_ok
  | c_start _payload env => start c _payload env
  | c_direct_reply r => direct_reply c r
  | c_ws_onmessage f => ws_onmessage c f
  | c_ws_onclose wasClean => ws_onclose c wasClean
  | c_sse_onmessage f post_status => sse_onmessage c f post_status
  | c_callback f => callback c f
  | c_mux_reply response_event_id status => mux_reply c response_event_id status
  | c_zerogpu_reply headers => zerogpu_reply c headers
  end.

(** Every event id under which a callback is registered is noted as
    unclosed. *)
Definition registered_are_unclosed (r : Registries) : Prop :=
  ∀ k i, event_callbacks r !! k = Some i →
         ∃ eid, eid ∈ unclosed_events r ∧ key_of eid = k.

(** The pending status a call announces itself with. *)
Definition pending (c : Consts) : Event :=
  EStatus (mk_status c Pending (negb (skip_queue (fn_index c) (config c))) None).

(** The payload [submit] builds once [handle_blob] has resolved. *)
Definition payload_of (c : Consts) (_payload : option (list Json))
    : list (string * Json) :=
  [("data", JArr (default [] _payload)); ("event_data", event_data c);
   ("fn_index", num (fn_index c)); ("trigger_id", trigger_id c)].

End Vocabulary.

Section Facts.
Context `{Imports}.

(** ** Basic facts about the monad and about [fire_event] *)

Lemma bind_eq {A B} (m : M A) (k : A → M B) v :
  (m ≫= k) v = match m v with
               | (Ok a, v', es) =>
                   match k a v' with (r, v'', es') => (r, v'', es ++ es') end
               | (Throw e, v', es) => (Throw e, v', es)
               end.
Proof. reflexivity. Qed.

Lemma for_each_emit {A} (g : A → Effect) (xs : list A) v :
  for_each (λ x, emit (g x)) xs v = (Ok tt, v, g <$> xs).
Proof.
  induction xs as [|x xs IH]; simpl; [done|].
  rewrite bind_eq. unfold emit at 1. by rewrite IH.
Qed.

Lemma fire_event_eq e v : fire_event e v = (Ok tt, v, dispatch e v).
Proof.
  unfold fire_event. rewrite bind_eq. unfold get_vars at 1.
  rewrite bind_eq. unfold emit at 1.
  by rewrite for_each_emit.
Qed.

Lemma fired_app tr tr' : fired (tr ++ tr') = fired tr ++ fired tr'.
Proof. unfold fired. apply omap_app. Qed.

Lemma fired_deliveries e (ls : list Listener) :
  fired ((λ l, Deliver l e) <$> ls) = [].
Proof. induction ls; simpl; auto. Qed.

Lemma fired_dispatch e v : fired (dispatch e v) = [e].
Proof.
  unfold dispatch. change (fired (Fired e :: ?l)) with (e :: fired l).
  by rewrite fired_deliveries.
Qed.

(** One step of symbolic execution of a closure body. *)
Ltac mstep :=
  first
    [ rewrite bind_eq
    | rewrite fire_event_eq
    | progress cbn [fst snd outcome after effects]
    | progress unfold get_vars, get_regs, modify_vars, modify_regs, emit,
        throw, lift, when, io, mret, M_ret, ret ].
Ltac mrun := repeat mstep.

(** ** Invariants of closure bodies *)

Section Keeps.
Variable I : View → Prop.
Variable E : Effect → Prop.

Lemma keeps_ret {A} (a : A) : keeps I E (mret a).
Proof. intros v Hv. by split. Qed.

Lemma keeps_throw {A} e : keeps I E (@throw _ A e).
Proof. intros v Hv. by split. Qed.

Lemma keeps_lift {A} (r : Res A) : keeps I E (lift r).
Proof. intros v Hv. by split. Qed.

Lemma keeps_get_vars : keeps I E get_vars.
Proof. intros v Hv. by split. Qed.

Lemma keeps_get_regs : keeps I E get_regs.
Proof. intros v Hv. by split. Qed.

Lemma keeps_emit e : E e → keeps I E (emit e).
Proof. intros He v Hv. split; [done|]. by constructor. Qed.

Lemma keeps_io {A} (r : Res A * list Effect) : Forall E r.2 → keeps I E (io r).
Proof. intros He v Hv. by split. Qed.

Lemma keeps_bind {A B} (m : M A) (k : A → M B) :
  keeps I E m → (∀ a, keeps I E (k a)) → keeps I E (m ≫= k).
Proof.
  intros Hm Hk v Hv. rewrite bind_eq.
  destruct (Hm v Hv) as [HI HE].
  destruct (m v) as [[[a|e] v'] es]; simpl in *; [|done].
  destruct (Hk a v' HI) as [HI' HE'].
  destruct (k a v') as [[r v''] es']; simpl in *.
  split; [done|]. by apply Forall_app.
Qed.

(** The same, when the continuation needs to know what [m] yields. *)
Lemma keeps_bind_yields {A B} (Q : A → Prop) (m : M A) (k : A → M B) :
  keeps I E m → (∀ v a, outcome (m v) = Ok a → Q a) →
  (∀ a, Q a → keeps I E (k a)) → keeps I E (m ≫= k).
Proof.
  intros Hm HQ Hk v Hv. rewrite bind_eq.
  destruct (Hm v Hv) as [HI HE]. specialize (HQ v).
  destruct (m v) as [[[a|e] v'] es]; simpl in *; [|done].
  destruct (Hk a (HQ a eq_refl) v' HI) as [HI' HE'].
  destruct (k a v') as [[r v''] es']; simpl in *.
  split; [done|]. by apply Forall_app.
Qed.

Lemma keeps_try_catch {A} (m : M A) (h : Exn → M A) :
  keeps I E m → (∀ e, keeps I E (h e)) → keeps I E (try_catch m h).
Proof.
  intros Hm Hh v Hv. unfold try_catch.
  destruct (Hm v Hv) as [HI HE].
  destruct (m v) as [[[a|e] v'] es]; simpl in *; [done|].
  destruct (Hh e v' HI) as [HI' HE'].
  destruct (h e v') as [[r v''] es']; simpl in *.
  split; [done|]. by apply Forall_app.
Qed.

Lemma keeps_when (b : bool) m : keeps I E m → keeps I E (when b m).
Proof. destruct b; [done|]. intros _. apply keeps_ret. Qed.

Lemma keeps_for_each {A} (f : A → M unit) xs :
  (∀ x, keeps I E (f x)) → keeps I E (for_each f xs).
Proof.
  intros Hf. induction xs as [|x xs IH]; simpl.
  - apply keeps_ret.
  - apply keeps_bind; [apply Hf | intros _; apply IH].
Qed.

Lemma keeps_modify_vars f :
  (∀ v, I v → I {| vars := f (vars v); regs := regs v |}) →
  keeps I E (modify_vars f).
Proof. intros Hf v Hv. split; [by apply Hf | done]. Qed.

Lemma keeps_modify_regs f :
  (∀ v, I v → I {| vars := vars v; regs := f (regs v) |}) →
  keeps I E (modify_regs f).
Proof. intros Hf v Hv. split; [by apply Hf | done]. Qed.

Lemma keeps_fire_event e :
  E (Fired e) → (∀ l, E (Deliver l e)) → keeps I E (fire_event e).
Proof.
  intros HF HD v Hv. rewrite fire_event_eq. split; [done|].
  unfold dispatch; simpl. constructor; [done|].
  apply Forall_fmap, Forall_forall. intros l _. apply HD.
Qed.
Lemma keeps_on_socket m : keeps I E m → keeps I E (on_socket m).
Proof.
  intros Hm. unfold on_socket. apply keeps_bind; [apply keeps_get_vars|].
  intros x. destruct (websocket x); [done|apply keeps_ret].
Qed.

Lemma keeps_on_event_source c m :
  keeps I E m → keeps I E (on_event_source c m).
Proof.
  intros Hm. unfold on_event_source. apply keeps_bind; [apply keeps_get_vars|].
  intros x. destruct (sse_handle c x) as [[]|]; try done; apply keeps_ret.
Qed.
End Keeps.

Ltac keeps_step :=
  lazymatch goal with
  | |- keeps _ _ (_ ≫= _) => apply keeps_bind; [|intros ?]
  | |- keeps _ _ (mret _) => apply keeps_ret
  | |- keeps _ _ (throw _) => apply keeps_throw
  | |- keeps _ _ (lift _) => apply keeps_lift
  | |- keeps _ _ get_vars => apply keeps_get_vars
  | |- keeps _ _ get_regs => apply keeps_get_regs
  | |- keeps _ _ (when _ _) => apply keeps_when
  | |- keeps _ _ (for_each _ _) => apply keeps_for_each; intros ?
  | |- keeps _ _ (try_catch _ _) => apply keeps_try_catch; [|intros ?]
  | |- keeps _ _ (fire_event _) => apply keeps_fire_event; [|intros ?]
  | |- keeps _ _ (emit _) => apply keeps_emit
  | |- keeps _ _ (io _) => apply keeps_io
  | |- keeps _ _ (on_socket _) => apply keeps_on_socket
  | |- keeps _ _ (on_event_source _ _) => apply keeps_on_event_source
  | |- keeps _ _ (modify_vars _) => apply keeps_modify_vars; intros ? ?
  | |- keeps _ _ (modify_regs _) => apply keeps_modify_regs; intros ? ?
  | |- keeps _ _ (match ?x with _ => _ end) => destruct x eqn:?
  end.
Ltac keeps_auto := repeat keeps_step.

Lemma fired_none es : Forall (λ e, is_fired e = false) es → fired es = [].
Proof.
  induction 1 as [|e es He _ IH]; [done|].
  destruct e; try done; exact IH.
Qed.

(** ** Reading the session hash off a body *)

Lemma obj_get_snoc k v l :
  v ≠ JUndefined → obj_get k (l ++ [(k, v)]) = v.
Proof.
  intros Hv. induction l as [|[k' v'] l IH]; simpl.
  - rewrite decide_True by done. done.
  - rewrite IH. by destruct v.
Qed.

Lemma obj_get_snoc_ne k k' v l :
  k' ≠ k → obj_get k (l ++ [(k', v)]) = obj_get k l.
Proof.
  intros Hk. induction l as [|[k'' v''] l IH]; simpl.
  - by rewrite decide_False.
  - by rewrite IH.
Qed.

Lemma with_hash_carries c x :
  prop "session_hash" (JObj (with_hash c x)) = JStr (session_hash c).
Proof. unfold with_hash; simpl. by apply obj_get_snoc. Qed.

(** ** The direct transport *)

(** C2.  A call whose function skips the queue announces itself with a
    pending status (queue false) and POSTs to [/run].  A reply with HTTP
    200 fires the data event carrying [output.data] and then the status
    complete, queue false, with [eta = output.average_duration]; any other
    status code fires the status error with message [output.error]; a
    rejection fires the status error with the message of the exception.
    Every event names the endpoint and the function index of the call;
    the data event of the copy bound to [Client] also carries the
    [event_data] and the [trigger_id] of the call. *)
Theorem direct_transport c p env v
    (Hskip : skip_queue (fn_index c) (config c) = true) :
  let r0 := start c p env v in
  outcome r0 = Ok tt
  ∧ fired (effects r0) =
      [EStatus {| ev_stage := Some Pending; ev_queue := false;
                  ev_message := None; ev_eta := None;
                  ev_broken := None; ev_others := [];
                  ev_endpoint := _endpoint c;
                  ev_fn_index := fn_index c |}]
  ∧ (∃ body,
       last (effects r0) =
         Some (PostData (root (config c) +:+ "/run" +:+
                         (if starts_with_slash (_endpoint c) then _endpoint c
                          else "/" +:+ _endpoint c) +:+ query c) body)
       ∧ prop "session_hash" body = JStr (session_hash c))
  ∧ (∀ output code,
       let r := direct_reply c (Resolved output code) (after r0) in
       outcome r = Ok tt
       ∧ fired (effects r) =
           if decide (code = 200%Z) then
             [EData {| de_data := out_data output;
                       de_endpoint := _endpoint c;
                       de_fn_index := fn_index c;
                       de_event_data := match source c with
                                        | part_003 => event_data c
                                        | submit_ts => JUndefined
                                        end;
                       de_trigger_id := match source c with
                                        | part_003 => trigger_id c
                                        | submit_ts => JUndefined
                                        end |};
              EStatus {| ev_stage := Some Complete; ev_queue := false;
                         ev_message := None;
                         ev_eta := average_duration output;
                         ev_broken := None; ev_others := [];
                         ev_endpoint := _endpoint c;
                         ev_fn_index := fn_index c |}]
           else
             [EStatus {| ev_stage := Some Failed; ev_queue := false;
                         ev_message := out_error output;
                         ev_eta := None;
                         ev_broken := None; ev_others := [];
                         ev_endpoint := _endpoint c;
                         ev_fn_index := fn_index c |}])
  ∧ (∀ msg,
       let r := direct_reply c (Rejected msg) (after r0) in
       outcome r = Ok tt
       ∧ fired (effects r) =
           [EStatus {| ev_stage := Some Failed; ev_queue := false;
                       ev_message := Some msg;
                       ev_eta := None;
                       ev_broken := None; ev_others := [];
                       ev_endpoint := _endpoint c;
                       ev_fn_index := fn_index c |}]).
Proof.
  intros r0. subst r0.
  unfold start, start_direct. rewrite Hskip.
  mrun. split; [done|]. split.
  { rewrite !fired_app, fired_dispatch. done. }
  split.
  { eexists. split; [apply last_snoc|]. apply with_hash_carries. }
  split.
  - intros output code. unfold direct_reply. case_decide; mrun.
    + split; [done|]. by rewrite !fired_app, !fired_dispatch.
    + split; [done|]. by rewrite fired_dispatch.
  - intros msg. unfold direct_reply. mrun. split; [done|].
    by rewrite fired_dispatch.
Qed.

(** ** Listeners *)

#[local] Instance type_key_inj : Inj (=) (=) type_key.
Proof. intros [] [] ?; simplify_eq/=; done. Qed.

Lemma listeners_of_insert t t' ls v :
  listeners_of t'
    {| vars := set_listener_map (<[type_key t := ls]> (listener_map (vars v))) (vars v);
       regs := regs v |}
  = if decide (t' = t) then ls else listeners_of t' v.
Proof.
  unfold listeners_of; simpl. case_decide as Ht.
  - subst. by rewrite lookup_insert_eq.
  - rewrite lookup_insert_ne; [done|]. intros Hk. by apply (inj type_key) in Hk.
Qed.

(** C9, as the code has it.  [off(type, listener)] removes every listener
    registered under [type] that is identical to the given one: an event
    of that type fired afterwards reaches the remaining listeners of the
    type, in their order of registration, and the given listener not at
    all; the listeners of the other types are untouched. *)
Theorem off_removes_every_match t l v e :
  let r := off t l v in
  outcome r = Ok tt
  ∧ effects r = []
  ∧ regs (after r) = regs v
  ∧ (l ∉ listeners_of t (after r))
  ∧ dispatch e (after r) =
      Fired e :: ((λ x, Deliver x e) <$>
        (if decide (event_type e = t)
         then filter (λ x, x ≠ l) (listeners_of t v)
         else listeners_of (event_type e) v)).
Proof.
  intros r. subst r. unfold off, off_key. mrun.
  split; [done|]. split; [done|]. split; [done|].
  unfold dispatch. rewrite !listeners_of_insert.
  split.
  - rewrite decide_True by done. intros Hin.
    apply list_elem_of_filter in Hin as [Hne _]. done.
  - done.
Qed.

(** [on] appends: the new listener is served last. *)
Lemma on_appends t l v :
  listeners_of t (after (on t l v)) = listeners_of t v ++ [l].
Proof.
  unfold on. mrun. rewrite listeners_of_insert. by rewrite decide_True.
Qed.

(** ** [eventSource_factory] *)

Lemma eventSource_factory_eq h url :
  eventSource_factory h url =
    if has_EventSource h then (Ok EventSourceObj, [NewEventSource url])
    else (Ok NoopFn, []).
Proof.
  unfold eventSource_factory, new_EventSource, typeof_global.
  destruct (has_window h), (has_EventSource h); reflexivity.
Qed.

(** ** cancel *)

Lemma same_but_socket_refl v : same_but_socket v v.
Proof. by repeat split. Qed.

Lemma teardown_keeps c v0 :
  keeps (same_but_socket v0) (λ e, is_fired e = false) (teardown c).
Proof.
  unfold teardown. keeps_auto; done.
Qed.

Lemma post_reset_keeps c req ok v0 :
  keeps (same_but_socket v0) (λ e, is_fired e = false) (post_reset c req ok).
Proof. unfold post_reset. keeps_auto; done. Qed.

Lemma dispatch_same e v v' :
  listener_map (vars v') = listener_map (vars v) → dispatch e v' = dispatch e v.
Proof. intros Hl. unfold dispatch, listeners_of. by rewrite Hl. Qed.

(** What one call of [cancel] does: it stashes the synthetic status,
    dispatches it, and whatever follows (closing the transport, the POST
    of [/reset]) fires no event and changes nothing but the socket. *)
Lemma cancel_spec c ok v :
  let v1 := {| vars := set_complete (Some (ok_cancel_status)) (vars v);
               regs := regs v |} in
  let r := cancel c ok v in
  same_but_socket v1 (after r)
  ∧ ∃ rest, effects r = dispatch (cancelled c) v ++ rest ∧ fired rest = [].
Proof.
  intros v1 r. subst r. unfold cancel. mrun.
  fold ok_cancel_status. fold v1.
  change (EStatus (status_of ok_cancel_status c)) with (cancelled c).
  destruct (teardown_keeps c v1 v1 (same_but_socket_refl _)) as [Hs He].
  destruct (teardown c v1) as [[[req|e] v2] es]; simpl in *.
  - destruct (post_reset_keeps c req ok v1 v2 Hs) as [Hs' He'].
    destruct (post_reset c req ok v2) as [[r v3] es']; simpl in *.
    split; [done|]. exists (es ++ es'). split.
    + done.
    + apply fired_none, Forall_app. done.
  - split; [done|]. exists es. split.
    + done.
    + by apply fired_none.
Qed.

(** With its transport in place, [cancel] ends normally whether or not the
    reset succeeds: it stashes and fires the synthetic status, closes the
    transport (a socket that is still connecting is closed once it opens),
    and sends the reset; a failed reset is only warned about. *)
Lemma cancel_with_transport c ok v :
  let r := cancel c ok v in
  let closing :=
    if decide (protocol c = "ws") then
      match websocket (vars v) with
      | Some ws => Some (if decide (readyState ws = 0) then WsCloseOnOpen else WsClose)
      | None => None
      end
    else
      match event_stream (vars v) with
      | Some EventSourceObj => Some EsClose
      | _ => None
      end in
  let request :=
    if decide (protocol c = "ws")
    then JObj [("fn_index", num (fn_index c)); ("session_hash", JStr (session_hash c))]
    else JObj [("event_id", id_json (event_id (vars v)))] in
  complete (vars (after r)) = Some ok_cancel_status
  ∧ match closing with
    | Some close =>
        outcome r = Ok tt
        ∧ effects r = dispatch (cancelled c) v
                      ++ [close; Fetch (root (config c) +:+ "/reset") request]
                      ++ (if ok then [] else [ConsoleWarn "The `/reset` endpoint could not be called. Subsequent endpoint results may be unreliable."])
    | None =>
        (∃ what, outcome r = Throw (TypeError what))
        ∧ effects r = dispatch (cancelled c) v
    end.
Proof.
  intros r closing request. subst r closing request.
  unfold cancel, teardown, post_reset. mrun. cbn [vars websocket event_stream set_complete].
  change (EStatus (status_of ok_cancel_status c)) with (cancelled c).
  destruct (decide (protocol c = "ws")).
  - destruct (websocket (vars v)) as [ws|]; mrun.
    + destruct (decide (readyState ws = 0)), ok; mrun; simpl;
        rewrite ?app_nil_r; repeat split; try done; by rewrite <- app_assoc.
    + rewrite app_nil_r. repeat split; eauto.
  - destruct (event_stream (vars v)) as [[]|]; mrun.
    + destruct ok; mrun; simpl; repeat split; try done; by rewrite <- app_assoc.
    + rewrite app_nil_r. repeat split; eauto.
    + rewrite app_nil_r. repeat split; eauto.
Qed.

(** In [submit.ts] nothing ever assigns the variable [event_stream] of
    [submit]: the sse branch declares an [event_stream] of its own. *)
Lemma event_stream_stays_unassigned c :
  source c = submit_ts →
  (∀ t l, keeps unassigned (λ _, True) (on t l))
  ∧ (∀ t l, keeps unassigned (λ _, True) (off t l))
  ∧ keeps unassigned (λ _, True) destroy
  ∧ (∀ ok, keeps unassigned (λ _, True) (cancel c ok))
  ∧ (∀ p env, keeps unassigned (λ _, True) (start c p env))
  ∧ (∀ r, keeps unassigned (λ _, True) (direct_reply c r))
  ∧ keeps unassigned (λ _, True) ws_opened
  ∧ (∀ f, keeps unassigned (λ _, True) (ws_onmessage c f))
  ∧ (∀ b, keeps unassigned (λ _, True) (ws_onclose c b))
  ∧ (∀ f ps, keeps unassigned (λ _, True) (sse_onmessage c f ps))
  ∧ (∀ f, keeps unassigned (λ _, True) (callback c f))
  ∧ (∀ eid st, keeps unassigned (λ _, True) (mux_reply c eid st))
  ∧ (∀ h, keeps unassigned (λ _, True) (zerogpu_reply c h)).
Proof.
  intros Hsrc.
  unfold on, off, off_key, destroy, cancel, teardown, post_reset, start,
    start_direct, start_ws, start_sse, start_mux, post_join, zerogpu_reply, direct_reply, ws_opened,
    ws_onmessage, ws_onclose, sse_onmessage, data_tail, read_log, close_sse,
    close_handle, mux_reply, drain, register, callback, callback_body,
    callback_chain, forget_event, data_tail, read_log.
  repeat apply conj; intros; cbv zeta; keeps_auto;
    try done; try congruence; by apply Forall_true.
Qed.

Lemma run_in_no_event_stream {A} i (m : Consts → M A) w :
  (∀ c, source c = submit_ts → keeps unassigned (λ _, True) (m c)) →
  no_event_stream w → no_event_stream (run_in i m w).
Proof.
  intros Hm Hw. unfold run_in.
  destruct (subs w !! i) as [[c x]|] eqn:Hi; [|done].
  destruct (Hw _ _ _ Hi) as [Hsrc Hx].
  destruct (Hm c Hsrc {| vars := x; regs := registries w |} Hx) as [HI _].
  intros j c' x' Hj. simpl in Hj.
  destruct (decide (j = i)) as [->|Hne].
  - rewrite lookup_insert_eq in Hj. by injection Hj as <- <-.
  - rewrite lookup_insert_ne in Hj by done. eauto.
Qed.

Lemma act_no_event_stream cl a w :
  no_event_stream w → no_event_stream (act submit_ts cl a w).
Proof.
  intros Hw. destruct a; simpl;
    try (apply run_in_no_event_stream; [intros c Hc|done];
         destruct (event_stream_stays_unassigned c Hc)
           as (Hon & Hoff & Hd & Hca & Hst & Hdr & Hwo & Hwm & Hwc & Hss & Hcb & Hmr
               & Hz);
         first [ apply Hon | apply Hoff | apply Hd | apply Hca | apply Hst
               | apply Hdr | apply Hwo | apply keeps_on_socket, Hwm
               | apply keeps_on_socket, Hwc | apply Hmr
               | apply keeps_on_event_source, Hss | apply keeps_when, Hz ]).
  - destruct (negb _); [done|].
    destruct (submit _ _ _ _ _ _ _) as [c|e] eqn:Hs; [|done].
    intros j c' x' Hj. simpl in Hj.
    destruct (decide (j = fresh w)) as [->|Hne].
    + rewrite lookup_insert_eq in Hj. injection Hj as <- <-. split; [|done].
      unfold submit in Hs. repeat case_match; try done; by injection Hs as <-.
    + rewrite lookup_insert_ne in Hj by done. eauto.
  - done.
  - done.
  - unfold stream_message. repeat case_match; try done.
    apply run_in_no_event_stream; [|done]. intros c Hc.
    by apply (event_stream_stays_unassigned c Hc).
Qed.

Lemma run_no_event_stream cl acts w :
  no_event_stream w → no_event_stream (run submit_ts cl acts w).
Proof.
  revert w. induction acts as [|a acts IH]; intros w Hw; [done|].
  simpl. apply IH. by apply act_no_event_stream.
Qed.

(** So in [submit.ts] a call on any protocol but ws cannot be cancelled:
    whatever happened before, [cancel] fires the synthetic status and then
    throws on [event_stream.close()], before the request to [/reset]. *)
Lemma cancel_never_resets_in_submit_ts cl acts i c x ok :
  subs (run submit_ts cl acts empty_world) !! i = Some (c, x) →
  protocol c ≠ "ws" →
  let r := cancel c ok {| vars := x;
                          regs := registries (run submit_ts cl acts empty_world) |} in
  (∃ what, outcome r = Throw (TypeError what))
  ∧ filter is_fetch (effects r) = [].
Proof.
  intros Hi Hp r.
  assert (Hinit : no_event_stream empty_world).
  { intros j c' x' Hj. simpl in Hj. by rewrite lookup_empty in Hj. }
  destruct (run_no_event_stream cl acts _ Hinit _ _ _ Hi) as [_ Hx].
  pose proof (cancel_with_transport c ok
    {| vars := x; regs := registries (run submit_ts cl acts empty_world) |}) as Hc.
  cbv zeta in Hc. fold r in Hc. simpl in Hc.
  rewrite decide_False, Hx in Hc by done. destruct Hc as (_ & Hthrow & Heff).
  split; [done|]. rewrite Heff. unfold dispatch.
  rewrite filter_cons_False by (by intros []).
  induction (listeners_of _ _) as [|l ls IH]; [done|].
  simpl. by rewrite filter_cons_False by (by intros []).
Qed.

(** C5, as the code has it.  [cancel] is not silent when repeated: a
    second call fires the synthetic status (complete, queue false) once
    more, to every status listener.  What the second call leaves as the
    first left it is the state of the submission: the stashed status, the
    event id, the payload, the listeners, the event stream and the
    registries. *)
Theorem cancel_again c ok1 ok2 v :
  let r1 := cancel c ok1 v in
  let r2 := cancel c ok2 (after r1) in
  same_but_socket (after r1) (after r2)
  ∧ fired (effects r2) = [cancelled c]
  ∧ ∃ rest, effects r2 = dispatch (cancelled c) (after r1) ++ rest.
Proof.
  intros r1 r2.
  destruct (cancel_spec c ok1 v) as [H1 _]. fold r1 in H1.
  destruct (cancel_spec c ok2 (after r1)) as [H2 (rest & Heff & Hf)].
  fold r2 in H2, Heff.
  split; [|split].
  - unfold same_but_socket in *. simpl in H1, H2. destruct_and!.
    repeat split; congruence.
  - by rewrite Heff, fired_app, fired_dispatch, Hf.
  - eauto.
Qed.

(** ** Exceptions in the frame callback *)

Lemma closing_protocols_are c :
  protocol c ∈ closing_protocols ↔ protocol c = "sse_v2" ∨ protocol c = "sse_v2.1".
Proof.
  unfold closing_protocols. rewrite !elem_of_cons, elem_of_nil. tauto.
Qed.

(** When the handling of a frame by the sse-mux callback throws, the
    callback itself ends normally and, after what the handling had done,
    fires exactly one event: the status error with message "An Unexpected
    Error Occurred!", queue true, naming the endpoint and the function of
    the call.  Under sse_v2 and sse_v2.1 it then calls [close_stream]
    once, handing over its own [stream_open] and [event_stream]; under
    sse_v3 it does not call it. *)
Lemma callback_exception c f v e v' es
    (Hthrow : callback_body c f v = (Throw e, v', es)) :
  let r := callback c f v in
  outcome r = Ok tt
  ∧ ∃ tail,
      effects r = es ++ tail
      ∧ fired tail =
          [EStatus {| ev_stage := Some Failed; ev_queue := true;
                      ev_message := Some "An Unexpected Error Occurred!";
                      ev_eta := None; ev_broken := None; ev_others := [];
                      ev_endpoint := _endpoint c;
                      ev_fn_index := fn_index c |}]
      ∧ (protocol c = "sse_v2" ∨ protocol c = "sse_v2.1" →
           filter is_close_stream tail
           = [CloseStream (stream_open (vars v')) (event_stream (vars v'))])
      ∧ (protocol c = "sse_v3" → filter is_close_stream tail = []).
Proof.
  intros r. subst r. unfold callback, try_catch. rewrite Hthrow.
  mrun.
  set (ev := EStatus (mk_status c Failed true (Some unexpected))).
  assert (Hd : filter is_close_stream (dispatch ev v') = []).
  { unfold dispatch. rewrite filter_cons_False by (by intros []).
    induction (listeners_of (event_type ev) v') as [|l ls IH]; [done|].
    simpl. by rewrite filter_cons_False by (by intros []). }
  destruct (bool_decide (protocol c ∈ closing_protocols)) eqn:Hp.
  - apply bool_decide_eq_true, closing_protocols_are in Hp.
    assert (Hv3 : protocol c ≠ "sse_v3").
    { intros Hv3. rewrite Hv3 in Hp. by destruct Hp. }
    destruct (source c); mrun; (split; [done|]);
      eexists; (split; [reflexivity|]);
      rewrite !fired_app, fired_dispatch; (split; [done|]);
      rewrite !filter_app, Hd; (split; done).
  - apply bool_decide_eq_false in Hp.
    mrun. split; [done|].
    eexists. split; [reflexivity|].
    rewrite !fired_app, fired_dispatch. split; [done|].
    rewrite !filter_app, Hd. split; [|done].
    intros Hv. destruct Hp. by apply closing_protocols_are.
Qed.

(** Outside the protocol sse no function created by [submit] assigns
    [event_stream] or sets [stream_open] to true: [open_stream] is handed
    the value of [stream_open], not the variable. *)
Lemma stream_variables_stay_as_declared c :
  protocol c ≠ "sse" →
  (∀ k, keeps as_declared (λ _, True) (body c k))
  ∧ keeps as_declared (λ _, True) ws_opened
  ∧ (∀ f, keeps as_declared (λ _, True) (callback_body c f)).
Proof.
  intros Hp.
  assert (Hall : ∀ es : list Effect, Forall (λ _, True) es).
  { intros es. by apply Forall_true. }
  split; [intros k; destruct k; simpl|split; [|intros f]];
    unfold as_declared, on, off, off_key, destroy, cancel, teardown,
      post_reset, start, start_direct, start_ws, start_sse, start_mux,
      post_join, zerogpu_reply, direct_reply, ws_opened, ws_onmessage,
      ws_onclose, sse_onmessage, data_tail, read_log, close_sse, close_handle,
      mux_reply, drain, register, callback, callback_body, callback_chain,
      forget_event, data_tail, read_log;
    cbv zeta; keeps_auto; simpl; try done; by destruct_and!.
Qed.

Lemma run_in_streams_as_declared {A} i (m : Consts → M A) w :
  (∀ c, protocol c ≠ "sse" → keeps as_declared (λ _, True) (m c)) →
  streams_as_declared w → streams_as_declared (run_in i m w).
Proof.
  intros Hm Hw. unfold run_in.
  destruct (subs w !! i) as [[c x]|] eqn:Hi; [|done].
  intros j c' x' Hj Hp. simpl in Hj.
  destruct (decide (j = i)) as [->|Hne].
  - rewrite lookup_insert_eq in Hj. injection Hj as <- <-.
    by destruct (Hm c Hp {| vars := x; regs := registries w |} (Hw _ _ _ Hi Hp)).
  - rewrite lookup_insert_ne in Hj by done. eauto.
Qed.

Lemma act_streams_as_declared src cl a w :
  streams_as_declared w → streams_as_declared (act src cl a w).
Proof.
  intros Hw.
  destruct a; simpl;
    try (apply run_in_streams_as_declared; [intros c Hp|done];
         destruct (stream_variables_stay_as_declared c Hp) as (Hb & Hwo & _);
         first [ apply (Hb (c_on t l)) | apply (Hb (c_off t l))
               | apply (Hb c_destroy) | apply (Hb (c_cancel reset_ok))
               | apply (Hb (c_start _payload env))
               | apply (Hb (c_direct_reply r)) | apply Hwo
               | apply keeps_on_socket, (Hb (c_ws_onmessage f))
               | apply keeps_on_socket, (Hb (c_ws_onclose wasClean))
               | apply keeps_on_event_source, (Hb (c_sse_onmessage f post_status))
               | apply (Hb (c_mux_reply response_event_id status))
               | apply keeps_when, (Hb (c_zerogpu_reply headers)) ]).
  - destruct (other_scope src w); [done|].
    destruct (submit _ _ _ _ _ _ _) as [c|e] eqn:Hs; [|done].
    intros j c' x' Hj Hp. simpl in Hj.
    destruct (decide (j = fresh w)) as [->|Hne].
    + rewrite lookup_insert_eq in Hj. by injection Hj as <- <-.
    + rewrite lookup_insert_ne in Hj by done. eauto.
  - done.
  - done.
  - unfold stream_message. repeat case_match; try done.
    apply run_in_streams_as_declared; [|done]. intros c Hp.
    apply (proj1 (stream_variables_stay_as_declared c Hp) (c_callback f)).
Qed.

Lemma run_streams_as_declared src cl acts w :
  streams_as_declared w → streams_as_declared (run src cl acts w).
Proof.
  revert w. induction acts as [|a acts IH]; intros w Hw; [done|].
  simpl. apply IH. by apply act_streams_as_declared.
Qed.

(** So, whatever happened before, in either copy of [submit]: when the
    handling of a frame throws under sse_v2 or sse_v2.1, the one call of
    [close_stream] hands over the value false and no event stream, since
    the call never held the multiplex stream; the stream that
    [open_stream] opened is not reached by it. *)
Lemma exception_hands_over_no_stream src cl acts i c x f e v' es :
  subs (run src cl acts empty_world) !! i = Some (c, x) →
  protocol c = "sse_v2" ∨ protocol c = "sse_v2.1" →
  let v := {| vars := x; regs := registries (run src cl acts empty_world) |} in
  callback_body c f v = (Throw e, v', es) →
  ∃ tail,
    effects (callback c f v) = es ++ tail
    ∧ filter is_close_stream tail = [CloseStream false None].
Proof.
  intros Hi Hp v Hthrow.
  assert (Hsse : protocol c ≠ "sse").
  { intros Hs. rewrite Hs in Hp. by destruct Hp. }
  assert (Hinit : streams_as_declared empty_world).
  { intros j c' x' Hj. simpl in Hj. by rewrite lookup_empty in Hj. }
  pose proof (run_streams_as_declared src cl acts _ Hinit _ _ _ Hi Hsse) as Hx.
  destruct (stream_variables_stay_as_declared c Hsse) as (_ & _ & Hcb).
  destruct (Hcb f v Hx) as [[Ho He] _].
  rewrite Hthrow in Ho, He. unfold after in Ho, He. simpl in Ho, He.
  destruct (callback_exception c f v e v' es Hthrow) as (_ & tail & Heff & _ & Hc & _).
  exists tail. split; [done|]. rewrite (Hc Hp), Ho, He. done.
Qed.

(** ** [eventSource_factory], continued *)

(** C10.  [eventSource_factory] never throws: it always returns a value.
    Where the global [EventSource] is not defined it returns the no-op
    function and reaches nothing outside; so the heartbeat of [init]
    connects nowhere, and a stream opened through the factory (the [sse]
    protocol of the copy bound to [Client]) connects nowhere and, having
    no transport, is never handed a frame. *)
Theorem eventSource_factory_total h url
    (Hno : has_EventSource h = false) :
  (∀ h' url', ∃ handle, (eventSource_factory h' url').1 = Ok handle)
  ∧ eventSource_factory h url = (Ok NoopFn, [])
  ∧ (∀ cl, c_host cl = h → heartbeat cl = (Ok NoopFn, []))
  ∧ (∀ c v, source c = part_003 → host c = h →
       let r := start_sse c v in
       outcome r = Ok tt
       ∧ sse_handle c (vars (after r)) = Some NoopFn
       ∧ effects r = dispatch (EStatus (mk_status c Pending true None)) v)
  ∧ (∀ src cl w i c x f ps,
       subs w !! i = Some (c, x) → sse_handle c x = Some NoopFn →
       let w' := act src cl (ASseMessage i f ps) w in
       wtrace w' = wtrace w ∧ registries w' = registries w ∧ subs w' = subs w).
Proof.
  split; [|split; [|split; [|split]]].
  - intros h' url'. rewrite eventSource_factory_eq.
    destruct (has_EventSource h'); eauto.
  - by rewrite eventSource_factory_eq, Hno.
  - intros cl <-. unfold heartbeat. by rewrite eventSource_factory_eq, Hno.
  - intros c v Hsrc <-. unfold start_sse, sse_handle. rewrite Hsrc.
    mrun. rewrite eventSource_factory_eq, Hno. mrun.
    by rewrite !app_nil_r.
  - intros src cl w i c x f ps Hi Hh. simpl. unfold run_in, on_event_source.
    rewrite Hi. mrun. simpl. rewrite Hh. mrun. simpl.
    rewrite app_nil_r. split; [done|]. split; [done|].
    by apply insert_id.
Qed.

(** ** The session hash on the wire *)

Lemma append_assoc (a b d : string) : (a +:+ b) +:+ d = a +:+ b +:+ d.
Proof. induction a as [|ch a IH]; [done|]. exact (f_equal (String ch) IH). Qed.

Lemma has_hash_trivial h e :
  match e with
  | PostData _ _ | PostDataWith _ _ _ | Fetch _ _ | WsSend _ | WindowOnOpenSend _
  | NewEventSource _ | OpenStream _ => False
  | _ => True
  end → hash_or_event_reset h e.
Proof. intros He. left. by destruct e. Qed.

Ltac hash_side :=
  try (apply has_hash_trivial; exact I);
  try (left; simpl; first [apply with_hash_carries | reflexivity]);
  try (left; simpl; rewrite obj_get_snoc_ne by done; apply with_hash_carries);
  try done.

Lemma teardown_hash c :
  keeps (λ _, True) (hash_or_event_reset (session_hash c)) (teardown c).
Proof. unfold teardown. keeps_auto; hash_side. Qed.

Lemma teardown_yields c v req :
  outcome (teardown c v) = Ok req →
  prop "session_hash" req = JStr (session_hash c)
  ∨ ∃ id, req = JObj [("event_id", id)].
Proof.
  unfold teardown. mrun.
  destruct (decide (protocol c = "ws")).
  - destruct (websocket (vars v)) as [ws|]; [|mrun; done].
    destruct (decide (readyState ws = 0)); mrun; simpl;
      intros [= <-]; by left.
  - destruct (event_stream (vars v)) as [[]|]; mrun; simpl; try done.
    intros [= <-]. right. eauto.
Qed.

Lemma cancel_hash c ok :
  keeps (λ _, True) (hash_or_event_reset (session_hash c)) (cancel c ok).
Proof.
  unfold cancel. cbv zeta.
  apply keeps_bind; [keeps_auto; hash_side | intros _].
  apply keeps_bind; [keeps_auto; hash_side | intros _].
  eapply keeps_bind_yields; [apply teardown_hash | apply teardown_yields |].
  intros req Hreq. unfold post_reset. keeps_auto; hash_side.
  destruct Hreq as [Hh|[id ->]]; [by left|right]. by eexists _, _.
Qed.

Lemma listeners_hash h :
  ∀ t l, keeps (λ _, True) (hash_or_event_reset h) (on t l)
         ∧ keeps (λ _, True) (hash_or_event_reset h) (off t l)
         ∧ keeps (λ _, True) (hash_or_event_reset h) destroy.
Proof.
  intros t l. unfold on, off, destroy, off_key.
  split; [|split]; keeps_auto; hash_side.
Qed.

Lemma data_tail_hash c m d close :
  keeps (λ _, True) (hash_or_event_reset (session_hash c)) close →
  keeps (λ _, True) (hash_or_event_reset (session_hash c)) (data_tail c m d close).
Proof. intros Hc. unfold data_tail. keeps_auto; hash_side. Qed.

Lemma callback_hash c f :
  keeps (λ _, True) (hash_or_event_reset (session_hash c)) (callback c f).
Proof.
  unfold callback, callback_body, callback_chain, forget_event, read_log.
  keeps_auto; try apply data_tail_hash; keeps_auto; hash_side.
Qed.

Lemma direct_reply_hash c r :
  keeps (λ _, True) (hash_or_event_reset (session_hash c)) (direct_reply c r).
Proof. unfold direct_reply. keeps_auto; hash_side. Qed.

Lemma ws_onmessage_hash c f :
  keeps (λ _, True) (hash_or_event_reset (session_hash c)) (ws_onmessage c f).
Proof.
  unfold ws_onmessage, read_log.
  keeps_auto; try apply data_tail_hash; keeps_auto; hash_side.
Qed.

Lemma ws_events_hash h c wasClean :
  keeps (λ _, True) (hash_or_event_reset h) (ws_onclose c wasClean)
  ∧ keeps (λ _, True) (hash_or_event_reset h) ws_opened.
Proof.
  unfold ws_onclose, ws_opened. split; keeps_auto; hash_side.
Qed.

Lemma sse_hash c f ps :
  keeps (λ _, True) (hash_or_event_reset (session_hash c)) (sse_onmessage c f ps).
Proof.
  unfold sse_onmessage, read_log, close_sse, close_handle.
  keeps_auto; try apply data_tail_hash; keeps_auto; hash_side.
Qed.

Lemma new_EventSource_hash h host0 url :
  (∃ pre, url = pre +:+ "session_hash=" +:+ h) →
  Forall (hash_or_event_reset h) (new_EventSource host0 url).2
  ∧ Forall (hash_or_event_reset h) (eventSource_factory host0 url).2.
Proof.
  intros [pre ->]. rewrite eventSource_factory_eq. unfold new_EventSource.
  destruct (has_EventSource host0); simpl; split; try done;
    (constructor; [|done]); left; exists pre; by left.
Qed.

Lemma sse_url_hash (a b d e h : string) :
  a +:+ b +:+ d +:+ ("fn_index=" +:+ e +:+ "&session_hash=" +:+ h)
  = (a +:+ b +:+ d +:+ "fn_index=" +:+ e +:+ "&") +:+ "session_hash=" +:+ h.
Proof. rewrite !append_assoc. reflexivity. Qed.

Lemma start_hash c p env :
  keeps (λ _, True) (hash_or_event_reset (session_hash c)) (start c p env).
Proof.
  unfold start, start_direct, start_ws, start_sse, start_mux, post_join.
  keeps_auto; hash_side.
  - apply new_EventSource_hash. eexists. apply sse_url_hash.
  - apply new_EventSource_hash. eexists. apply sse_url_hash.
Qed.

Lemma mux_reply_hash c eid st :
  keeps (λ _, True) (hash_or_event_reset (session_hash c)) (mux_reply c eid st).
Proof.
  unfold mux_reply, drain, register. keeps_auto;
    try lazymatch goal with
        | |- keeps _ _ (callback _ _) => apply callback_hash
        end;
    hash_side.
Qed.

Lemma run_in_hash {A} h i (m : Consts → M A) w :
  (∀ c, session_hash c = h → keeps (λ _, True) (hash_or_event_reset h) (m c)) →
  hash_inv h w → hash_inv h (run_in i m w).
Proof.
  intros Hm [Htr Hsubs]. unfold run_in.
  destruct (subs w !! i) as [[c x]|] eqn:Hi; [|done].
  destruct (Hm c (Hsubs _ _ _ Hi) {| vars := x; regs := registries w |} I)
    as [_ HE].
  split; simpl.
  - apply Forall_app. split; [done|]. apply Forall_app. split; [done|].
    destruct (outcome _); [done|]. constructor; [|done]. by left.
  - intros j c' x' Hj. destruct (decide (j = i)) as [->|Hne].
    + rewrite lookup_insert_eq in Hj. injection Hj as <- _. eauto.
    + rewrite lookup_insert_ne in Hj by done. eauto.
Qed.

Lemma submit_reads_the_client_hash cl id rnd endpoint event_data trigger_id c :
  submit part_003 cl id rnd endpoint event_data trigger_id = Ok c →
  session_hash c = c_session_hash cl.
Proof.
  unfold submit. repeat case_match; try done; by intros [= <-].
Qed.

Lemma act_hash cl a w :
  hash_inv (c_session_hash cl) w → hash_inv (c_session_hash cl) (act part_003 cl a w).
Proof.
  intros Hw. destruct a; simpl;
    try (apply run_in_hash; [intros c Hc; rewrite <- Hc|done]).
  - destruct Hw as [Htr Hsubs].
    destruct (submit _ _ _ _ _ _ _) as [c|e] eqn:Hs; split; simpl; try done.
    + intros j c' x' Hj. destruct (decide (j = fresh w)) as [->|Hne].
      * rewrite lookup_insert_eq in Hj. injection Hj as <- _.
        by eapply submit_reads_the_client_hash.
      * rewrite lookup_insert_ne in Hj by done. eauto.
    + apply Forall_app. split; [done|]. repeat constructor; by left.
  - destruct Hw as [Htr Hsubs]. split; [|done]. simpl.
    apply Forall_app. split; [done|]. apply Forall_app. split.
    + unfold heartbeat. rewrite eventSource_factory_eq.
      destruct (has_EventSource _); simpl; [|done].
      constructor; [|done]. left. simpl. eexists. by right.
    + destruct (heartbeat cl).1; [done|]. constructor; [|done]. by left.
  - destruct Hw as [Htr Hsubs]. split; [|done]. simpl.
    apply Forall_app. split; [done|]. constructor; [|done]. by left.
  - apply listeners_hash.
  - apply listeners_hash.
  - apply (listeners_hash _ status_t 0).
  - apply cancel_hash.
  - apply start_hash.
  - apply direct_reply_hash.
  - apply (ws_events_hash _ c true).
  - apply keeps_on_socket, ws_onmessage_hash.
  - apply keeps_on_socket, ws_events_hash.
  - apply keeps_on_event_source, sse_hash.
  - apply mux_reply_hash.
  - unfold stream_message. repeat case_match; try done.
    apply run_in_hash; [|done]. intros c Hc. rewrite <- Hc. apply callback_hash.
  - apply keeps_when. unfold zerogpu_reply. keeps_auto; hash_side.
Qed.

(** C7, as the code has it.  In a session of the copy of [submit] that is
    bound to [Client], after any sequence of calls, frames, replies and
    cancellations, every message sent to the server carries the session
    hash of the client (the POSTs of [/run], [/queue/join] and
    [/queue/data], the WebSocket replies, the GET of [/queue/join], the
    heartbeat, the multiplex stream, the component server and the reset of
    a ws call), with one exception: the reset of a call on any other
    protocol, whose body is [{event_id}] alone. *)
Theorem session_hash_on_the_wire cl acts :
  Forall (hash_or_event_reset (c_session_hash cl))
         (wtrace (run part_003 cl acts empty_world)).
Proof.
  assert (Hrun : ∀ w, hash_inv (c_session_hash cl) w →
                      hash_inv (c_session_hash cl) (run part_003 cl acts w)).
  { induction acts as [|a acts IH]; intros w Hw; [done|].
    simpl. apply IH. by apply act_hash. }
  apply Hrun. split; [done|]. intros i c x Hi. simpl in Hi.
  by rewrite lookup_empty in Hi.
Qed.

(** ** The registries *)

(** The bodies that never write to the registries. *)
Lemma regs_untouched (R : Registries → Prop) c :
  (∀ t l, keeps (λ v, R (regs v)) (λ _, True) (on t l)
          ∧ keeps (λ v, R (regs v)) (λ _, True) (off t l))
  ∧ keeps (λ v, R (regs v)) (λ _, True) destroy
  ∧ (∀ ok, keeps (λ v, R (regs v)) (λ _, True) (cancel c ok))
  ∧ (∀ p env, keeps (λ v, R (regs v)) (λ _, True) (start c p env))
  ∧ (∀ r, keeps (λ v, R (regs v)) (λ _, True) (direct_reply c r))
  ∧ keeps (λ v, R (regs v)) (λ _, True) ws_opened
  ∧ (∀ f, keeps (λ v, R (regs v)) (λ _, True) (ws_onmessage c f))
  ∧ (∀ b, keeps (λ v, R (regs v)) (λ _, True) (ws_onclose c b))
  ∧ (∀ f ps, keeps (λ v, R (regs v)) (λ _, True) (sse_onmessage c f ps))
  ∧ (∀ h, keeps (λ v, R (regs v)) (λ _, True) (zerogpu_reply c h)).
Proof.
  unfold on, off, off_key, destroy, cancel, teardown, post_reset, start,
    start_direct, start_ws, start_sse, start_mux, post_join, zerogpu_reply, direct_reply, ws_opened,
    ws_onmessage, ws_onclose, sse_onmessage, data_tail, read_log, close_sse,
    close_handle.
  repeat apply conj; intros; cbv zeta; keeps_auto;
    try done; by apply Forall_true.
Qed.

Lemma callback_quiet e P c f :
  keeps (λ v, quiet e P (regs v)) (λ _, True) (callback c f).
Proof.
  unfold callback, callback_body, callback_chain, forget_event, data_tail,
    read_log.
  keeps_auto; try done;
    match goal with Hq : quiet _ _ _ |- _ => destruct Hq as [Hp Hc] end;
    split; simpl; try done.
  by apply lookup_delete_None; right.
Qed.

Lemma mux_reply_quiet e P c eid st :
  assigns e (AMuxReply (sub_id c) eid st) = false →
  keeps (λ v, quiet e P (regs v)) (λ _, True) (mux_reply c eid st).
Proof.
  simpl. intros Ha. unfold mux_reply, drain, register.
  keeps_auto; try done;
    try lazymatch goal with
        | |- keeps _ _ (callback _ _) => apply callback_quiet
        end.
  all: assert (Hk : key_of eid ≠ e)
    by (intros Hk; rewrite bool_decide_eq_true_2 in Ha by done;
        simpl in Ha; apply bool_decide_eq_false in Ha; destruct Ha;
        by repeat case_bool_decide).
  all: match goal with Hq : quiet _ _ _ |- _ => destruct Hq as [Hp Hc] end.
  all: split; simpl; unfold assign;
    try destruct (decide (key_of eid = "__proto__"));
    rewrite ?lookup_delete_ne, ?lookup_insert_ne by done; done.
Qed.

Lemma callback_total c f v : outcome (callback c f v) = Ok tt.
Proof.
  unfold callback, try_catch.
  destruct (callback_body c f v) as [[[[]|e] v'] es]; [done|].
  mrun. destruct (bool_decide _); mrun; [|done].
  destruct (source c); mrun; done.
Qed.

Lemma for_each_callback c fs v :
  for_each (callback c) fs v = (Ok tt, (replay c fs v).1, (replay c fs v).2).
Proof.
  revert v. induction fs as [|f fs IH]; intros v; simpl; [done|].
  rewrite bind_eq. pose proof (callback_total c f v) as Hok.
  destruct (callback c f v) as [[r v'] es].
  unfold outcome in Hok. simpl in *. subst r.
  by rewrite IH.
Qed.

(** The world-level counterpart of [quiet]. *)
Lemma run_in_quiet {A} e P i (m : Consts → M A) w :
  (∀ c, keeps (λ v, quiet e P (regs v)) (λ _, True) (m c)) →
  quiet e P (registries w) → quiet e P (registries (run_in i m w)).
Proof.
  intros Hm Hq. unfold run_in.
  destruct (subs w !! i) as [[c x]|]; [|done].
  by destruct (Hm c {| vars := x; regs := registries w |} Hq).
Qed.

Lemma stream_message_quiet e P f w :
  key_of (frame_event_id f) ≠ e →
  quiet e P (registries w) → quiet e P (registries (stream_message f w)).
Proof.
  intros Hk Hq. unfold stream_message.
  assert (Hb : quiet e P (set_pending_stream_messages
    (<[key_of (frame_event_id f) :=
         default [] (pending_stream_messages (registries w)
                       !! key_of (frame_event_id f)) ++ [f]]>
       (pending_stream_messages (registries w))) (registries w))).
  { destruct Hq as [Hp Hc]. split; simpl; [|done].
    by rewrite lookup_insert_ne. }
  destruct (frame_event_id f) as [e'|]; [|done].
  destruct (event_callbacks (registries w) !! e'); [|done].
  apply run_in_quiet; [|done]. intros c. apply callback_quiet.
Qed.

(** Modelled buffering: a frame for a key under which nothing is
    registered is appended to the buffer of the key, and nothing else
    happens. *)
Lemma stream_message_buffers e f w :
  key_of (frame_event_id f) = e →
  event_callbacks (registries w) !! e = None →
  let w' := stream_message f w in
  pending_stream_messages (registries w') !! e = Some (buffer_of e w ++ [f])
  ∧ event_callbacks (registries w') !! e = None
  ∧ wtrace w' = wtrace w
  ∧ subs w' = subs w.
Proof.
  intros Hk Hc. unfold stream_message, buffer_of.
  destruct (frame_event_id f) as [e'|] eqn:Hf; simpl in Hk; subst e.
  - rewrite Hc. simpl. by rewrite lookup_insert_eq.
  - simpl. by rewrite lookup_insert_eq.
Qed.

Lemma bind_modify_vars {A} f (k : M A) v :
  (modify_vars f ;; k) v = k {| vars := f (vars v); regs := regs v |}.
Proof. rewrite bind_eq. unfold modify_vars. by destruct (k _) as [[? ?] ?]. Qed.

Lemma inherited_spec {A} key (obj : gmap string A) :
  inherited key obj = true ↔ key ∈ object_prototype_keys ∧ obj !! key = None.
Proof.
  unfold inherited. rewrite andb_true_iff, !bool_decide_eq_true. done.
Qed.

Lemma has_property_spec {A} key (obj : gmap string A) :
  has_property key obj = match obj !! key with
                         | Some _ => true
                         | None => inherited key obj
                         end.
Proof.
  unfold has_property, inherited. destruct (obj !! key) eqn:Hk.
  - by rewrite bool_decide_eq_true_2 by eauto.
  - rewrite bool_decide_eq_false_2 by (by intros [? ?]).
    rewrite (bool_decide_eq_true_2 (None = None)) by done.
    by rewrite andb_true_r.
Qed.

(** With an id that the buffer only inherits, draining throws before any
    frame is handed over. *)
Lemma drain_throws c key v :
  inherited key (pending_stream_messages (regs v)) = true →
  drain c key v =
    (Throw (TypeError "pending_stream_messages[event_id].forEach is not a function"),
     v, []).
Proof.
  intros Hin. unfold drain. mrun. rewrite has_property_spec.
  apply inherited_spec in Hin as Hk. destruct Hk as [_ Hk].
  rewrite Hk, Hin. mrun. done.
Qed.

Lemma drain_spec c key v :
  inherited key (pending_stream_messages (regs v)) = false →
  let rp := replay c (default [] (pending_stream_messages (regs v) !! key)) v in
  let r := drain c key v in
  outcome r = Ok tt
  ∧ effects r = rp.2
  ∧ vars (after r) = vars rp.1
  ∧ pending_stream_messages (regs (after r)) !! key = None
  ∧ event_callbacks (regs (after r)) = event_callbacks (regs rp.1)
  ∧ unclosed_events (regs (after r)) = unclosed_events (regs rp.1).
Proof.
  intros Hin rp r. subst rp r. unfold drain. mrun. rewrite has_property_spec.
  destruct (pending_stream_messages (regs v) !! key) as [msgs|] eqn:Hp; simpl.
  - mrun. rewrite for_each_callback. mrun. simpl.
    rewrite app_nil_r, lookup_delete_eq. done.
  - rewrite Hin. mrun. simpl. done.
Qed.

Lemma register_spec c eid v :
  let r := register c eid v in
  outcome r = Ok tt
  ∧ effects r = (if stream_open (vars v) then [] else [OpenStream (session_hash c)])
  ∧ vars (after r) = vars v
  ∧ pending_stream_messages (regs (after r)) = pending_stream_messages (regs v)
  ∧ unclosed_events (regs (after r)) = {[eid]} ∪ unclosed_events (regs v)
  ∧ event_callbacks (regs (after r)) =
      if match source c with
         | submit_ts => truthy_str eid
         | part_003 => true
         end
      then assign (key_of eid) (sub_id c) (event_callbacks (regs v))
      else event_callbacks (regs v).
Proof.
  intros r. subst r. unfold register.
  destruct (match source c with
            | submit_ts => truthy_str eid
            | part_003 => true
            end); mrun; simpl; destruct (stream_open (vars v)); mrun; done.
Qed.

(** The reply that assigns an event id: the buffered frames go to the
    callback, one after the other and in order; the buffer is dropped; the
    id is noted as unclosed, and the callback registered (in [submit.ts]
    only under a truthy id). *)
Lemma mux_reply_drains c eid v :
  let key := key_of eid in
  let v0 := {| vars := set_event_id (Some eid) (vars v); regs := regs v |} in
  let rp := replay c (default [] (pending_stream_messages (regs v) !! key)) v0 in
  let r := mux_reply c eid 200 v in
  inherited key (pending_stream_messages (regs v)) = false →
  outcome r = Ok tt
  ∧ pending_stream_messages (regs (after r)) !! key = None
  ∧ effects r = rp.2 ++ (if stream_open (vars rp.1) then []
                         else [OpenStream (session_hash c)])
  ∧ eid ∈ unclosed_events (regs (after r))
  ∧ (match source c with
     | submit_ts => truthy_str eid
     | part_003 => true
     end = true →
     key ≠ "__proto__" →
     event_callbacks (regs (after r)) !! key = Some (sub_id c)).
Proof.
  intros key v0 rp r Hin. subst r rp v0 key. unfold mux_reply.
  rewrite decide_False by done. rewrite bool_decide_eq_true_2 by done.
  cbn [negb]. mrun.
  match goal with
  | |- context [drain c ?k ?vv] =>
      destruct (drain_spec c k vv Hin) as (Ho & He & Hv & Hp & Hc & Hu);
      destruct (drain c k vv) as [[r1 v1] es1]
  end.
  unfold outcome, effects, after in *. simpl in Ho, He, Hv, Hp, Hc, Hu.
  subst r1 es1. cbn [fst snd].
  destruct (register_spec c eid v1) as (Ho' & He' & Hv' & Hp' & Hu' & Hc').
  destruct (register c eid v1) as [[r2 v2] es2].
  unfold outcome, effects, after in *. simpl in Ho', He', Hv', Hp', Hu', Hc'.
  subst r2 es2. cbn [fst snd].
  split; [done|]. split; [by rewrite Hp'|]. split; [by rewrite Hv|].
  split; [rewrite Hu'; by apply elem_of_union_l, elem_of_singleton|].
  intros Ht Hproto. rewrite Hc', Ht. unfold assign.
  rewrite decide_False by done. by rewrite lookup_insert_eq.
Qed.

(** The reply that assigns an id the buffer only inherits: the id is
    assigned, and then the replay throws; nothing is handed to the
    callback, nothing is registered and no stream is opened. *)
Lemma mux_reply_throws c eid v :
  inherited (key_of eid) (pending_stream_messages (regs v)) = true →
  mux_reply c eid 200 v =
    (Throw (TypeError "pending_stream_messages[event_id].forEach is not a function"),
     {| vars := set_event_id (Some eid) (vars v); regs := regs v |}, []).
Proof.
  intros Hin. unfold mux_reply.
  rewrite decide_False by done. rewrite bool_decide_eq_true_2 by done.
  cbn [negb]. rewrite bind_modify_vars, bind_eq, drain_throws by done.
  done.
Qed.

Lemma act_quiet src cl a w e P :
  assigns e a = false →
  (∀ f, a ≠ AStreamMessage f) →
  quiet e P (registries w) → quiet e P (registries (act src cl a w)).
Proof.
  intros Ha Hns Hq.
  destruct a; simpl;
    try (apply run_in_quiet; [intros c|done]);
    try (apply (regs_untouched (quiet e P) c)).
  - destruct (other_scope src w); [done|]. by destruct (submit _ _ _ _ _ _ _).
  - done.
  - done.
  - apply keeps_on_socket, (regs_untouched (quiet e P) c).
  - apply keeps_on_socket, (regs_untouched (quiet e P) c).
  - apply keeps_on_event_source, (regs_untouched (quiet e P) c).
  - by apply mux_reply_quiet.
  - by destruct (Hns f).
  - apply keeps_when, (regs_untouched (quiet e P) c).
Qed.

Lemma act_buffers src cl a w e :
  assigns e a = false →
  event_callbacks (registries w) !! e = None →
  buffer_of e (act src cl a w) = buffer_of e w ++ arrivals e [a]
  ∧ event_callbacks (registries (act src cl a w)) !! e = None.
Proof.
  intros Ha Hc.
  assert (Hq : quiet e (pending_stream_messages (registries w) !! e) (registries w))
    by done.
  assert (Hcase : (∃ f, a = AStreamMessage f) ∨ (∀ f, a ≠ AStreamMessage f))
    by (destruct a; first [by left; eauto | by right]).
  destruct Hcase as [[f ->]|Hns].
  - unfold arrivals; simpl. case_decide as Hk.
    + destruct (stream_message_buffers e f w Hk Hc) as (Hp & Hc' & _).
      split; [|done]. unfold buffer_of at 1. by rewrite Hp.
    + apply (stream_message_quiet _ _ _ _ Hk) in Hq as [Hp Hc'].
      split; [|done]. unfold buffer_of. rewrite Hp. by rewrite app_nil_r.
  - assert (arrivals e [a] = []) as ->.
    { unfold arrivals. destruct a; try done. by destruct (Hns f). }
    apply (act_quiet src cl a) in Hq as [Hp Hc']; [|done|done].
    split; [|done]. unfold buffer_of. rewrite Hp. by rewrite app_nil_r.
Qed.

Lemma run_buffers src cl acts w e :
  forallb (λ a, negb (assigns e a)) acts = true →
  event_callbacks (registries w) !! e = None →
  buffer_of e (run src cl acts w) = buffer_of e w ++ arrivals e acts
  ∧ event_callbacks (registries (run src cl acts w)) !! e = None.
Proof.
  revert w. induction acts as [|a acts IH]; intros w Hno Hc; simpl.
  - by rewrite app_nil_r.
  - simpl in Hno. apply andb_prop in Hno as [Ha Hno].
    apply negb_true_iff in Ha.
    destruct (act_buffers src cl a w e Ha Hc) as [Hb Hc'].
    destruct (IH _ Hno Hc') as [Hb' Hc''].
    split; [|done]. fold (run src cl acts (act src cl a w)).
    rewrite Hb', Hb, <- app_assoc. f_equal.
    unfold arrivals. by rewrite <- omap_app.
Qed.

(** C3.  Take a key [e] under which no callback is registered (any but
    [__proto__], under which an assignment stores no entry), and any run
    in which no reply assigns [e].  Every frame that arrives for [e]
    on the multiplex stream during the run is appended to
    [pending_stream_messages[e]], in order of arrival, and [e] stays
    unregistered.  When the reply of [/queue/join] then assigns [e] to a
    call, the callback of that call is run on each buffered frame, once
    and in order of arrival, after which [pending_stream_messages[e]] is
    gone.  That is all the reply does to the outside, but for opening the
    stream, and [e] is noted as unclosed.  The one exception is an id that
    names a member of [Object.prototype] and has nothing buffered under
    it: no frame is there to be replayed, and the reply handler throws
    before it registers anything. *)
Theorem buffered_frames_are_replayed src cl acts w i c x1 e
    (Hplain : e ≠ "__proto__")
    (Hfree : event_callbacks (registries w) !! e = None)
    (Hno : forallb (λ a, negb (assigns e a)) acts = true)
    (Hsub : subs (run src cl acts w) !! i = Some (c, x1)) :
  let w1 := run src cl acts w in
  let buffered := buffer_of e w ++ arrivals e acts in
  let w2 := act src cl (AMuxReply i (Some e) 200) w1 in
  let rp := replay c buffered
              {| vars := set_event_id (Some (Some e)) x1; regs := registries w1 |} in
  buffer_of e w1 = buffered
  ∧ event_callbacks (registries w1) !! e = None
  ∧ pending_stream_messages (registries w2) !! e = None
  ∧ if inherited e (pending_stream_messages (registries w1))
    then buffered = []
         ∧ wtrace w2 = wtrace w1
             ++ [Uncaught (TypeError "pending_stream_messages[event_id].forEach is not a function")]
         ∧ event_callbacks (registries w2) !! e = None
    else wtrace w2 = wtrace w1 ++ rp.2
                     ++ (if stream_open (vars rp.1) then []
                         else [OpenStream (session_hash c)])
         ∧ Some e ∈ unclosed_events (registries w2).
Proof.
  intros w1 buffered w2 rp.
  destruct (run_buffers src cl acts w e Hno Hfree) as [Hb Hc].
  fold w1 in Hb, Hc, Hsub. fold buffered in Hb.
  split; [done|]. split; [done|].
  subst w2. simpl. unfold run_in. rewrite Hsub.
  destruct (inherited e (pending_stream_messages (registries w1))) eqn:Hin.
  - rewrite (mux_reply_throws c (Some e) {| vars := x1; regs := registries w1 |})
      by done.
    apply inherited_spec in Hin as [_ Hnone]. simpl.
    split; [done|]. split; [|split; [done|done]].
    rewrite <- Hb. unfold buffer_of. by rewrite Hnone.
  - destruct (mux_reply_drains c (Some e) {| vars := x1; regs := registries w1 |} Hin)
      as (Ho & Hp & He & Hu & _).
    simpl in Ho, Hp, He, Hu. fold (buffer_of e w1) in He. rewrite Hb in He.
    fold rp in He. simpl.
    rewrite Ho, He. simpl. by rewrite app_nil_r.
Qed.

(** ** The deferred terminal status *)

Lemma forget_event_eq m v :
  forget_event m v =
    (Ok tt, if terminal_stage (stage <$> mstatus m) then forgotten v else v, []).
Proof.
  unfold forget_event. destruct (terminal_stage _); mrun; done.
Qed.

Lemma data_tail_eq c m d v :
  data_tail c m d (mret tt) v =
    (Ok tt, v,
     match d with
     | Some d =>
         dispatch (data_event c (o_data d)) v
         ++ match complete (vars v) with
            | Some _ =>
                dispatch (EStatus (spread_status c (complete (vars v))
                                     (stage <$> mstatus m))) v
            | None => []
            end
     | None => []
     end).
Proof.
  unfold data_tail. destruct d as [d|]; mrun; [|done].
  destruct (complete (vars v)); mrun; by rewrite ?app_nil_r.
Qed.

(** C1, as the code has it.  The engine holds no bound of one terminal
    status per submission, and goes on handling frames after one (see the
    counterexample).  What the frame callback guarantees is the order
    within one run of it on a frame classified [complete]: the run ends
    normally and only stashes the status of the frame; it fires nothing
    unless the frame carries data, in which case it fires the data event
    first and, if the frame has a status, directly after it one status
    event with the fields and the stage of that status and queue true,
    and nothing else.  If that stage is complete or error, then on return
    from this run nothing is registered under the event id of the call.
    This last part is about the moment of return only: when the run is
    the replay of a buffered frame by the handler of the join reply, the
    handler registers the callback afterwards. *)
Theorem complete_frame_fires_data_then_status c f m v
    (Hm : handle_message f None = Ok m)
    (Ht : mtype m = t_complete) :
  let r := callback c f v in
  let data d :=
    EData {| de_data := o_data d;
             de_endpoint := _endpoint c;
             de_fn_index := fn_index c;
             de_event_data := match source c with
                              | part_003 => event_data c
                              | submit_ts => JUndefined
                              end;
             de_trigger_id := match source c with
                              | part_003 => trigger_id c
                              | submit_ts => JUndefined
                              end |} in
  outcome r = Ok tt
  ∧ complete (vars (after r)) = mstatus m
  ∧ fired (effects r) =
      match mdata m, mstatus m with
      | Some d, Some st =>
          [data d;
           EStatus {| ev_stage := Some (stage st); ev_queue := true;
                      ev_message := message st; ev_eta := eta st;
                      ev_broken := broken st; ev_others := others st;
                      ev_endpoint := _endpoint c;
                      ev_fn_index := fn_index c |}]
      | Some d, None => [data d]
      | None, _ => []
      end
  ∧ (terminal_stage (stage <$> mstatus m) = true →
     event_callbacks (regs (after r)) !! id_key (event_id (vars v)) = None).
Proof.
  intros r data. subst r data.
  unfold callback, try_catch, callback_body. mrun. rewrite Hm. mrun.
  rewrite decide_False by (rewrite Ht; done).
  unfold callback_chain. mrun. rewrite Ht. mrun. cbn [fst snd].
  rewrite data_tail_eq, forget_event_eq. cbn [vars regs complete set_complete].
  split; [done|]. split.
  { by destruct (terminal_stage _). }
  split.
  - rewrite !app_nil_r.
    destruct (mdata m) as [d|], (mstatus m) as [st|]; simpl;
      by rewrite ?fired_app, ?fired_deliveries, ?fired_dispatch.
  - intros ->. simpl. by rewrite lookup_delete_eq.
Qed.

(** ** Subscriptions: [on], [off], [destroy] *)

Lemma filter_none {A} (P : A → Prop) `{∀ x, Decision (P x)} (l : list A) :
  (∀ x, x ∈ l → ¬ P x) → filter P l = [].
Proof.
  induction l as [|a l IH]; intros Hl; [done|].
  rewrite filter_cons_False by (apply Hl; left).
  apply IH. intros x Hx. apply Hl. by right.
Qed.

Lemma filter_all {A} (P : A → Prop) `{∀ x, Decision (P x)} (l : list A) :
  (∀ x, x ∈ l → P x) → filter P l = l.
Proof.
  induction l as [|a l IH]; intros Hl; [done|].
  rewrite filter_cons_True by (apply Hl; left).
  f_equal. apply IH. intros x Hx. apply Hl. by right.
Qed.

Lemma set_listener_map_same v :
  {| vars := set_listener_map (listener_map (vars v)) (vars v); regs := regs v |} = v.
Proof. by destruct v as [[] ?]. Qed.

Lemma off_key_eq k l v :
  off_key k l v =
    (Ok tt,
     {| vars := set_listener_map (without k l (listener_map (vars v))) (vars v);
        regs := regs v |}, []).
Proof. unfold off_key. mrun. done. Qed.

Lemma for_each_off_key k fns v :
  for_each (λ fn, off_key k fn) fns v =
    (Ok tt,
     {| vars := set_listener_map (without_all k fns (listener_map (vars v))) (vars v);
        regs := regs v |}, []).
Proof.
  revert v. induction fns as [|fn fns IH]; intros v; simpl.
  - by rewrite set_listener_map_same.
  - rewrite bind_eq, off_key_eq, IH. done.
Qed.

Lemma without_all_eq k fns lm :
  fns ≠ [] →
  without_all k fns lm = <[k := filter (λ x, x ∉ fns) (default [] (lm !! k))]> lm.
Proof.
  revert lm. induction fns as [|fn fns IH]; intros lm Hne; [done|].
  unfold without_all. simpl. fold (without_all k fns (without k fn lm)).
  destruct fns as [|fn' fns].
  - simpl. unfold without. f_equal. apply list_filter_iff. intros x.
    rewrite list_elem_of_singleton. done.
  - rewrite IH by done. unfold without at 2. rewrite insert_insert_eq.
    f_equal. unfold without. rewrite lookup_insert_eq. simpl.
    rewrite list_filter_filter. apply list_filter_iff. intros x.
    rewrite (not_elem_of_cons (fn' :: fns) x fn). tauto.
Qed.

(** Unsubscribing every listener of a list from its own key leaves the
    key empty. *)
Lemma without_all_own k ls lm k' :
  lm !! k = Some ls →
  without_all k ls lm !! k' = if decide (k' = k) then Some [] else lm !! k'.
Proof.
  intros Hk. destruct ls as [|l ls].
  - unfold without_all; simpl. case_decide; by subst.
  - rewrite without_all_eq by done. rewrite Hk. simpl.
    case_decide as Hd.
    + subst. rewrite lookup_insert_eq. f_equal.
      apply filter_none. intros x Hx. tauto.
    + by rewrite lookup_insert_ne.
Qed.

Lemma for_each_destroy kvs v :
  for_each (λ kv : string * list Listener,
              for_each (λ fn, off_key kv.1 fn) kv.2) kvs v =
    (Ok tt,
     {| vars := set_listener_map
                  (foldl (λ lm kv, without_all kv.1 kv.2 lm) (listener_map (vars v)) kvs)
                  (vars v);
        regs := regs v |}, []).
Proof.
  revert v. induction kvs as [|[k ls] kvs IH]; intros v; simpl.
  - by rewrite set_listener_map_same.
  - rewrite bind_eq, for_each_off_key, IH. done.
Qed.

Lemma destroy_clears kvs (lm : gmap string (list Listener)) k' :
  NoDup kvs.*1 →
  (∀ k ls, (k, ls) ∈ kvs → lm !! k = Some ls) →
  foldl (λ lm kv, without_all kv.1 kv.2 lm) lm kvs !! k'
  = if decide (k' ∈ kvs.*1) then Some [] else lm !! k'.
Proof.
  revert lm. induction kvs as [|[k ls] kvs IH]; intros lm Hnd Hin; simpl.
  - done.
  - apply NoDup_cons in Hnd as [Hk Hnd].
    rewrite IH; [|done|].
    + rewrite without_all_own by (apply Hin; left).
      destruct (decide (k' ∈ kvs.*1)) as [Hin'|Hnin].
      * rewrite decide_True; [done|by right].
      * destruct (decide (k' = k)) as [->|Hne].
        -- rewrite decide_True; [done|by left].
        -- rewrite decide_False; [done|].
           intros [?|?]%elem_of_cons; done.
    + intros k2 ls2 Hin2. rewrite without_all_own by (apply Hin; left).
      rewrite decide_False; [apply Hin; by right|].
      intros ->. apply Hk. apply list_elem_of_fmap. by exists (k, ls2).
Qed.

(** X1.  [destroy] unsubscribes every listener of every event type: it ends
    normally without reaching the outside or the registries, every key of
    the listener map is left with the empty list, and an event fired
    afterwards reaches no listener. *)
Theorem destroy_unsubscribes_everyone v :
  let r := destroy v in
  outcome r = Ok tt
  ∧ effects r = []
  ∧ regs (after r) = regs v
  ∧ (∀ k, listener_map (vars (after r)) !! k
          = (λ _, []) <$> listener_map (vars v) !! k)
  ∧ (∀ e, effects (fire_event e (after r)) = [Fired e]).
Proof.
  intros r. subst r. unfold destroy. mrun.
  rewrite for_each_destroy. cbn [outcome effects after fst snd vars regs].
  assert (Hmap : ∀ k,
    foldl (λ lm kv, without_all kv.1 kv.2 lm) (listener_map (vars v))
      (map_to_list (listener_map (vars v))) !! k
    = (λ _, []) <$> listener_map (vars v) !! k).
  { intros k. rewrite destroy_clears.
    - case_decide as Hk.
      + apply list_elem_of_fmap in Hk as [[k2 ls] [-> Hin]].
        apply elem_of_map_to_list in Hin. simpl. by rewrite Hin.
      + destruct (listener_map (vars v) !! k) as [ls|] eqn:Hl; [|done].
        destruct Hk. apply list_elem_of_fmap. exists (k, ls).
        split; [done|]. by apply elem_of_map_to_list.
    - apply NoDup_fst_map_to_list.
    - intros k2 ls Hin. by apply elem_of_map_to_list. }
  split; [done|]. split; [done|]. split; [done|]. split; [exact Hmap|].
  intros e. rewrite fire_event_eq. unfold effects, dispatch, listeners_of. simpl.
  rewrite Hmap. by destruct (listener_map (vars v) !! _).
Qed.

Lemma listeners_of_off t l v t' :
  listeners_of t' (after (off t l v))
  = if decide (t' = t) then filter (λ x, x ≠ l) (listeners_of t v)
    else listeners_of t' v.
Proof. unfold off, off_key. mrun. by rewrite listeners_of_insert. Qed.

Lemma listeners_of_on t l v t' :
  listeners_of t' (after (on t l v))
  = if decide (t' = t) then listeners_of t v ++ [l] else listeners_of t' v.
Proof. unfold on. mrun. by rewrite listeners_of_insert. Qed.

(** X2.  Subscribing a listener that was not subscribed to the type and
    unsubscribing it again leaves the listeners of every type as they
    were. *)
Theorem on_then_off_restores t l v
    (Hnew : l ∉ listeners_of t v) :
  ∀ t', listeners_of t' (after (off t l (after (on t l v)))) = listeners_of t' v.
Proof.
  intros t'. rewrite listeners_of_off, !listeners_of_on.
  destruct (decide (t' = t)) as [->|Hne]; [|done].
  rewrite decide_True by done.
  rewrite filter_app, filter_cons_False, filter_nil, app_nil_r by tauto.
  apply filter_all. intros x Hx ->. done.
Qed.

(** X3.  [on] does not look for duplicates: after [on(t, l)] an event of type
    [t] reaches the listeners it reached before, in the same order, and
    then [l] once more; events of the other types are dispatched as
    before. *)
Theorem on_adds_one_delivery t l v e :
  effects (fire_event e (after (on t l v)))
  = effects (fire_event e v)
    ++ (if decide (event_type e = t) then [Deliver l e] else []).
Proof.
  rewrite !fire_event_eq. unfold effects, dispatch. cbn [snd].
  unfold on. mrun. rewrite listeners_of_insert.
  case_decide as Ht.
  - rewrite Ht, fmap_app. done.
  - by rewrite app_nil_r.
Qed.

(** ** The synchronous part of [submit] *)

(** X4.  When [submit] throws and when it returns.  Without an API it
    throws "No API found".  With one, [submit.ts] throws "Invalid
    endpoint" exactly when the endpoint resolves to no function index, or
    the API has no entry for it, or the entry is falsy (null, say); an
    entry of the API's own is not needed, though, for a name that
    [Object.prototype] has a member for, and a falsy entry of its own
    under such a name still makes it throw.  The copy bound to [Client]
    throws "There is no endpoint matching that name of fn_index matching
    that number." exactly when the endpoint resolves to no function
    index.  In every other case [submit] returns, for the function index
    the endpoint resolves to.  So the check of [fn_index] that [submit]
    makes itself never fires: [get_endpoint_info] has thrown before it. *)
Theorem submit_errors src cl id rnd endpoint ed tid :
  let r := submit src cl id rnd endpoint ed tid in
  match c_api cl with
  | None => r = Throw (Error "No API found")
  | Some api =>
      match src, resolve_fn_index cl endpoint with
      | submit_ts, Some fn =>
          match api_info_of api endpoint with
          | Some info =>
              if truthy info then ∃ c, r = Ok c ∧ fn_index c = fn
              else r = Throw (Error "Invalid endpoint")
          | None =>
              if names_a_prototype_member endpoint
              then ∃ c, r = Ok c ∧ fn_index c = fn
              else r = Throw (Error "Invalid endpoint")
          end
      | submit_ts, None => r = Throw (Error "Invalid endpoint")
      | part_003, Some fn => ∃ c, r = Ok c ∧ fn_index c = fn
      | part_003, None =>
          r = Throw (Error "There is no endpoint matching that name of fn_index matching that number.")
      end
  end.
Proof.
  intros r. subst r.
  unfold submit, get_endpoint_info, falsy_at, names_a_prototype_member.
  destruct (c_api cl) as [api|]; [|done].
  destruct src, (resolve_fn_index cl endpoint) as [fn|] eqn:Hfn; try done;
    [|by eauto].
  destruct endpoint as [n|name]; simpl.
  - destruct (unnamed_endpoints api !! n) as [info|]; simpl; [|done].
    destruct (truthy info); simpl; [|done]. eauto.
  - destruct (named_endpoints api !! trim name) as [info|]; simpl.
    + destruct (truthy info); simpl; [|done]. eauto.
    + destruct (bool_decide (trim name ∈ object_prototype_keys)); simpl; [|done].
      eauto.
Qed.

(** X5.  A number is taken as the function index as it is.  The copy bound to
    [Client] accepts any number once an API is loaded, also one that names
    no function: the call is for the endpoint "/predict", and its
    dependency is the entry of [config.dependencies] at that index, if
    there is one.  A number outside [config.dependencies] is found out
    only later: in a window, the call on a multiplexed protocol fires the
    status pending and then throws a [TypeError], and nothing is sent. *)
Theorem numeric_endpoint_is_taken_as_given cl api id rnd n ed tid
    (Hapi : c_api cl = Some api) :
  ∃ c, submit part_003 cl id rnd (inl n) ed tid = Ok c
       ∧ fn_index c = n
       ∧ _endpoint c = "/predict"
       ∧ session_hash c = c_session_hash cl
       ∧ dependency c = (if bool_decide (0 ≤ n)%Z
                         then dependencies (c_config cl) !! Z.to_nat n
                         else None)
       ∧ ((n < 0 ∨ Z.of_nat (length (dependencies (c_config cl))) ≤ n)%Z →
          has_window (c_host cl) = true →
          ∀ v, start_mux c v =
                 (Throw (TypeError "dependency is undefined"), v,
                  dispatch (EStatus (mk_status c Pending true None)) v)).
Proof.
  unfold submit. rewrite Hapi. simpl. eexists. split; [reflexivity|].
  repeat (split; [done|]).
  intros Hout Hw v. unfold start_mux. cbn [source host dependency].
  rewrite Hw.
  assert ((if bool_decide (0 ≤ n)%Z
           then dependencies (c_config cl) !! Z.to_nat n else None) = None) as ->.
  { case_bool_decide; [|done]. apply lookup_ge_None. lia. }
  mrun. by rewrite app_nil_r.
Qed.

(** X6.  The slash in front of an endpoint name is optional: in the copy bound
    to [Client], a name given with the slash is accepted whenever the name
    without it is, it resolves to the same function, and a call that skips
    the queue is POSTed to the same URL with the same body. *)
Theorem leading_slash_is_optional cl id rnd name ed tid c
    (Hname : starts_with_slash name = false)
    (Hsub : submit part_003 cl id rnd (inr name) ed tid = Ok c) :
  ∃ c', submit part_003 cl id rnd (inr ("/" +:+ name)) ed tid = Ok c'
        ∧ fn_index c' = fn_index c
        ∧ ∀ v, last (effects (start_direct c' v)) = last (effects (start_direct c v)).
Proof.
  assert (Hstrip : strip_slash name = name).
  { destruct name as [|a name]; [done|]. simpl in *.
    by destruct (bool_decide _). }
  assert (Hslash : strip_slash ("/" +:+ name) = name) by reflexivity.
  assert (Hstarts : starts_with_slash ("/" +:+ name) = true) by reflexivity.
  unfold submit, get_endpoint_info, resolve_fn_index in *.
  destruct (c_api cl) as [api|]; [|done].
  rewrite Hslash. rewrite Hstrip in Hsub.
  destruct (c_api_map cl !! name) as [fn|]; [|done].
  injection Hsub as <-. eexists. split; [reflexivity|]. split; [done|].
  intros v. unfold start_direct. mrun. cbn [_endpoint config host fn_index app].
  rewrite !last_snoc, Hname, Hstarts. done.
Qed.

(** ** Choosing the transport *)

Lemma fire_then {A} e (k : M A) v :
  keeps (λ _, True) (λ x, is_fired x = false) k →
  ∃ rest, effects ((fire_event e ;; k) v) = dispatch e v ++ rest
          ∧ fired rest = [].
Proof.
  intros Hk. rewrite bind_eq, fire_event_eq.
  destruct (Hk v I) as [_ HE].
  destruct (k v) as [[r v'] es]. simpl in *.
  exists es. split; [done|]. by apply fired_none.
Qed.

(** X7.  Whatever the transport, a call announces itself before it does
    anything else: the first thing [start] does is to fire the status
    pending, with [queue] false exactly when the function skips the
    queue, and it fires no other event. *)
Theorem start_fires_pending_first c p env v
    (Hknown : skip_queue (fn_index c) (config c) = true
              ∨ protocol c ∈ known_protocols) :
  ∃ rest, effects (start c p env v) = dispatch (pending c) v ++ rest
          ∧ fired rest = [].
Proof.
  unfold start, pending. rewrite bind_modify_vars.
  set (v1 := {| vars := set_payload _ (vars v); regs := regs v |}).
  assert (Hd : ∀ e, dispatch e v1 = dispatch e v) by (intros; by apply dispatch_same).
  destruct (skip_queue (fn_index c) (config c)) eqn:Hskip; cbn [negb].
  { rewrite <- Hd. unfold start_direct. apply fire_then. keeps_auto; done. }
  destruct Hknown as [|Hknown]; [done|].
  case_decide as Hws.
  { rewrite <- Hd. unfold start_ws. apply fire_then. keeps_auto; done. }
  case_decide as Hsse.
  { rewrite <- Hd. unfold start_sse. apply fire_then.
    keeps_auto; try done.
    - unfold new_EventSource. by destruct (has_EventSource _); repeat constructor.
    - rewrite eventSource_factory_eq.
      by destruct (has_EventSource _); repeat constructor. }
  rewrite bool_decide_eq_true_2.
  { rewrite <- Hd. unfold start_mux, post_join. apply fire_then. keeps_auto; done. }
  unfold known_protocols in Hknown.
  apply elem_of_cons in Hknown as [?|Hknown]; [done|].
  apply elem_of_cons in Hknown as [?|Hknown]; done.
Qed.

(** X8.  A protocol [submit] has no transport for is not an error: unless the
    function skips the queue, [start] stashes the payload and does nothing
    else.  No event is fired, not even the status pending, and nothing is
    sent. *)
Theorem unknown_protocol_is_silent c p env v
    (Hqueue : skip_queue (fn_index c) (config c) = false)
    (Hunknown : protocol c ∉ known_protocols) :
  start c p env v =
    (Ok tt,
     {| vars := set_payload (Some (payload_of c p)) (vars v); regs := regs v |},
     []).
Proof.
  unfold start, known_protocols in *. rewrite bind_modify_vars, Hqueue.
  rewrite decide_False by (intros Hp; apply Hunknown; rewrite Hp; by left).
  rewrite decide_False
    by (intros Hp; apply Hunknown; rewrite Hp; right; by left).
  rewrite bool_decide_eq_false_2
    by (intros Hp; apply Hunknown; right; by right).
  mrun. done.
Qed.

(** ** The handlers of the dedicated transports *)

Lemma sse_handle_set_complete c s x :
  sse_handle c (set_complete s x) = sse_handle c x.
Proof. unfold sse_handle. by destruct (source c). Qed.

Lemma sse_handle_set_event_id c e x :
  sse_handle c (set_event_id e x) = sse_handle c x.
Proof. unfold sse_handle. by destruct (source c). Qed.

Ltac list_norm := cbn [app]; rewrite ?app_nil_r, <- ?app_assoc; cbn [app].

(** X9.  The opening exchange over the WebSocket.  A frame that asks for the
    hash is answered with [{fn_index, session_hash}] and the handler
    returns at once, whatever else the frame carries; a frame that asks
    for the data is answered with the payload and the session hash.
    Neither fires an event or changes the state of the call. *)
Theorem ws_handshake c f m v
    (Hm : handle_message f None = Ok m) :
  (mtype m = t_hash →
   ws_onmessage c f v =
     (Ok tt, v, [WsSend (JObj [("fn_index", num (fn_index c));
                               ("session_hash", JStr (session_hash c))])]))
  ∧ (mtype m = t_data → mdata m = None →
     ws_onmessage c f v = (Ok tt, v, [WsSend (JObj (with_hash c (vars v)))])).
Proof.
  unfold ws_onmessage. mrun. rewrite Hm. mrun.
  split.
  - intros ->. mrun. done.
  - intros -> ->. mrun. done.
Qed.

(** X10.  On the WebSocket and on the dedicated event stream, a frame classified
    [complete] that carries data ends the call: its status is stashed, the
    data event is fired, then the status with the stage of the frame, and
    then the transport is closed. *)
Theorem completion_closes_the_transport c f m st d v ps
    (Hm : handle_message f None = Ok m)
    (Ht : mtype m = t_complete)
    (Hs : mstatus m = Some st)
    (Hd : mdata m = Some d) :
  let final := dispatch (data_event c (o_data d)) v
               ++ dispatch (EStatus (spread_status c (Some st) (Some (stage st)))) v in
  let v' := {| vars := set_complete (Some st) (vars v); regs := regs v |} in
  ws_onmessage c f v = (Ok tt, v', final ++ [WsClose])
  ∧ (sse_handle c (vars v) = Some EventSourceObj →
     sse_onmessage c f ps v = (Ok tt, v', final ++ [EsClose])).
Proof.
  intros final v'. subst final v'. split.
  - unfold ws_onmessage, data_tail. mrun. rewrite Hm. mrun. rewrite Ht. mrun.
    rewrite Hd. mrun. cbn [vars complete set_complete]. rewrite Hs. mrun.
    unfold dispatch, listeners_of. cbn [vars listener_map set_complete fmap].
    list_norm. done.
  - intros Hh.
    unfold sse_onmessage, data_tail, close_sse, close_handle.
    mrun. rewrite Hm. mrun. rewrite Ht. mrun.
    rewrite Hd. mrun. cbn [vars complete set_complete]. rewrite Hs. mrun.
    cbn [vars]. rewrite sse_handle_set_complete, Hh. mrun.
    unfold dispatch, listeners_of. cbn [vars listener_map set_complete fmap].
    list_norm. done.
Qed.

(** X11.  Once a status is stashed in [complete] (by a frame classified
    [complete] or by [cancel]), a frame classified [update] that carries
    no data is dropped by all three frame handlers: no event is fired and
    nothing is sent. *)
Theorem update_frames_are_dropped_once_complete c f m v ps
    (Hm : handle_message f None = Ok m)
    (Ht : mtype m = t_update)
    (Hd : mdata m = None)
    (Hc : is_Some (complete (vars v))) :
  ws_onmessage c f v = (Ok tt, v, [])
  ∧ sse_onmessage c f ps v = (Ok tt, v, [])
  ∧ effects (callback c f v) = []
  ∧ vars (after (callback c f v)) = vars v.
Proof.
  destruct Hc as [st0 Hc].
  split; [|split].
  - unfold ws_onmessage, data_tail. mrun. rewrite Hm. mrun. rewrite Ht, Hc, Hd.
    destruct (mstatus m); mrun; done.
  - unfold sse_onmessage, data_tail. mrun. rewrite Hm. mrun. rewrite Ht, Hc, Hd.
    destruct (mstatus m); mrun; done.
  - unfold callback, try_catch, callback_body. mrun. rewrite Hm. mrun.
    rewrite decide_False by (rewrite Ht; done).
    unfold callback_chain. mrun. rewrite Ht, Hc.
    destruct (mstatus m) as [st|]; mrun; cbn [fst snd];
      rewrite Hd, data_tail_eq, forget_event_eq; cbn [fst snd];
      by destruct (terminal_stage _).
Qed.

(** X12.  An error reported by the server in a frame classified [update] ends
    the call, as long as no status is stashed: the status is fired as the
    frame gives it; the WebSocket or the dedicated event stream is then
    closed; on the multiplexed protocols the callback forgets its event
    instead. *)
Theorem server_error_ends_the_call c f m st v ps
    (Hm : handle_message f None = Ok m)
    (Ht : mtype m = t_update)
    (Hs : mstatus m = Some st)
    (Hst : stage st = Failed)
    (Hd : mdata m = None)
    (Hc : complete (vars v) = None) :
  ws_onmessage c f v = (Ok tt, v, dispatch (update_event c st) v ++ [WsClose])
  ∧ (sse_handle c (vars v) = Some EventSourceObj →
     sse_onmessage c f ps v = (Ok tt, v, dispatch (update_event c st) v ++ [EsClose]))
  ∧ callback c f v = (Ok tt, forgotten v, dispatch (update_event c st) v).
Proof.
  split; [|split].
  - unfold ws_onmessage, data_tail. mrun. rewrite Hm. mrun. rewrite Ht, Hs, Hc, Hd.
    mrun. rewrite Hst, bool_decide_eq_true_2 by done. mrun. list_norm. done.
  - intros Hh. unfold sse_onmessage, data_tail, close_sse, close_handle.
    mrun. rewrite Hm. mrun. rewrite Ht, Hs, Hc, Hd.
    mrun. rewrite Hst, bool_decide_eq_true_2 by done. mrun. rewrite Hh. mrun.
    list_norm. done.
  - unfold callback, try_catch, callback_body. mrun. rewrite Hm. mrun.
    rewrite decide_False by (rewrite Ht; done).
    unfold callback_chain. mrun. rewrite Ht, Hs, Hc. mrun. cbn [fst snd].
    rewrite Hd, data_tail_eq, forget_event_eq. cbn [fst snd].
    rewrite Hs. simpl. rewrite Hst. simpl. by rewrite !app_nil_r.
Qed.

Lemma data_tail_returns c m d (close : M unit) v :
  (∀ v', outcome (close v') = Ok tt) →
  outcome (data_tail c m d close v) = Ok tt.
Proof.
  intros Hclose. unfold data_tail. destruct d; mrun; [|done].
  destruct (complete (vars v)); mrun; [|done].
  specialize (Hclose v). by destruct (close v) as [[[[]|?] ?] ?].
Qed.

(** X13.  The handler of the WebSocket has no [try].  It throws exactly in
    these cases, and exactly this: the [SyntaxError] of [JSON.parse] when
    the text of the event is not JSON; what [handle_message] throws on
    the parsed frame; and the [TypeError] of reading [data.log] when the
    frame is classified [log] and carries no data.  Every other event is
    handled to the end. *)
Theorem ws_handler_throws_only_on_bad_frames c d v e :
  outcome (websocket_onmessage c d v) = Throw e
  ↔ match d with
    | Malformed _ => e = SyntaxError "Unexpected token in JSON"
    | Parses f =>
        handle_message f None = Throw e
        ∨ (e = TypeError "data is undefined"
           ∧ ∃ m, handle_message f None = Ok m ∧ mtype m = t_log ∧ mdata m = None)
    end.
Proof.
  unfold websocket_onmessage. destruct d as [f|text]; simpl; mrun;
    [|split; [by intros [= <-]|by intros ->]].
  unfold ws_onmessage. mrun.
  destruct (handle_message f None) as [m|e'] eqn:Hm; mrun;
    [|split; [intros [= ->]; by left|intros [[= ->]|(_ & ? & [=] & _)]; done]].
  assert (Hlog : mtype m = t_log ∧ mdata m = None
                 ∨ ¬ (mtype m = t_log ∧ mdata m = None)).
  { destruct (mtype m), (mdata m); first [by left | by right; intros []]. }
  destruct Hlog as [[Ht Hd]|Hlog].
  { rewrite Ht. unfold read_log. rewrite Hd. mrun.
    split.
    - intros [= <-]. right. split; [done|]. by exists m.
    - intros [[=]|[-> _]]. done. }
  split; [|intros [[=]|(_ & m' & [= <-] & Ht & Hd)]; by destruct Hlog].
  intros Hthrow. exfalso. revert Hthrow.
  unfold read_log.
  destruct (mtype m) eqn:Ht, (mstatus m), (complete (vars v)), (mdata m) eqn:Hd;
    mrun; try (destruct (bool_decide _); mrun);
    try (by destruct Hlog);
    repeat match goal with
    | |- context [data_tail ?c0 ?m0 ?d0 ?k0 ?v0] =>
        let Hr := fresh in
        pose proof (data_tail_returns c0 m0 d0 k0 v0 (λ _, eq_refl)) as Hr;
        destruct (data_tail c0 m0 d0 k0 v0) as [[[[]|?] ?] ?];
        [clear Hr|by unfold outcome in Hr]
    end; done.
Qed.

(** X14.  A frame classified [log] fires the log event.  The handlers of the
    WebSocket and of the dedicated event stream then go on to the common
    tail and, the frame carrying data, fire a data event as well; the
    callback of the multiplexed protocols returns after the log event. *)
Theorem log_frame_also_fires_data_outside_mux c f m d v ps
    (Hm : handle_message f None = Ok m)
    (Ht : mtype m = t_log)
    (Hd : mdata m = Some d)
    (Hc : complete (vars v) = None) :
  fired (effects (ws_onmessage c f v)) = [log_event c d; data_event c (o_data d)]
  ∧ fired (effects (sse_onmessage c f ps v)) = [log_event c d; data_event c (o_data d)]
  ∧ fired (effects (callback c f v)) = [log_event c d].
Proof.
  split; [|split].
  - unfold ws_onmessage, data_tail, read_log. mrun. rewrite Hm. mrun.
    rewrite Ht, Hd. mrun. rewrite Hc. mrun.
    by rewrite !fired_app, !fired_dispatch.
  - unfold sse_onmessage, data_tail, read_log. mrun. rewrite Hm. mrun.
    rewrite Ht, Hd. mrun. rewrite Hc. mrun.
    by rewrite !fired_app, !fired_dispatch.
  - unfold callback, try_catch, callback_body. mrun. rewrite Hm. mrun.
    rewrite decide_False by (rewrite Ht; done).
    unfold callback_chain, read_log. mrun. rewrite Ht, Hd. mrun.
    by rewrite !fired_app, !fired_dispatch.
Qed.

(** X15.  On the dedicated event stream, a frame that asks for the data sets
    the event id of the call to the one of the frame and POSTs the
    payload, with the session hash and that event id, to [/queue/data].
    A reply with status 200 is the end of it; any other status fires the
    status error with the broken-connection message and closes the
    stream. *)
Theorem sse_data_frame_posts_the_payload c f m v ps
    (Hm : handle_message f None = Ok m)
    (Ht : mtype m = t_data)
    (Hd : mdata m = None)
    (Hh : sse_handle c (vars v) = Some EventSourceObj) :
  sse_onmessage c f ps v =
    (Ok tt,
     {| vars := set_event_id (Some (frame_event_id f)) (vars v); regs := regs v |},
     PostData (root (config c) +:+ "/queue/data")
       (JObj (with_hash c (vars v)
              ++ [("event_id", id_json (Some (frame_event_id f)))]))
     :: (if decide (ps = 200%Z) then []
         else dispatch (EStatus (mk_status c Failed true (Some BROKEN_CONNECTION_MSG))) v
              ++ [EsClose])).
Proof.
  unfold sse_onmessage, data_tail, close_sse, close_handle.
  mrun. rewrite Hm. mrun. rewrite Ht, Hd. mrun.
  cbn [vars event_id set_event_id].
  unfold with_hash. cbn [payload set_event_id].
  case_decide as Hps.
  - rewrite bool_decide_eq_true_2 by done. cbn [negb]. mrun. done.
  - rewrite bool_decide_eq_false_2 by done. cbn [negb]. mrun. cbn [vars].
    rewrite sse_handle_set_event_id, Hh. mrun.
    unfold dispatch, listeners_of. cbn [vars listener_map set_event_id].
    list_norm. done.
Qed.

(** X16.  [submit.ts] opens the dedicated event stream with [new EventSource]
    and not through the factory of the client: where [EventSource] is not
    defined, the call fires the status pending and then throws a
    [ReferenceError]; no stream is stored. *)
Theorem sse_needs_EventSource_in_submit_ts c v
    (Hsrc : source c = submit_ts)
    (Hno : has_EventSource (host c) = false) :
  start_sse c v =
    (Throw (ReferenceError "EventSource is not defined"), v,
     dispatch (EStatus (mk_status c Pending true None)) v).
Proof.
  unfold start_sse, new_EventSource. rewrite Hsrc, Hno. mrun.
  by rewrite app_nil_r.
Qed.

(** X17.  Opening the WebSocket, once [process_endpoint] has resolved.  The
    call fires the status pending, then creates the socket; without a
    token, a space id and a JWT the URL is the plain one of the queue.
    After that it consults [semiver], which [submit] never imports: where
    that name is unbound the continuation throws a [ReferenceError], with
    the socket already in place; where it is bound, the hash is sent on
    "open" exactly when the version of the app (taken as 2.0.0 when the
    configuration has none) is older than 3.6. *)
Theorem ws_start c ws_root space got_jwt v
    (Hjwt : jwt (vars v) = None) :
  let signed := truthy_str (hf_token c) && truthy_str space && truthy_str got_jwt in
  let r := start_ws c ws_root space got_jwt v in
  websocket (vars (after r)) = Some {| readyState := 0; close_on_open := 0 |}
  ∧ outcome r = match semiver with
                | Some _ => Ok tt
                | None => Throw (ReferenceError "semiver is not defined")
                end
  ∧ ∃ url,
      (signed = false → url = ws_root +:+ "/queue/join" +:+ query c)
      ∧ effects r =
          dispatch (EStatus (mk_status c Pending true None)) v
          ++ [NewWebSocket url]
          ++ match semiver with
             | Some cmp =>
                 if bool_decide (cmp (or_else (version (config c)) "2.0.0") "3.6" < 0)%Z
                 then [WindowOnOpenSend (JObj [("hash", JStr (session_hash c))])]
                 else []
             | None => []
             end.
Proof.
  intros signed r. subst signed r.
  unfold start_ws. mrun.
  destruct (truthy_str (hf_token c) && truthy_str space) eqn:Hts; mrun;
    cbn [vars jwt set_jwt andb]; rewrite ?Hjwt; cbn [truthy_str andb].
  - destruct (truthy_str got_jwt) eqn:Hg; mrun;
      destruct semiver as [cmp|]; mrun;
      try destruct (bool_decide _); mrun; cbn [vars websocket set_websocket];
      (split; [done|]); (split; [done|]); eexists;
      (split; [|list_norm; reflexivity]); done.
  - destruct semiver as [cmp|]; mrun;
      try destruct (bool_decide _); mrun; cbn [vars websocket set_websocket];
      (split; [done|]); (split; [done|]); eexists;
      (split; [|list_norm; reflexivity]); done.
Qed.

(** X18.  [cancel] on a WebSocket that is still connecting does not close it:
    it asks for the socket to be closed once it opens, and sends the reset
    with [{fn_index, session_hash}].  When the socket then opens, it is
    closed, once for every such request pending on it. *)
Theorem cancel_while_connecting_closes_on_open c ok v ws
    (Hp : protocol c = "ws")
    (Hws : websocket (vars v) = Some ws)
    (Hr : readyState ws = 0) :
  let r := cancel c ok v in
  outcome r = Ok tt
  ∧ effects r =
      dispatch (cancelled c) v
      ++ [WsCloseOnOpen;
          Fetch (root (config c) +:+ "/reset")
            (JObj [("fn_index", num (fn_index c));
                   ("session_hash", JStr (session_hash c))])]
      ++ (if ok then [] else [ConsoleWarn "The `/reset` endpoint could not be called. Subsequent endpoint results may be unreliable."])
  ∧ ws_opened (after r) =
      (Ok tt,
       {| vars := set_websocket (Some {| readyState := 1; close_on_open := 0 |})
                    (vars (after r));
          regs := regs (after r) |},
       replicate (S (close_on_open ws)) WsClose).
Proof.
  intros r.
  pose proof (cancel_with_transport c ok v) as Hc. cbv zeta in Hc. fold r in Hc.
  rewrite !decide_True, Hws in Hc by done. rewrite decide_True in Hc by done.
  destruct Hc as (_ & Ho & He).
  split; [done|]. split; [done|].
  assert (Hsock : websocket (vars (after r))
                  = Some {| readyState := 0; close_on_open := S (close_on_open ws) |}).
  { subst r. unfold cancel, teardown, post_reset. mrun.
    cbn [vars websocket set_complete]. rewrite decide_True, Hws by done.
    rewrite decide_True by done. destruct ok; mrun; done. }
  unfold ws_opened. rewrite bind_eq. unfold get_vars. rewrite Hsock.
  rewrite bind_eq. unfold modify_vars. rewrite for_each_emit.
  cbn [fst snd close_on_open]. rewrite fmap_replicate. list_norm. done.
Qed.

(** X19.  The factory of the client does not depend on [window]: its test
    [typeof window !== undefined] compares a string with [undefined] and
    always holds.  Wherever [EventSource] is defined, with or without a
    window, the factory opens an event source on the URL. *)
Theorem eventSource_factory_ignores_window h url
    (Hes : has_EventSource h = true) :
  eventSource_factory h url = (Ok EventSourceObj, [NewEventSource url]).
Proof. by rewrite eventSource_factory_eq, Hes. Qed.

(** ** The multiplexed protocols, continued *)

(** X20.  The copy bound to [Client] reads [window.location.hostname] before it
    joins the queue.  Where there is no [window], a call on a multiplexed
    protocol fires the status pending and then throws a
    [ReferenceError]: the join is never POSTed. *)
Theorem mux_join_needs_a_window c v
    (Hsrc : source c = part_003)
    (Hw : has_window (host c) = false) :
  start_mux c v =
    (Throw (ReferenceError "window is not defined"), v,
     dispatch (EStatus (mk_status c Pending true None)) v).
Proof.
  unfold start_mux. rewrite Hsrc, Hw. mrun. by rewrite app_nil_r.
Qed.

(** X21.  In a window, the copy bound to [Client] fires the status pending
    and then does one of two things.  When the function runs on ZeroGPU,
    the page is embedded and the app is a space, it asks the parent frame
    for the ZeroGPU headers and sends nothing else: the join is POSTed
    only in the continuation of that request, when the parent has
    answered, and with the headers of the answer.  Otherwise it POSTs the
    join at once.  Either way the join carries the payload and the
    session hash and goes to [/queue/join?] followed by the parameters of
    the page (the question mark is there even without parameters).  A
    function index without an entry in [config.dependencies] makes the
    call throw a [TypeError] instead, before anything is sent. *)
Theorem mux_join_in_a_window c v
    (Hsrc : source c = part_003)
    (Hw : has_window (host c) = true) :
  let join := root (config c) +:+ "/queue/join?" +:+ url_params (host c) in
  start_mux c v =
    match dependency c with
    | Some d =>
        (Ok tt, v,
         dispatch (EStatus (mk_status c Pending true None)) v
         ++ [if zerogpu d && in_foreign_frame (host c)
                && truthy_str (space_id (config c))
             then PostMessage "zerogpu-headers" (origin (host c))
             else PostData join (JObj (with_hash c (vars v)))])
    | None =>
        (Throw (TypeError "dependency is undefined"), v,
         dispatch (EStatus (mk_status c Pending true None)) v)
    end
  ∧ ∀ headers,
      zerogpu_reply c headers v =
        (Ok tt, v, [PostDataWith join (JObj (with_hash c (vars v))) headers]).
Proof.
  intros join. subst join. split; [|done].
  unfold start_mux, post_join. rewrite Hsrc, Hw. mrun.
  destruct (dependency c) as [d|]; mrun; [|by rewrite app_nil_r].
  destruct (zerogpu d && in_foreign_frame (host c)
            && truthy_str (space_id (config c))); mrun; list_norm; done.
Qed.

(** X22.  A join that is not answered with status 200 registers nothing: the
    call fires one status error (with the queue-full message for 503, the
    broken-connection message otherwise) and that is all; the variables
    of the call and the registries are as before, and no stream is
    opened. *)
Theorem rejected_join_registers_nothing c eid status v
    (Hrej : status ≠ 200%Z) :
  mux_reply c eid status v =
    (Ok tt, v,
     dispatch (EStatus (mk_status c Failed true
       (Some (if decide (status = 503%Z) then QUEUE_FULL_MSG
              else BROKEN_CONNECTION_MSG)))) v).
Proof.
  unfold mux_reply. case_decide; [by rewrite fire_event_eq|].
  rewrite bool_decide_eq_false_2 by done. cbn [negb]. by rewrite fire_event_eq.
Qed.

Lemma replay_keeps (I : View → Prop) c fs v :
  (∀ f, keeps I (λ _, True) (callback c f)) → I v → I (replay c fs v).1.
Proof.
  intros Hcb. revert v. induction fs as [|f fs IH]; intros v Hv; [done|].
  simpl. apply IH. by apply (Hcb f).
Qed.

(** X23.  No function created by [submit] ever sets [stream_open] to true: the
    variable is handed to [open_stream] by value.  So it stays false, and
    a join answered with status 200 ends by calling [open_stream],
    whether or not a stream was opened before.  The one exception is an
    event id that names a member of [Object.prototype] and has nothing
    buffered under it: the reply handler then throws before it has done
    anything to the outside, and [open_stream] is not called. *)
Theorem every_accepted_join_opens_a_stream c :
  stream_open initial_vars = false
  ∧ (∀ k, keeps (λ v, stream_open (vars v) = false) (λ _, True) (body c k))
  ∧ (∀ eid v, stream_open (vars v) = false →
       let r := mux_reply c eid 200 v in
       if inherited (key_of eid) (pending_stream_messages (regs v))
       then outcome r = Throw (TypeError "pending_stream_messages[event_id].forEach is not a function")
            ∧ effects r = []
       else outcome r = Ok tt
            ∧ last (effects r) = Some (OpenStream (session_hash c))).
Proof.
  assert (Hbody : ∀ k, keeps (λ v, stream_open (vars v) = false) (λ _, True) (body c k)).
  { intros k. destruct k; simpl;
      unfold on, off, off_key, destroy, cancel, teardown, post_reset, start,
        start_direct, start_ws, start_sse, start_mux, post_join, zerogpu_reply,
        direct_reply, ws_onmessage, ws_onclose, sse_onmessage, data_tail,
        read_log, close_sse, close_handle, mux_reply, drain, register, callback,
        callback_body, callback_chain, forget_event, data_tail, read_log;
      cbv zeta; keeps_auto; try done; by apply Forall_true. }
  split; [done|]. split; [exact Hbody|].
  intros eid v Hv r. subst r.
  destruct (inherited (key_of eid) (pending_stream_messages (regs v))) eqn:Hin.
  - by rewrite mux_reply_throws.
  - destruct (mux_reply_drains c eid v Hin) as (Ho & _ & He & _).
    split; [done|]. rewrite He.
    rewrite (replay_keeps (λ v, stream_open (vars v) = false)).
    + apply last_snoc.
    + intros f. apply (Hbody (c_callback f)).
    + done.
Qed.

Lemma register_keeps_registered c eid :
  keeps (λ v, registered_are_unclosed (regs v)) (λ _, True) (register c eid).
Proof.
  intros v Hv.
  destruct (register_spec c eid v) as (_ & _ & _ & _ & Hu & Hc).
  split; [|by apply Forall_true].
  intros k i. rewrite Hc, Hu.
  destruct (match source c with submit_ts => truthy_str eid | part_003 => true end).
  - destruct (decide (k = key_of eid)) as [->|Hne].
    + intros _. exists eid. split; [|done]. by apply elem_of_union_l, elem_of_singleton.
    + unfold assign. case_decide; rewrite ?lookup_insert_ne by done; intros Hk;
        destruct (Hv k i Hk) as (eid' & Hin & Hkey);
        exists eid'; (split; [|done]); by apply elem_of_union_r.
  - intros Hk. destruct (Hv k i Hk) as (eid' & Hin & Hkey).
    exists eid'. split; [|done]. by apply elem_of_union_r.
Qed.

(** X24.  One half of the correspondence between the two registries is kept by
    every function a call of [submit] creates: an event id under which a
    callback is registered is noted as unclosed.  Nothing in [submit]
    removes an id from [unclosed_events], and a callback is registered
    only together with its id. *)
Theorem registered_events_are_unclosed c k :
  keeps (λ v, registered_are_unclosed (regs v)) (λ _, True) (body c k).
Proof.
  assert (Hcb : ∀ f, keeps (λ v, registered_are_unclosed (regs v)) (λ _, True)
                       (callback c f)).
  { intros f.
    unfold callback, callback_body, callback_chain, forget_event, data_tail,
      read_log.
    keeps_auto; try done.
    intros k' i'. simpl. intros [_ Hk]%lookup_delete_Some.
    match goal with
    | Hq : registered_are_unclosed _ |- _ => by apply (Hq k' i')
    end. }
  destruct k; simpl; try apply (regs_untouched registered_are_unclosed c).
  - apply Hcb.
  - unfold mux_reply, drain. keeps_auto; try done;
      try lazymatch goal with
          | |- keeps _ _ (callback _ _) => apply Hcb
          | |- keeps _ _ (register _ _) => apply register_keeps_registered
          end.
Qed.

Lemma forget_event_keeps_own m (v0 : View) :
  let key := id_key (event_id (vars v0)) in
  let I := λ v, event_id (vars v) = event_id (vars v0)
                ∧ (event_callbacks (regs v) = event_callbacks (regs v0)
                   ∨ event_callbacks (regs v) = delete key (event_callbacks (regs v0)))
                ∧ unclosed_events (regs v) = unclosed_events (regs v0)
                ∧ pending_stream_messages (regs v) = pending_stream_messages (regs v0) in
  keeps I (λ _, True) (forget_event m).
Proof.
  intros key I v (Hid & Hec & Hu & Hp). rewrite forget_event_eq.
  split; [|done]. cbn [after fst snd].
  destruct (terminal_stage _); [|done].
  unfold forgotten. split; [done|]. split; [|done].
  simpl. rewrite Hid. fold key. right.
  destruct Hec as [->| ->]; [done|]. apply delete_delete_eq.
Qed.

(** X25.  The callback of a call touches the registry of callbacks at most by
    removing the entry of its own event id: the callbacks of all other
    events stay registered, whatever the frame and however the handling
    ends.  It never writes to [unclosed_events] and never buffers a frame,
    and it leaves the event id of the call as it is. *)
Theorem callback_unregisters_only_itself c f v :
  let r := callback c f v in
  let key := id_key (event_id (vars v)) in
  outcome r = Ok tt
  ∧ event_id (vars (after r)) = event_id (vars v)
  ∧ (event_callbacks (regs (after r)) = event_callbacks (regs v)
     ∨ event_callbacks (regs (after r)) = delete key (event_callbacks (regs v)))
  ∧ unclosed_events (regs (after r)) = unclosed_events (regs v)
  ∧ pending_stream_messages (regs (after r)) = pending_stream_messages (regs v).
Proof.
  intros r key. split; [apply callback_total|].
  pose proof forget_event_keeps_own as Hforget. cbv zeta in Hforget.
  assert (Hk : keeps
    (λ v', event_id (vars v') = event_id (vars v)
           ∧ (event_callbacks (regs v') = event_callbacks (regs v)
              ∨ event_callbacks (regs v') = delete key (event_callbacks (regs v)))
           ∧ unclosed_events (regs v') = unclosed_events (regs v)
           ∧ pending_stream_messages (regs v') = pending_stream_messages (regs v))
    (λ _, True) (callback c f)).
  { unfold callback, callback_body, callback_chain, data_tail, read_log.
    keeps_auto; try done;
      try lazymatch goal with
          | |- keeps _ _ (forget_event _) => by apply Hforget
          end. }
  destruct (Hk v) as [HI _]; [by auto|]. exact HI.
Qed.

(** X26.  A frame classified [generating] that carries data and whose stage is
    not final: the callback fires the status with the stage of the frame
    and [queue] true, then the data event.  Under sse_v2, sse_v2.1 and
    sse_v3 the data first go through [apply_diff_stream] with the diff
    store and the event id of the call: the store is replaced by the
    updated one and the data event carries the data as
    [apply_diff_stream] leaves them.  Under sse_v1 the store is not
    touched and the data are fired as they came.  On a call with a
    stashed status (after [cancel], say) the frame is not dropped: the two
    events are fired all the same, and after them the stashed status once
    more, with the stage of the frame in place of its own. *)
Theorem generating_frame_streams_data c f m st d v store d'
    (Hm : handle_message f None = Ok m)
    (Ht : mtype m = t_generating)
    (Hs : mstatus m = Some st)
    (Hd : mdata m = Some d)
    (Hstage : terminal_stage (Some (stage st)) = false)
    (Hdiff : apply_diff_stream (pending_diff_streams (regs v))
               (id_key (event_id (vars v))) d = Ok (store, d')) :
  let status := EStatus (spread_status c (Some st) (Some (stage st))) in
  let stashed :=
    match complete (vars v) with
    | Some st0 => dispatch (EStatus (spread_status c (Some st0) (Some (stage st)))) v
    | None => []
    end in
  callback c f v =
    if bool_decide (protocol c ∈ diff_protocols)
    then (Ok tt,
          {| vars := vars v; regs := set_pending_diff_streams store (regs v) |},
          dispatch status v ++ dispatch (data_event c (o_data d')) v ++ stashed)
    else (Ok tt, v,
          dispatch status v ++ dispatch (data_event c (o_data d)) v ++ stashed).
Proof.
  intros status stashed. subst status stashed.
  unfold callback, try_catch, callback_body. mrun. rewrite Hm. mrun.
  rewrite decide_False by (rewrite Ht; done).
  unfold callback_chain. mrun. rewrite Ht, Hs, Hd. mrun.
  destruct (bool_decide (protocol c ∈ diff_protocols)); mrun.
  - rewrite Hdiff. mrun. cbn [fst snd].
    rewrite data_tail_eq, forget_event_eq. cbn [fst snd vars complete].
    rewrite Hs. cbn [fmap option_fmap option_map]. rewrite Hstage.
    unfold dispatch, listeners_of. cbn [vars listener_map].
    destruct (complete (vars v)); list_norm; done.
  - cbn [fst snd].
    rewrite data_tail_eq, forget_event_eq. cbn [fst snd vars complete].
    rewrite Hs. cbn [fmap option_fmap option_map]. rewrite Hstage.
    destruct (complete (vars v)); list_norm; done.
Qed.

Lemma callback_keeps_event_id c f eid :
  keeps (λ v, event_id (vars v) = eid) (λ _, True) (callback c f).
Proof.
  unfold callback, callback_body, callback_chain, forget_event, data_tail,
    read_log.
  keeps_auto; done.
Qed.

Lemma replay_event_id c fs v :
  event_id (vars (replay c fs v).1) = event_id (vars v).
Proof.
  apply (replay_keeps (λ v', event_id (vars v') = event_id (vars v))); [|done].
  intros f. apply callback_keeps_event_id.
Qed.

Lemma callback_keeps_unregistered c f k :
  keeps (λ v, event_callbacks (regs v) !! k = None) (λ _, True) (callback c f).
Proof.
  unfold callback, callback_body, callback_chain, forget_event, data_tail,
    read_log.
  keeps_auto; try done.
  simpl. by apply lookup_delete_None; right.
Qed.

(** X27.  A join answered with status 200 assigns the event id of the
    reply to the call (also when the reply has none).  Then, unless the id
    names a member of [Object.prototype] with nothing buffered under it,
    the reply handler ends normally, the id is noted as unclosed, and the
    callback of the call is registered under it, replacing whatever was
    registered there: always in the copy bound to [Client], where a reply
    without an event id registers the callback under "undefined"; in
    [submit.ts] only when the id is a non-empty string, and otherwise an
    id that was not registered is still not.  (Under the key [__proto__]
    an assignment registers nothing.)  For an id that the buffer only
    inherits, the handler throws once the id is assigned: nothing is
    replayed, registered or noted. *)
Theorem accepted_join_registers_the_callback c eid v :
  let key := key_of eid in
  let r := mux_reply c eid 200 v in
  event_id (vars (after r)) = Some eid
  ∧ if inherited key (pending_stream_messages (regs v))
    then outcome r = Throw (TypeError "pending_stream_messages[event_id].forEach is not a function")
         ∧ effects r = []
         ∧ regs (after r) = regs v
    else outcome r = Ok tt
         ∧ eid ∈ unclosed_events (regs (after r))
         ∧ if match source c with
              | submit_ts => truthy_str eid
              | part_003 => true
              end
           then key ≠ "__proto__" →
                event_callbacks (regs (after r)) !! key = Some (sub_id c)
           else event_callbacks (regs v) !! key = None →
                event_callbacks (regs (after r)) !! key = None.
Proof.
  intros key r. subst key r.
  destruct (inherited (key_of eid) (pending_stream_messages (regs v))) eqn:Hin.
  { by rewrite mux_reply_throws. }
  destruct (mux_reply_drains c eid v Hin) as (Ho & _ & _ & Hu & Hc).
  assert (Hafter :
    event_id (vars (after (mux_reply c eid 200 v))) = Some eid
    ∧ (match source c with
       | submit_ts => truthy_str eid
       | part_003 => true
       end = false →
       event_callbacks (regs v) !! key_of eid = None →
       event_callbacks (regs (after (mux_reply c eid 200 v))) !! key_of eid = None)).
  { unfold mux_reply. rewrite decide_False by done.
    rewrite bool_decide_eq_true_2 by done. cbn [negb]. mrun.
    match goal with
    | |- context [drain c ?k ?vv] =>
        destruct (drain_spec c k vv Hin) as (Hd & _ & Hv & _ & Hec & _);
        destruct (drain c k vv) as [[r1 v1] es1]
    end.
    unfold outcome, after in *. simpl in Hd, Hv, Hec. subst r1. cbn [fst snd].
    destruct (register_spec c eid v1) as (_ & _ & Hv' & _ & _ & Hec').
    destruct (register c eid v1) as [[r2 v2] es2].
    unfold after in *. simpl in Hv', Hec' |- *.
    split; [by rewrite Hv', Hv, replay_event_id|].
    intros Hcond Hnone. rewrite Hec', Hcond, Hec.
    apply (replay_keeps (λ v', event_callbacks (regs v') !! key_of eid = None));
      [|done].
    intros f. apply callback_keeps_unregistered. }
  destruct Hafter as [Hid Hnot].
  split; [done|]. split; [done|]. split; [done|].
  destruct (match source c with
            | submit_ts => truthy_str eid
            | part_003 => true
            end) eqn:Hcond.
  - intros Hproto. by apply Hc.
  - by apply Hnot.
Qed.

(** X28.  Every event a call fires, and so every event its listeners
    receive, names the call: whatever function of the call fires it, on
    whatever transport and in whatever state, the event carries the
    endpoint of the call ("/predict" for a number) and its function
    index. *)
Theorem every_event_names_its_call c k v :
  Forall (names_the_call c) (effects (body c k v)).
Proof.
  assert (Hk : keeps (λ _, True) (names_the_call c) (body c k)).
  { destruct k; simpl;
      unfold on, off, off_key, destroy, cancel, teardown, post_reset, start,
        start_direct, start_ws, start_sse, start_mux, post_join, zerogpu_reply, direct_reply,
        ws_onmessage, ws_onclose, sse_onmessage, data_tail, read_log, close_sse,
        close_handle, mux_reply, drain, register, callback, callback_body,
        callback_chain, forget_event, data_tail, read_log;
      cbv zeta; keeps_auto; try done.
    - unfold new_EventSource. by destruct (has_EventSource _); repeat constructor.
    - rewrite eventSource_factory_eq.
      by destruct (has_EventSource _); repeat constructor. }
  by apply Hk.
Qed.

(** ** [config_success] and [component_server] *)

Lemma replace_first_eq pattern replacement s :
  replace_first pattern replacement s =
    if String.prefix pattern s
    then replacement +:+ string_drop (String.length pattern) s
    else match s with
         | EmptyString => EmptyString
         | String a rest => String a (replace_first pattern replacement rest)
         end.
Proof. by destruct s. Qed.

(** If a string does not begin with a given end of "http://", neither
    does the string after the replacement. *)
Ltac no_new_prefix next :=
  intros s Hs; rewrite replace_first_eq;
  destruct (String.prefix "http://" s) eqn:Hp;
  [ reflexivity
  | destruct s as [|a rest]; [done|];
    cbn [String.prefix] in *;
    destruct (Ascii.ascii_dec _ a); [first [by destruct rest | by apply next]|done] ].

Lemma no_new_prefix_1 s :
  String.prefix "/" s = false →
  String.prefix "/" (replace_first "http://" "https://" s) = false.
Proof. revert s. no_new_prefix I. Qed.

Lemma no_new_prefix_2 s :
  String.prefix "//" s = false →
  String.prefix "//" (replace_first "http://" "https://" s) = false.
Proof. revert s. no_new_prefix no_new_prefix_1. Qed.

Lemma no_new_prefix_3 s :
  String.prefix "://" s = false →
  String.prefix "://" (replace_first "http://" "https://" s) = false.
Proof. revert s. no_new_prefix no_new_prefix_2. Qed.

Lemma no_new_prefix_4 s :
  String.prefix "p://" s = false →
  String.prefix "p://" (replace_first "http://" "https://" s) = false.
Proof. revert s. no_new_prefix no_new_prefix_3. Qed.

Lemma no_new_prefix_5 s :
  String.prefix "tp://" s = false →
  String.prefix "tp://" (replace_first "http://" "https://" s) = false.
Proof. revert s. no_new_prefix no_new_prefix_4. Qed.

Lemma no_new_prefix_6 s :
  String.prefix "ttp://" s = false →
  String.prefix "ttp://" (replace_first "http://" "https://" s) = false.
Proof. revert s. no_new_prefix no_new_prefix_5. Qed.

Lemma no_new_prefix_7 s :
  String.prefix "http://" s = false →
  String.prefix "http://" (replace_first "http://" "https://" s) = false.
Proof. revert s. no_new_prefix no_new_prefix_6. Qed.

(** X29.  On a page loaded over https, [config_success] leaves a root that does
    not begin with "http://", whatever root the configuration came with;
    a root that begins with "http://" has exactly this prefix replaced by
    "https://".  The other fields are stored as they are.  Without a
    window, or on a page loaded over another protocol, the configuration
    is stored unchanged. *)
Theorem config_success_upgrades_the_root cfg :
  let cfg' := config_success true "https:" cfg in
  String.prefix "http://" (root cfg') = false
  ∧ (∀ rest, root cfg = "http://" +:+ rest → root cfg' = "https://" +:+ rest)
  ∧ (path cfg', config_protocol cfg', version cfg', space_id cfg', dependencies cfg')
    = (path cfg, config_protocol cfg, version cfg, space_id cfg, dependencies cfg)
  ∧ (∀ w p, w = false ∨ p ≠ "https:" → config_success w p cfg = cfg).
Proof.
  intros cfg'. subst cfg'. unfold config_success.
  rewrite bool_decide_eq_true_2 by done. cbn [andb root path config_protocol
    version space_id dependencies].
  split; [|split; [|split]].
  - destruct (String.prefix "http://" (root cfg)) eqn:Hp.
    + rewrite replace_first_eq, Hp. reflexivity.
    + by apply no_new_prefix_7.
  - intros rest ->. rewrite replace_first_eq.
    assert (String.prefix "http://" ("http://" +:+ rest) = true) as ->
      by (by destruct rest).
    reflexivity.
  - done.
  - intros w p [->|Hp]; [done|].
    rewrite bool_decide_eq_false_2 by done. by rewrite andb_false_r.
Qed.

Lemma find_no_match {A} (f : A → bool) (l : list A) :
  (∀ x, x ∈ l → f x = false) → List.find f l = None.
Proof.
  induction l as [|a l IH]; intros Hl; [done|]. simpl.
  rewrite (Hl a) by left. apply IH. intros x Hx. apply Hl. by right.
Qed.

(** X30.  [component_server] sends one POST, whether or not it then throws: to
    [/component_server/] under the root of the configuration when no
    component has the given id, and in any case with the body
    [{data, component_id, fn_name, session_hash}] that carries the session
    hash of the client.  The token, when there is one, goes into the
    [Authorization] header.  The call returns the JSON of the response
    when the response is ok, and otherwise throws an error whose message
    ends with the status text. *)
Theorem component_server_request cl components component_id fn_name data response :
  let r := component_server_fetch cl components component_id fn_name data response in
  (∃ url body,
     r.2 = [Fetch url body]
     ∧ component_server cl component_id fn_name data
       = Fetch (root (c_config cl) +:+ "/component_server/") body
     ∧ prop "session_hash" body = JStr (c_session_hash cl))
  ∧ ((∀ comp, comp ∈ components → comp_id comp ≠ component_id) →
     r.2 = [component_server cl component_id fn_name data])
  ∧ (("Authorization", "Bearer " +:+ default "" (c_hf_token cl)) ∈ r.1.2
     ↔ truthy_str (c_hf_token cl) = true)
  ∧ r.1.1 = (if resp_ok response then Ok (resp_json response)
             else Throw (Error ("Could not connect to component server: "
                                +:+ resp_statusText response))).
Proof.
  intros r. subst r. unfold component_server_fetch, component_server.
  cbn [fst snd]. split; [|split; [|split]].
  - eexists _, _. split; [reflexivity|]. split; [reflexivity|]. reflexivity.
  - intros Hnone. rewrite find_no_match; [done|].
    intros comp Hin. apply bool_decide_eq_false_2. by apply Hnone.
  - destruct (truthy_str (c_hf_token cl)).
    + split; [done|]. intros _. right. by left.
    + split; [|done].
      intros [Heq|Hin]%elem_of_cons; [discriminate|]. by apply elem_of_nil in Hin.
  - done.
Qed.

End Facts.

(** * Examples on the concrete stand-in *)

#[local] Existing Instance sample.

(** C9, counterexample.  With listener 7 registered twice under [status]
    and listener 8 once, [off("status", 7)] leaves only 8, whereas removing
    the first match would leave 7 and 8. *)
Lemma off_drops_later_duplicate :
  listeners_of status_t (after (off status_t 7 subscribed))
  ≠ remove_first 7 (listeners_of status_t subscribed).
Proof. vm_compute. discriminate. Qed.

(** C5, counterexample.  Listener 7 on [status], a call over an open
    WebSocket: after two calls of [cancel] the listener has received one
    event more than after a single call. *)
Lemma cancel_twice_is_heard_twice :
  received 7 (wtrace (play submit_ts "ws" (ws_session ++ [ACancel 1 true; ACancel 1 true])))
  ≠ received 7 (wtrace (play submit_ts "ws" (ws_session ++ [ACancel 1 true]))).
Proof. vm_compute. discriminate. Qed.

(** C4, at the failing input.  A call on the multiplexed protocol sse_v1
    whose join was answered with event id E1: [cancel] fires the synthetic
    status and then throws on the event stream that was never assigned; no
    request to [/reset] is made.  This holds for either copy of [submit]. *)
Lemma cancel_mux_throws :
  ∀ src,
    let w := play src "sse_v1" (mux_session (Some "E1") ++ [ACancel 1 true]) in
    last (wtrace w) = Some (Uncaught (TypeError "event stream is undefined"))
    ∧ filter is_fetch (wtrace w) = []
    ∧ last (fired (wtrace w)) = Some (cancelled (sample_consts src "sse_v1")).
Proof. intros []; vm_compute; done. Qed.

(** C8, at the failing input.  In [submit.ts], a join answered with the
    empty event id is added to [unclosed_events] but not registered in
    [event_callbacks]. *)
Lemma empty_event_id_is_unclosed_but_not_registered :
  let w := play submit_ts "sse_v1" (mux_session (Some "")) in
  event_callbacks (registries w) !! "" = None
  ∧ Some "" ∈ unclosed_events (registries w).
Proof.
  intros w. split; [by vm_compute|].
  apply (bool_decide_unpack _). by vm_compute.
Qed.

(** C6, at the failing input.  A call on the multiplexed protocol sse_v2
    whose join was answered with event id E1, so that the multiplex stream
    was opened; then its callback is handed a frame whose handling throws.
    The callback logs the exception, fires the status error with message
    "An Unexpected Error Occurred!" to the one status listener, and calls
    [close_stream] with [false] and [undefined]: the multiplex stream,
    which the call never held, is not handed over and stays open.  This
    holds for either copy of [submit]. *)
Lemma exception_closes_no_stream :
  ∀ src,
    let w0 := play src "sse_v2" (mux_session (Some "E1")) in
    let w := run_in 1 (λ c, callback c (malformed_frame "E1")) w0 in
    let failed :=
      EStatus {| ev_stage := Some Failed; ev_queue := true;
                 ev_message := Some "An Unexpected Error Occurred!";
                 ev_eta := None; ev_broken := None; ev_others := [];
                 ev_endpoint := "/gen"; ev_fn_index := 1 |} in
    last (wtrace w0)
    = Some (OpenStream (session_hash (sample_consts src "sse_v2")))
    ∧ drop (length (wtrace w0)) (wtrace w)
      = [ConsoleError "Unexpected client exception";
         Fired failed; Deliver 7 failed;
         CloseStream false None].
Proof. intros []; vm_compute; done. Qed.

(** C10, witness: Node without [EventSource]. *)
Lemma eventSource_factory_total_witness :
  eventSource_factory node_host "http://localhost:7860/heartbeat/s3ss10n"
  = (Ok NoopFn, []).
Proof.
  refine (proj1 (proj2 (eventSource_factory_total node_host _ _))).
  reflexivity.
Defined.

(** C7, counterexample.  A call on the protocol sse of the copy bound to
    [Client], cancelled: the request to [/reset] is [{event_id: null}] and
    carries no session hash. *)
Lemma reset_carries_no_session_hash :
  ¬ Forall (has_session_hash (c_session_hash (sample_client "sse")))
      (wtrace (play part_003 "sse"
                 [ASubmit (inr "/gen") JUndefined JUndefined "r4nd";
                  AStart 1 (Some [JStr "hi"]) sample_ws_env;
                  ACancel 1 true])).
Proof.
  intros HF.
  apply Forall_forall
    with (x := Fetch "http://localhost:7860/reset" (JObj [("event_id", JNull)]))
    in HF.
  - vm_compute in HF. discriminate.
  - apply last_Some_elem_of. vm_compute. reflexivity.
Qed.

(** C1, counterexample.  Events follow a terminal status in two runs.
    On sse_v3, a frame whose handling throws fires the status error; the
    callback stays registered and the stream open, and the generating frame
    that follows fires a status and a data event.  And in a cancellation in
    mid-stream the synthetic status complete of [cancel] is the fourth
    event of the submission, and the frame that arrives afterwards still
    fires a status, a data event and a status. *)
Lemma events_follow_the_terminal_status :
  ¬ nothing_after_terminal
      (fired (wtrace (play submit_ts "sse_v3" frame_after_exception)))
  ∧ ¬ nothing_after_terminal
        (fired (wtrace (play submit_ts "sse_v1" cancelled_in_mid_stream))).
Proof.
  split; intros Hn.
  - set (evs := fired (wtrace (play submit_ts "sse_v3" frame_after_exception))) in *.
    specialize (Hn (take 1 evs)
                  (EStatus (mk_status (sample_consts submit_ts "sse_v3") Failed true
                              (Some "An Unexpected Error Occurred!")))
                  (drop 2 evs)).
    assert (Hlater : drop 2 evs = []) by (apply Hn; vm_compute; reflexivity).
    vm_compute in Hlater. discriminate.
  - set (evs := fired (wtrace (play submit_ts "sse_v1" cancelled_in_mid_stream))) in *.
    specialize (Hn (take 3 evs) (cancelled (sample_consts submit_ts "sse_v1"))
                  (drop 4 evs)).
    assert (Hlater : drop 4 evs = []) by (apply Hn; vm_compute; reflexivity).
    vm_compute in Hlater. discriminate.
Qed.

(** C1, witness: a completed frame with data. *)
Lemma complete_frame_fires_data_then_status_witness :
  fired (effects (callback (sample_consts submit_ts "sse_v1")
                    (completed_frame "E1" (JArr [JStr "hi!"])) fresh_view))
  = [EData {| de_data := JArr [JStr "hi!"]; de_endpoint := "/gen";
              de_fn_index := 1; de_event_data := JUndefined;
              de_trigger_id := JUndefined |};
     EStatus {| ev_stage := Some Complete; ev_queue := true;
                ev_message := None; ev_eta := None; ev_broken := None;
                ev_others := []; ev_endpoint := "/gen"; ev_fn_index := 1 |}].
Proof.
  refine (proj1 (proj2 (proj2
    (complete_frame_fires_data_then_status (sample_consts submit_ts "sse_v1")
       (completed_frame "E1" (JArr [JStr "hi!"]))
       (completed_message (JArr [JStr "hi!"])) fresh_view _ _)))).
  - reflexivity.
  - reflexivity.
Defined.

(** C1, the race with a last frame.  The frame that completes E2 is
    buffered before the join is answered.  The reply replays it, which
    fires the data event and the status complete, and registers the
    callback only then: it stays registered under E2, in either copy of
    [submit]. *)
Lemma replayed_last_frame_leaves_the_callback_registered :
  ∀ src,
    let w := play src "sse_v1" last_frame_before_reply in
    event_callbacks (registries w) !! "E2" = Some 1
    ∧ last (fired (wtrace w))
      = Some (EStatus {| ev_stage := Some Complete; ev_queue := true;
                         ev_message := None; ev_eta := None; ev_broken := None;
                         ev_others := []; ev_endpoint := "/gen";
                         ev_fn_index := 1 |}).
Proof. intros []; vm_compute; done. Qed.

(** C2, witness: the call of [/predict] with [2, 3]. *)
Lemma direct_transport_witness :
  fired (effects (start predict_consts (Some [num 2; num 3]) sample_ws_env fresh_view))
  = [EStatus {| ev_stage := Some Pending; ev_queue := false;
                ev_message := None; ev_eta := None;
                ev_broken := None; ev_others := [];
                ev_endpoint := "/predict"; ev_fn_index := 0 |}].
Proof.
  refine (proj1 (proj2
    (direct_transport predict_consts (Some [num 2; num 3]) sample_ws_env
       fresh_view _))).
  reflexivity.
Defined.

(** C3, witness: the race.  The frame for E2 is replayed when the reply
    assigns E2, and the buffer is gone. *)
Lemma buffered_frames_are_replayed_witness :
  let w1 := play part_003 "sse_v1" frame_before_reply in
  let w2 := act part_003 (sample_client "sse_v1") (AMuxReply 1 (Some "E2") 200) w1 in
  buffer_of "E2" w1 = [generating_frame "E2" (JArr [num 1])]
  ∧ pending_stream_messages (registries w2) !! "E2" = None.
Proof.
  intros w1 w2.
  destruct (subs w1 !! 1) as [[c x1]|] eqn:Hsub; [|by vm_compute in Hsub].
  pose proof (buffered_frames_are_replayed part_003 (sample_client "sse_v1")
                frame_before_reply empty_world 1 c x1 "E2"
                ltac:(discriminate) eq_refl eq_refl Hsub) as (Hb & _ & Hp & _).
  split; [exact Hb | exact Hp].
Defined.

(** * The scenarios of the specification, run on the model *)

(** Direct transport, HTTP 200: pending, data, complete with the eta. *)
Example scenario_direct_200 :
  fired (wtrace (play submit_ts "sse_v1"
    [ASubmit (inr "/predict") JUndefined JUndefined "r4nd";
     AStart 1 (Some [num 2; num 3]) sample_ws_env;
     ADirectReply 1 (Resolved {| out_data := JArr [num 5];
                                 average_duration := Some (1 # 10)%Q;
                                 out_error := None |} 200)]))
  = [EStatus (mk_status predict_consts Pending false None);
     data_event predict_consts (JArr [num 5]);
     EStatus {| ev_stage := Some Complete; ev_queue := false; ev_message := None;
                ev_eta := Some (1 # 10)%Q; ev_broken := None; ev_others := [];
                ev_endpoint := "/predict"; ev_fn_index := 0 |}].
Proof. vm_compute. reflexivity. Qed.

(** Queue full: the join is answered 503. *)
Example scenario_queue_full :
  fired (wtrace (play submit_ts "sse_v1"
    [ASubmit (inr "/gen") JUndefined JUndefined "r4nd";
     AStart 1 (Some [JStr "hi"]) sample_ws_env;
     AMuxReply 1 None 503]))
  = [EStatus (mk_status (sample_consts submit_ts "sse_v1") Pending true None);
     EStatus (mk_status (sample_consts submit_ts "sse_v1") Failed true
                (Some "This application is too busy. Keep trying!"))].
Proof. vm_compute. reflexivity. Qed.

(** A WebSocket that closes uncleanly before any frame. *)
Example scenario_ws_broken :
  fired (wtrace (play submit_ts "ws"
    [ASubmit (inr "/gen") JUndefined JUndefined "r4nd";
     AStart 1 (Some [JStr "hi"]) sample_ws_env;
     AWsClose 1 false]))
  = [EStatus (mk_status (sample_consts submit_ts "ws") Pending true None);
     EStatus {| ev_stage := Some Failed; ev_queue := true;
                ev_message := Some "Connection errored out."; ev_eta := None;
                ev_broken := Some true; ev_others := [];
                ev_endpoint := "/gen"; ev_fn_index := 1 |}].
Proof. vm_compute. reflexivity. Qed.

(** * More examples on the concrete stand-in *)

(** X2, witness.  Listener 9 is new to [subscribed]: subscribing and unsubscribing it
    leaves the listeners of [status] as they were. *)
Lemma on_then_off_restores_witness :
  listeners_of status_t (after (off status_t 9 (after (on status_t 9 subscribed))))
  = listeners_of status_t subscribed.
Proof.
  refine (on_then_off_restores status_t 9 subscribed _ status_t).
  apply (bool_decide_unpack _). by vm_compute.
Defined.

(** X4, witness.  An endpoint whose entry in the API is [null], in
    [submit.ts]. *)
Lemma submit_errors_witness :
  submit submit_ts null_entry_client 1 "r4nd" (inr "/gen") JUndefined JUndefined
  = Throw (Error "Invalid endpoint").
Proof.
  exact (submit_errors submit_ts null_entry_client 1 "r4nd" (inr "/gen")
           JUndefined JUndefined).
Defined.

(** X5, witness.  Function 7 does not exist; the copy bound to [Client] takes it. *)
Lemma numeric_endpoint_is_taken_as_given_witness :
  ∃ c, submit part_003 (sample_client "sse_v1") 1 "r4nd" (inl 7%Z)
         JUndefined JUndefined = Ok c
       ∧ fn_index c = 7%Z
       ∧ dependency c = None.
Proof.
  destruct (@numeric_endpoint_is_taken_as_given sample (sample_client "sse_v1") _ 1 "r4nd"
              7 JUndefined JUndefined eq_refl) as (c & Hs & Hf & _ & _ & Hd & _).
  exists c. split; [exact Hs|]. split; [exact Hf|]. exact Hd.
Defined.

(** X6, witness.  The endpoint "gen", with and without the slash. *)
Lemma leading_slash_is_optional_witness :
  ∃ c', submit part_003 (sample_client "sse_v1") 1 "r4nd" (inr "/gen")
          JUndefined JUndefined = Ok c'.
Proof.
  destruct (submit part_003 (sample_client "sse_v1") 1 "r4nd" (inr "gen")
              JUndefined JUndefined) as [c|] eqn:Hs; [|by vm_compute in Hs].
  destruct (@leading_slash_is_optional sample (sample_client "sse_v1") 1 "r4nd" "gen"
              JUndefined JUndefined c eq_refl Hs) as (c' & Hs' & _).
  exists c'. exact Hs'.
Defined.

(** X7, witness.  A call over the WebSocket. *)
Lemma start_fires_pending_first_witness :
  ∃ rest,
    effects (start (sample_consts submit_ts "ws") (Some [JStr "hi"]) sample_ws_env
               fresh_view)
    = dispatch (pending (sample_consts submit_ts "ws")) fresh_view ++ rest
    ∧ fired rest = [].
Proof.
  apply start_fires_pending_first. right. by left.
Defined.

(** X8, witness.  A protocol of the future. *)
Lemma unknown_protocol_is_silent_witness :
  effects (start (sample_consts submit_ts "sse_v4") (Some [JStr "hi"]) sample_ws_env
             fresh_view) = [].
Proof.
  refine (f_equal effects
    (unknown_protocol_is_silent (sample_consts submit_ts "sse_v4") (Some [JStr "hi"])
       sample_ws_env fresh_view eq_refl _)).
  apply (bool_decide_unpack _). by vm_compute.
Defined.

(** X9, witness.  The frame that asks for the hash. *)
Lemma ws_handshake_witness :
  ws_onmessage (sample_consts submit_ts "ws") hash_frame fresh_view =
    (Ok tt, fresh_view,
     [WsSend (JObj [("fn_index", num 1); ("session_hash", JStr "r4nd")])]).
Proof.
  exact (proj1 (ws_handshake (sample_consts submit_ts "ws") hash_frame _ fresh_view
                  eq_refl) eq_refl).
Defined.

(** X10, witness.  A completed frame with data, over the WebSocket. *)
Lemma completion_closes_the_transport_witness :
  last (effects (ws_onmessage (sample_consts submit_ts "ws")
                   (completed_frame "E1" (JArr [JStr "hi!"])) fresh_view))
  = Some WsClose.
Proof.
  rewrite (proj1 (@completion_closes_the_transport sample (sample_consts submit_ts "ws")
                    (completed_frame "E1" (JArr [JStr "hi!"]))
                    (completed_message (JArr [JStr "hi!"])) (ok_status Complete)
                    (output_of (JArr [JStr "hi!"])) fresh_view 200
                    eq_refl eq_refl eq_refl eq_refl)).
  reflexivity.
Defined.

(** X11, witness.  An estimation that arrives after [cancel]. *)
Lemma update_frames_are_dropped_once_complete_witness :
  ws_onmessage (sample_consts submit_ts "ws") (update_frame "E1" Pending)
    cancelled_view = (Ok tt, cancelled_view, []).
Proof.
  refine (proj1 (update_frames_are_dropped_once_complete
                   (sample_consts submit_ts "ws") (update_frame "E1" Pending)
                   (update_message Pending) cancelled_view 200
                   eq_refl eq_refl eq_refl _)).
  by eexists.
Defined.

(** X12, witness.  The server reports an error on a multiplexed call. *)
Lemma server_error_ends_the_call_witness :
  callback (sample_consts submit_ts "sse_v1") (update_frame "E1" Failed) fresh_view
  = (Ok tt, forgotten fresh_view,
     dispatch (update_event (sample_consts submit_ts "sse_v1") (ok_status Failed))
       fresh_view).
Proof.
  exact (proj2 (proj2 (server_error_ends_the_call
                         (sample_consts submit_ts "sse_v1") (update_frame "E1" Failed)
                         (update_message Failed) (ok_status Failed) fresh_view 200
                         eq_refl eq_refl eq_refl eq_refl eq_refl eq_refl))).
Defined.

(** X13, witnesses.  A text that is not JSON, and a frame the interpreter
    chokes on, over the WebSocket. *)
Lemma ws_handler_throws_only_on_bad_frames_witness :
  outcome (websocket_onmessage (sample_consts submit_ts "ws")
             (Malformed "{") fresh_view)
  = Throw (SyntaxError "Unexpected token in JSON")
  ∧ outcome (websocket_onmessage (sample_consts submit_ts "ws")
               (Parses (malformed_frame "E1")) fresh_view)
    = Throw (TypeError "Cannot use 'in' operator").
Proof.
  split.
  - exact (proj2 (ws_handler_throws_only_on_bad_frames
                    (sample_consts submit_ts "ws") (Malformed "{") fresh_view
                    (SyntaxError "Unexpected token in JSON")) eq_refl).
  - exact (proj2 (ws_handler_throws_only_on_bad_frames
                    (sample_consts submit_ts "ws")
                    (Parses (malformed_frame "E1")) fresh_view
                    (TypeError "Cannot use 'in' operator")) (or_introl eq_refl)).
Defined.

(** X14, witness.  A log frame over the WebSocket. *)
Lemma log_frame_also_fires_data_outside_mux_witness :
  length (fired (effects (ws_onmessage (sample_consts submit_ts "ws")
                            (log_frame "E1" "loading") fresh_view))) = 2.
Proof.
  destruct (@log_frame_also_fires_data_outside_mux sample (sample_consts submit_ts "ws")
              (log_frame "E1" "loading") _ _ fresh_view 200
              eq_refl eq_refl eq_refl eq_refl) as (Hws & _ & _).
  by rewrite Hws.
Defined.

(** X15, witness.  The data of a call on the dedicated event stream are refused. *)
Lemma sse_data_frame_posts_the_payload_witness :
  last (effects (sse_onmessage (sample_consts submit_ts "sse") (send_data_frame "E9")
                   500 sse_view)) = Some EsClose.
Proof.
  rewrite (@sse_data_frame_posts_the_payload sample (sample_consts submit_ts "sse")
             (send_data_frame "E9") _ sse_view 500 eq_refl eq_refl eq_refl eq_refl).
  reflexivity.
Defined.

(** X16, witness.  [submit.ts] where [EventSource] is not defined. *)
Lemma sse_needs_EventSource_in_submit_ts_witness :
  outcome (start_sse (node_consts submit_ts "sse") fresh_view)
  = Throw (ReferenceError "EventSource is not defined").
Proof.
  exact (f_equal outcome
    (sse_needs_EventSource_in_submit_ts (node_consts submit_ts "sse") fresh_view
       eq_refl eq_refl)).
Defined.

(** X17, witness.  The stand-in leaves [semiver] unbound. *)
Lemma ws_start_witness :
  outcome (start_ws (sample_consts submit_ts "ws") "ws://localhost:7860" None None
             fresh_view)
  = Throw (ReferenceError "semiver is not defined").
Proof.
  exact (proj1 (proj2 (ws_start (sample_consts submit_ts "ws") "ws://localhost:7860"
                         None None fresh_view eq_refl))).
Defined.

(** X18, witness.  [cancel] before the socket has opened. *)
Lemma cancel_while_connecting_closes_on_open_witness :
  effects (ws_opened (after (cancel (sample_consts submit_ts "ws") true connecting_view)))
  = [WsClose].
Proof.
  destruct (@cancel_while_connecting_closes_on_open sample (sample_consts submit_ts "ws") true
              connecting_view connecting eq_refl eq_refl eq_refl) as (_ & _ & Ho).
  by rewrite Ho.
Defined.

(** X19, witness.  The factory in a worker. *)
Lemma eventSource_factory_ignores_window_witness :
  eventSource_factory worker_host "http://localhost:7860/heartbeat/s3ss10n"
  = (Ok EventSourceObj, [NewEventSource "http://localhost:7860/heartbeat/s3ss10n"]).
Proof.
  exact (eventSource_factory_ignores_window worker_host _ eq_refl).
Defined.

(** X20, witness.  A multiplexed call of the copy bound to [Client], outside a browser. *)
Lemma mux_join_needs_a_window_witness :
  outcome (start_mux (node_consts part_003 "sse_v1") fresh_view)
  = Throw (ReferenceError "window is not defined").
Proof.
  exact (f_equal outcome
    (mux_join_needs_a_window (node_consts part_003 "sse_v1") fresh_view
       eq_refl eq_refl)).
Defined.

(** X21, witness.  The call of a ZeroGPU function from an embedded page: the
    parent is asked, and no join is POSTed yet. *)
Lemma mux_join_in_a_window_witness :
  start_mux zerogpu_consts fresh_view =
    (Ok tt, fresh_view,
     [Fired (EStatus (mk_status zerogpu_consts Pending true None));
      PostMessage "zerogpu-headers" "https://huggingface.co"]).
Proof.
  exact (proj1 (mux_join_in_a_window zerogpu_consts fresh_view eq_refl eq_refl)).
Defined.

(** X22, witness.  The queue is full. *)
Lemma rejected_join_registers_nothing_witness :
  after (mux_reply (sample_consts submit_ts "sse_v1") None 503 fresh_view)
  = fresh_view.
Proof.
  refine (f_equal after
    (rejected_join_registers_nothing (sample_consts submit_ts "sse_v1") None 503
       fresh_view _)).
  done.
Defined.

(** X26, witness.  A generating frame under sse_v2, on a call whose event id is still
    [null]. *)
Lemma generating_frame_streams_data_witness :
  pending_diff_streams
    (regs (after (callback (sample_consts submit_ts "sse_v2")
                    (generating_frame "E1" (JArr [JStr "h"])) fresh_view)))
  !! "null" = Some (JArr [JStr "h"]).
Proof.
  rewrite (@generating_frame_streams_data sample (sample_consts submit_ts "sse_v2")
             (generating_frame "E1" (JArr [JStr "h"])) _ _ _ fresh_view _ _
             eq_refl eq_refl eq_refl eq_refl eq_refl eq_refl).
  by vm_compute.
Defined.
